(** * Buffer manager: a shallow embedding of [buffer_mgr.c]

    The buffer pool caches pages of a page file in a fixed array of frames.
    This development embeds the functions of [buffer_mgr.c] as Rocq
    functions over an explicit pool state and an explicit environment (the
    C library: [fopen], [calloc], the page file), and proves properties of
    the victim selector, of pin / unpin / markDirty / flush, and invariants
    of every state the public operations can reach.

    Conventions of the embedding.
    - A C [int] is a [Z]. The logical clock [buffertimer] and the file
      offsets [pageNum * PAGE_SIZE] are 32-bit [int]s as in the source, with
      the wrap-around written out ([int_wrap]):
      the clock is reset by the victim selector only, so that pins of
      resident pages alone take it past [INT_MAX], and a page number from
      [INT_MAX / PAGE_SIZE] on gives an offset out of range. Pin counts and
      the two I/O counters are left as integers: they describe the runs in
      which no page is pinned 2^31 times without release and fewer than 2^31
      pages are read or written.
    - The frame array [pool->mgmtData] is a list; [NULL] is [None]. Its
      length is [pool->numPages]: [initBufferPool] sets both together and no
      function changes either afterwards, so the loops
      [while (counter < pool->numPages)] are traversals of the list.
    - A pointer field of a frame ([data], [strategyAttribute]) is the option
      of the value it points to. The pool functions read nothing but
      [pageNum] from a handle passed by the caller.
    - The results of [fseek], [fread], [fwrite] and [fclose] are ignored by
      the source. Here [fopen], [calloc] and [fwrite] can fail; a seek to a
      negative offset fails and leaves the stream at its start; a read gets
      the bytes the file has from the offset on, fewer than a page at the
      end of the file. Of these failures the pool functions see those of
      [fopen] and [calloc] only. *)

From stdpp Require Import base list strings.
From Stdlib Require Import ZArith Lia.
From Stdlib.Strings Require Import Byte.

Local Open Scope Z_scope.

(** ** Return codes and strategies *)

(** The return codes are macros of [dberror.h]; only their names matter. *)
Inductive RC : Set :=
  | RC_OK
  | RC_FILE_NOT_FOUND
  | RC_POOL_NOT_INIT
  | RC_SHUTDOWN_POOL_FAILED
  | RC_PAGE_NOT_FOUND
  | RC_PAGE_NOT_PINNED
  | RC_NEGATIVE_PAGE_NUM
  | RC_NO_AVAILABLE_FRAME
  | RC_MEMORY_ALLOCATION_ERROR.

#[global] Instance RC_eq_dec : EqDecision RC.
Proof. solve_decision. Defined.

(** Modelled from the spec: the enumeration [ReplacementStrategy] is declared
    in [buffer_mgr.h], which is not among the sources. The configuration
    section of the specification lists FIFO, LRU and LRU-K; the source tests
    for [RS_LRU] and [RS_LRU_K] only. *)
Inductive ReplacementStrategy : Set :=
  | RS_FIFO
  | RS_LRU
  | RS_LRU_K.

#[global] Instance ReplacementStrategy_eq_dec : EqDecision ReplacementStrategy.
Proof. solve_decision. Defined.

(** ** Frames and pool *)

(** One frame of the pool, and also the handle a caller receives
    ([*page = pool->mgmtData[counter]] copies the struct). *)
Record BM_PageHandle : Type := mkPageHandle {
  pageNum : Z;
  data : option (list byte);
  dirty : bool;
  fixCounts : Z;
  strategyAttribute : option Z
}.

Record BM_BufferPool : Type := mkBufferPool {
  pageFile : string;
  numPages : Z;
  strategy : ReplacementStrategy;
  mgmtData : option (list BM_PageHandle);
  numberReadIO : Z;
  numberWriteIO : Z;
  buffertimer : Z
}.

Definition set_pageNum (n : Z) (h : BM_PageHandle) : BM_PageHandle :=
  mkPageHandle n (data h) (dirty h) (fixCounts h) (strategyAttribute h).

Definition set_data (d : option (list byte)) (h : BM_PageHandle) : BM_PageHandle :=
  mkPageHandle (pageNum h) d (dirty h) (fixCounts h) (strategyAttribute h).

Definition set_dirty (b : bool) (h : BM_PageHandle) : BM_PageHandle :=
  mkPageHandle (pageNum h) (data h) b (fixCounts h) (strategyAttribute h).

Definition set_fixCounts (n : Z) (h : BM_PageHandle) : BM_PageHandle :=
  mkPageHandle (pageNum h) (data h) (dirty h) n (strategyAttribute h).

Definition set_strategyAttribute (a : option Z) (h : BM_PageHandle) : BM_PageHandle :=
  mkPageHandle (pageNum h) (data h) (dirty h) (fixCounts h) a.

Definition set_mgmtData (m : option (list BM_PageHandle)) (p : BM_BufferPool) : BM_BufferPool :=
  mkBufferPool (pageFile p) (numPages p) (strategy p) m
    (numberReadIO p) (numberWriteIO p) (buffertimer p).

Definition set_numberReadIO (n : Z) (p : BM_BufferPool) : BM_BufferPool :=
  mkBufferPool (pageFile p) (numPages p) (strategy p) (mgmtData p)
    n (numberWriteIO p) (buffertimer p).

Definition set_numberWriteIO (n : Z) (p : BM_BufferPool) : BM_BufferPool :=
  mkBufferPool (pageFile p) (numPages p) (strategy p) (mgmtData p)
    (numberReadIO p) n (buffertimer p).

Definition set_buffertimer (n : Z) (p : BM_BufferPool) : BM_BufferPool :=
  mkBufferPool (pageFile p) (numPages p) (strategy p) (mgmtData p)
    (numberReadIO p) (numberWriteIO p) n.

(** [pool->mgmtData[i]], read and written. *)
Definition frame_at (p : BM_BufferPool) (i : nat) : option BM_PageHandle :=
  match mgmtData p with
  | Some frames => frames !! i
  | None => None
  end.

Definition set_frame (i : nat) (f : BM_PageHandle) (p : BM_BufferPool) : BM_BufferPool :=
  match mgmtData p with
  | Some frames => set_mgmtData (Some (<[i := f]> frames)) p
  | None => p
  end.

(** ** The C [int] *)

Definition INT_MAX : Z := 2147483647.

Definition INT_MIN : Z := -2147483648.

(** The value of an arithmetic result as a 32-bit two's complement [int]. *)
Definition int_wrap (z : Z) : Z :=
  (z + 2147483648) mod 4294967296 - 2147483648.

(** ** The environment *)

(** What the pool sees of the C library.
    - [fopen_results]: the outcome of each coming call of [fopen], in order
      ([true]: the stream opens); once the list is used up every call
      succeeds.
    - [calloc_results]: the same for [calloc].
    - [fwrite_results]: the same for [fwrite] ([true]: the block is
      transferred, [false]: nothing is).
    - [disk]: the page files as the history of the blocks written to them,
      latest first: the file name, the position of the stream at the write
      and the block ([None] when the buffer handed to [fwrite] is [NULL],
      which no C library defines). The bytes of a file are what these
      writes leave, see [file_bytes]; a page file that has content before
      the pool is set up has it as the writes of an earlier time. *)
Record World : Type := mkWorld {
  fopen_results : list bool;
  calloc_results : list bool;
  fwrite_results : list bool;
  disk : list (string * Z * option (list byte))
}.

Definition fopen (w : World) : bool * World :=
  match fopen_results w with
  | [] => (true, w)
  | b :: rest => (b, mkWorld rest (calloc_results w) (fwrite_results w) (disk w))
  end.

Definition calloc (w : World) : bool * World :=
  match calloc_results w with
  | [] => (true, w)
  | b :: rest => (b, mkWorld (fopen_results w) rest (fwrite_results w) (disk w))
  end.

(** The position of a stream just opened after
    [fseek (f, offset, SEEK_SET)]: a negative offset is refused and the
    stream stays at the start of the file. *)
Definition seek (offset : Z) : Z := if offset <? 0 then 0 else offset.

(** The block that [fwrite (buf, size, 1, f)] takes from a buffer. *)
Definition block_of (size : Z) (buf : option (list byte)) : option (list byte) :=
  take (Z.to_nat size) <$> buf.

(** [fseek (f, offset, SEEK_SET); fwrite (buf, size, 1, f)] on a stream just
    opened on file [name]. *)
Definition fwrite (name : string) (offset size : Z) (buf : option (list byte))
    (w : World) : World :=
  let entry := (name, seek offset, block_of size buf) in
  match fwrite_results w with
  | [] => mkWorld (fopen_results w) (calloc_results w) [] (entry :: disk w)
  | b :: rest =>
      mkWorld (fopen_results w) (calloc_results w) rest
        (if b then entry :: disk w else disk w)
  end.

(** A file with [block] written at position [pos]: a gap between the end of
    the file and the position reads as zeros. *)
Definition write_at (pos : nat) (block content : list byte) : list byte :=
  take pos content ++ replicate (pos - length content) "000"%byte
    ++ block ++ drop (pos + length block) content.

(** The bytes of file [name] after the writes of [log], latest first. *)
Fixpoint file_bytes (name : string)
    (log : list (string * Z * option (list byte))) : list byte :=
  match log with
  | [] => []
  | (n, pos, buf) :: older =>
      match buf with
      | Some block =>
          if decide (n = name)
          then write_at (Z.to_nat pos) block (file_bytes name older)
          else file_bytes name older
      | None => file_bytes name older
      end
  end.

(** [fseek (f, offset, SEEK_SET); fread (buf, 1, size, f)] on a stream just
    opened on file [name]: the bytes that the file has from the position on,
    at most [size] of them, go to the front of the buffer; the rest of the
    buffer keeps its bytes. *)
Definition fread (name : string) (offset size : Z) (buf : list byte)
    (w : World) : list byte :=
  let got :=
    take (Z.to_nat size)
      (drop (Z.to_nat (seek offset)) (file_bytes name (disk w))) in
  got ++ drop (length got) buf.

Section BufferManager.

(** The two constants of the missing headers: the page size of [dberror.h],
    an [int] constant, and the page number of an empty frame of
    [buffer_mgr.h]. *)
Variable PAGE_SIZE : Z.
Variable NO_PAGE : Z.

(** ** initBufferPool *)

Definition empty_frame : BM_PageHandle :=
  {| pageNum := NO_PAGE; data := None; dirty := false;
     fixCounts := 0; strategyAttribute := None |}.

Definition initBufferPool (w : World) (pool : BM_BufferPool)
    (fileName : string) (numFrames : Z) (strat : ReplacementStrategy)
    : RC * World * BM_BufferPool :=
  let '(opened, w1) := fopen w in
  if opened then
    let '(allocated, w2) := calloc w1 in
    let fresh m :=
      {| pageFile := fileName; numPages := numFrames; strategy := strat;
         mgmtData := m; numberReadIO := 0; numberWriteIO := 0;
         buffertimer := 0 |} in
    if allocated
    then (RC_OK, w2, fresh (Some (replicate (Z.to_nat numFrames) empty_frame)))
    else (RC_MEMORY_ALLOCATION_ERROR, w2, fresh None)
  else (RC_FILE_NOT_FOUND, w1, pool).

(** ** forcePage *)

Definition forcePage (w : World) (pool : BM_BufferPool) (page : BM_PageHandle)
    : RC * World * BM_BufferPool :=
  match mgmtData pool with
  | None => (RC_POOL_NOT_INIT, w, pool)
  | Some frames =>
      match list_find (λ f, pageNum f = pageNum page) frames with
      | Some (counter, f) =>
          let '(opened, w1) := fopen w in
          if opened then
            (RC_OK,
             fwrite (pageFile pool) (int_wrap (pageNum page * PAGE_SIZE))
               PAGE_SIZE (data f) w1,
             set_mgmtData (Some (<[counter := set_dirty false f]> frames))
               (set_numberWriteIO (numberWriteIO pool + 1) pool))
          else (RC_FILE_NOT_FOUND, w1, pool)
      | None => (RC_PAGE_NOT_FOUND, w, pool)
      end
  end.

(** ** forceFlushPool *)

(** The loop of [forceFlushPool], [n] frames left from index [counter] on.
    Each round reads frame [counter] of the pool as it is then. *)
Fixpoint forceFlushPool_loop (n : nat) (counter : nat) (w : World)
    (pool : BM_BufferPool) : RC * World * BM_BufferPool :=
  match n with
  | O => (RC_OK, w, pool)
  | S n' =>
      match frame_at pool counter with
      | None => (RC_OK, w, pool)
      | Some f =>
          if dirty f && (fixCounts f =? 0) then
            let '(ret, w1, pool1) := forcePage w pool f in
            if decide (ret = RC_OK) then
              forceFlushPool_loop n' (S counter) w1
                match frame_at pool1 counter with
                | Some f1 => set_frame counter (set_dirty false f1) pool1
                | None => pool1
                end
            else (ret, w1, pool1)
          else forceFlushPool_loop n' (S counter) w pool
      end
  end.

Definition forceFlushPool (w : World) (pool : BM_BufferPool)
    : RC * World * BM_BufferPool :=
  match mgmtData pool with
  | None => (RC_POOL_NOT_INIT, w, pool)
  | Some frames => forceFlushPool_loop (length frames) 0 w pool
  end.

(** ** shutdownBufferPool *)

(** [freePagesForBuffer] and [free] release the frames: the pool is left
    with [mgmtData = NULL]. *)
Definition shutdownBufferPool (w : World) (pool : BM_BufferPool)
    : RC * World * BM_BufferPool :=
  match mgmtData pool with
  | None => (RC_POOL_NOT_INIT, w, pool)
  | Some frames =>
      match list_find (λ f, fixCounts f ≠ 0) frames with
      | Some _ => (RC_SHUTDOWN_POOL_FAILED, w, pool)
      | None =>
          let '(retVal, w1, pool1) := forceFlushPool w pool in
          if decide (retVal = RC_OK)
          then (RC_OK, w1, set_mgmtData None pool1)
          else (retVal, w1, pool1)
      end
  end.

(** ** markDirty and unpinPage *)

Definition markDirty (pool : BM_BufferPool) (page : BM_PageHandle)
    : RC * BM_BufferPool :=
  match mgmtData pool with
  | None => (RC_POOL_NOT_INIT, pool)
  | Some frames =>
      match list_find (λ f, pageNum f = pageNum page) frames with
      | Some (counter, f) =>
          (RC_OK, set_mgmtData (Some (<[counter := set_dirty true f]> frames)) pool)
      | None => (RC_PAGE_NOT_FOUND, pool)
      end
  end.

Definition unpinPage (pool : BM_BufferPool) (page : BM_PageHandle)
    : RC * BM_BufferPool :=
  match mgmtData pool with
  | None => (RC_POOL_NOT_INIT, pool)
  | Some frames =>
      match list_find (λ f, pageNum f = pageNum page) frames with
      | Some (counter, f) =>
          if 0 <? fixCounts f then
            (RC_OK,
             set_mgmtData
               (Some (<[counter := set_fixCounts (fixCounts f - 1) f]> frames)) pool)
          else (RC_PAGE_NOT_PINNED, pool)
      | None => (RC_PAGE_NOT_FOUND, pool)
      end
  end.

(** ** updateBfrAtrbt *)

(** The handle argument of the source points at a frame of the pool: the
    function takes that frame and returns it updated, for the caller to
    store back; of the pool itself it changes the clock only. *)
Definition updateBfrAtrbt (w : World) (pool : BM_BufferPool)
    (pageHandle : BM_PageHandle) : RC * World * BM_BufferPool * BM_PageHandle :=
  let stamp w' :=
    (RC_OK, w', set_buffertimer (int_wrap (buffertimer pool + 1)) pool,
     set_strategyAttribute (Some (buffertimer pool)) pageHandle) in
  match strategyAttribute pageHandle with
  | Some _ => stamp w
  | None =>
      let '(allocated, w1) := calloc w in
      if allocated then stamp w1
      else (RC_MEMORY_ALLOCATION_ERROR, w1, pool, pageHandle)
  end.

(** ** strategyForFIFOandLRU *)

(** The selection loop: [counter] is the index of the head of [frames],
    [minValue] the running minimum, [victimIndex] the candidate so far. *)
Fixpoint victim_scan (frames : list BM_PageHandle)
    (counter minValue victimIndex : Z) : Z :=
  match frames with
  | [] => victimIndex
  | f :: rest =>
      if negb (fixCounts f =? 0) then
        victim_scan rest (counter + 1) minValue victimIndex
      else
        match strategyAttribute f with
        | None => counter
        | Some currentAttr =>
            if currentAttr <=? minValue
            then victim_scan rest (counter + 1) currentAttr counter
            else victim_scan rest (counter + 1) minValue victimIndex
        end
  end.

(** The second loop: every attribute that is set becomes zero. *)
Definition reset_attribute (f : BM_PageHandle) : BM_PageHandle :=
  match strategyAttribute f with
  | Some _ => set_strategyAttribute (Some 0) f
  | None => f
  end.

Definition normalize (pool : BM_BufferPool) : BM_BufferPool :=
  if 32000 <? buffertimer pool then
    set_buffertimer 0
      match mgmtData pool with
      | Some frames => set_mgmtData (Some (map reset_attribute frames)) pool
      | None => pool
      end
  else pool.

(** The source does not test [mgmtData] here; [pinPage], its one caller,
    has done so. *)
Definition strategyForFIFOandLRU (pool : BM_BufferPool) : Z * BM_BufferPool :=
  (victim_scan (default [] (mgmtData pool)) 0 (buffertimer pool) (-1),
   normalize pool).

(** ** pinPage *)

Definition recency_based (s : ReplacementStrategy) : bool :=
  match s with
  | RS_LRU | RS_LRU_K => true
  | RS_FIFO => false
  end.

(** Lines 263 to 287 of the source: load page [pNum] into frame
    [frameIndex]. *)
Definition load_page (w : World) (pool : BM_BufferPool) (frameIndex : nat)
    (page : BM_PageHandle) (pNum : Z)
    : RC * World * BM_BufferPool * BM_PageHandle :=
  match frame_at pool frameIndex with
  | None => (RC_NO_AVAILABLE_FRAME, w, pool, page)
  | Some f0 =>
      let read_into (w0 : World) (pool0 : BM_BufferPool) (f : BM_PageHandle)
          (buf : list byte) :=
        let '(opened, w1) := fopen w0 in
        if opened then
          let buf' :=
            fread (pageFile pool0) (int_wrap (pNum * PAGE_SIZE)) PAGE_SIZE
              buf w1 in
          let pool1 := set_numberReadIO (numberReadIO pool0 + 1) pool0 in
          let f1 :=
            set_dirty false
              (set_fixCounts 1 (set_pageNum pNum (set_data (Some buf') f))) in
          let '(_, w2, pool2, f2) := updateBfrAtrbt w1 pool1 f1 in
          (RC_OK, w2, set_frame frameIndex f2 pool2, f2)
        else (RC_FILE_NOT_FOUND, w1, pool0, page) in
      match data f0 with
      | Some buf => read_into w pool f0 buf
      | None =>
          let '(allocated, w0) := calloc w in
          if allocated then
            let buf := replicate (Z.to_nat PAGE_SIZE) "000"%byte in
            let f := set_data (Some buf) f0 in
            read_into w0 (set_frame frameIndex f pool) f buf
          else (RC_MEMORY_ALLOCATION_ERROR, w0, pool, page)
      end
  end.

Definition pinPage (w : World) (pool : BM_BufferPool) (page : BM_PageHandle)
    (pNum : Z) : RC * World * BM_BufferPool * BM_PageHandle :=
  match mgmtData pool with
  | None => (RC_POOL_NOT_INIT, w, pool, page)
  | Some frames =>
      if pNum <? 0 then (RC_NEGATIVE_PAGE_NUM, w, pool, page)
      else
        match list_find (λ f, pageNum f = pNum) frames with
        | Some (counter, f) =>
            let '(w1, pool1, f1) :=
              if recency_based (strategy pool) then
                let '(_, w', pool', f') := updateBfrAtrbt w pool f in
                (w', pool', f')
              else (w, pool, f) in
            let f2 := set_fixCounts (fixCounts f1 + 1) f1 in
            (RC_OK, w1,
             set_mgmtData (Some (<[counter := f2]> frames)) pool1, f2)
        | None =>
            match list_find (λ f, pageNum f = NO_PAGE) frames with
            | Some (frameIndex, _) => load_page w pool frameIndex page pNum
            | None =>
                let '(victimIndex, pool1) := strategyForFIFOandLRU pool in
                if victimIndex =? -1 then (RC_NO_AVAILABLE_FRAME, w, pool1, page)
                else
                  let frameIndex := Z.to_nat victimIndex in
                  match frame_at pool1 frameIndex with
                  | Some tempHandle =>
                      if dirty tempHandle then
                        let '(retVal, w1, pool2) := forcePage w pool1 tempHandle in
                        if decide (retVal = RC_OK)
                        then load_page w1 pool2 frameIndex page pNum
                        else (retVal, w1, pool2, page)
                      else load_page w pool1 frameIndex page pNum
                  | None => load_page w pool1 frameIndex page pNum
                  end
            end
        end
  end.

(** ** Statistics interface *)

(** The getters fill an array they obtain from [malloc] without a test of
    the pointer: they are modelled for a [malloc] that succeeds. [None] is
    the [NULL] they return for a pool without frames; [getNumReadIO] and
    [getNumWriteIO] have no such test. *)
Definition getFrameContents (pool : BM_BufferPool) : option (list Z) :=
  match mgmtData pool with
  | None => None
  | Some frames =>
      Some (map (λ f, match data f with
                      | Some _ => pageNum f
                      | None => NO_PAGE
                      end) frames)
  end.

Definition getDirtyFlags (pool : BM_BufferPool) : option (list bool) :=
  match mgmtData pool with
  | None => None
  | Some frames => Some (map dirty frames)
  end.

Definition getFixCounts (pool : BM_BufferPool) : option (list Z) :=
  match mgmtData pool with
  | None => None
  | Some frames => Some (map fixCounts frames)
  end.

Definition getNumReadIO (pool : BM_BufferPool) : Z := numberReadIO pool.

Definition getNumWriteIO (pool : BM_BufferPool) : Z := numberWriteIO pool.

Definition getAttributionArray (pool : BM_BufferPool) : option (list Z) :=
  match mgmtData pool with
  | None => None
  | Some frames =>
      Some (map (λ f, match strategyAttribute f with
                      | Some a => a
                      | None => 0
                      end) frames)
  end.

(** ** The public operations as requests, and the reachable states *)

Inductive request : Type :=
  | ReqInit (fileName : string) (numFrames : Z) (strat : ReplacementStrategy)
  | ReqShutdown
  | ReqFlushAll
  | ReqMarkDirty (page : BM_PageHandle)
  | ReqUnpin (page : BM_PageHandle)
  | ReqForcePage (page : BM_PageHandle)
  | ReqPin (page : BM_PageHandle) (pNum : Z).

Definition perform (r : request) (w : World) (pool : BM_BufferPool)
    : RC * World * BM_BufferPool :=
  match r with
  | ReqInit fileName numFrames strat =>
      initBufferPool w pool fileName numFrames strat
  | ReqShutdown => shutdownBufferPool w pool
  | ReqFlushAll => forceFlushPool w pool
  | ReqMarkDirty page => let '(rc, pool') := markDirty pool page in (rc, w, pool')
  | ReqUnpin page => let '(rc, pool') := unpinPage pool page in (rc, w, pool')
  | ReqForcePage page => forcePage w pool page
  | ReqPin page pNum =>
      let '(rc, w', pool', _) := pinPage w pool page pNum in (rc, w', pool')
  end.

(** A run of requests, each on the state the previous one left. *)
Fixpoint run (rs : list request) (w : World) (pool : BM_BufferPool)
    : World * BM_BufferPool :=
  match rs with
  | [] => (w, pool)
  | r :: rs' => let '(_, w', pool') := perform r w pool in run rs' w' pool'
  end.

(** The states of a pool's life: it starts without frames (never
    initialized) in any environment, and each request moves it on. *)
Inductive reachable : World → BM_BufferPool → Prop :=
  | reachable_start w pool :
      mgmtData pool = None → reachable w pool
  | reachable_step r w pool rc w' pool' :
      reachable w pool →
      perform r w pool = (rc, w', pool') →
      reachable w' pool'.

(** ** Predicates of the properties *)

(** A frame nobody holds and whose attribute was never set. *)
Definition untouched (f : BM_PageHandle) : Prop :=
  fixCounts f = 0 ∧ strategyAttribute f = None.

#[global] Instance untouched_dec f : Decision (untouched f).
Proof. unfold untouched. apply _. Defined.

(** No page number other than [NO_PAGE] is held by two frames. *)
Definition residency_unique (frames : list BM_PageHandle) : Prop :=
  ∀ i j fi fj,
    frames !! i = Some fi → frames !! j = Some fj →
    pageNum fi = pageNum fj → pageNum fi ≠ NO_PAGE → i = j.

(** Every attribute that is set is at most the clock. *)
Definition clock_dominates (clock : Z) (frames : list BM_PageHandle) : Prop :=
  ∀ f a, f ∈ frames → strategyAttribute f = Some a → a ≤ clock.

(** An empty frame has no holder. *)
Definition empty_unpinned (frames : list BM_PageHandle) : Prop :=
  ∀ f, f ∈ frames → pageNum f = NO_PAGE → fixCounts f = 0.

(** An empty frame that is dirty is the first empty frame. *)
Definition dirty_empty_first (frames : list BM_PageHandle) : Prop :=
  ∀ i j fi fj,
    frames !! i = Some fi → frames !! j = Some fj →
    pageNum fi = NO_PAGE → dirty fi = true → pageNum fj = NO_PAGE →
    (i ≤ j)%nat.

Record frames_inv (frames : list BM_PageHandle) : Prop := {
  inv_unique : residency_unique frames;
  inv_empty : empty_unpinned frames;
  inv_dirty : dirty_empty_first frames
}.

Definition pool_inv (pool : BM_BufferPool) : Prop :=
  ∀ frames, mgmtData pool = Some frames → frames_inv frames.

(** The page numbers of the frames, in index order. *)
Definition page_numbers (pool : BM_BufferPool) : option (list Z) :=
  map pageNum <$> mgmtData pool.

(** No frame holds page [pNum]. *)
Definition not_resident (pool : BM_BufferPool) (pNum : Z) : Prop :=
  ∀ l, page_numbers pool = Some l → pNum ∉ l.

(** The frames that [forceFlushPool] is to write. *)
Definition flushable (f : BM_PageHandle) : bool :=
  dirty f && (fixCounts f =? 0).

Definition clean (f : BM_PageHandle) : BM_PageHandle :=
  if flushable f then set_dirty false f else f.

(** The offset of page [n] is in the range where the [int] product of the
    source is the product and [fseek] accepts it. *)
Definition offset_in_range (n : Z) : Prop :=
  0 ≤ n ∧ 0 ≤ n * PAGE_SIZE ≤ INT_MAX.

(** What the write of a frame adds to the history of the page file: the
    block goes where the seek to [int_wrap (pageNum * PAGE_SIZE)] leaves the
    stream. *)
Definition flushed_page (name : string) (f : BM_PageHandle)
    : string * Z * option (list byte) :=
  (name, seek (int_wrap (pageNum f * PAGE_SIZE)), block_of PAGE_SIZE (data f)).

(** Of the writes [entries], in the order they are made, those that reach
    the file when the coming calls of [fwrite] have the outcomes
    [results]. *)
Fixpoint landed {A : Type} (results : list bool) (entries : list A)
    {struct entries} : list A :=
  match entries with
  | [] => []
  | e :: es =>
      match results with
      | [] => e :: es
      | b :: bs => if b then e :: landed bs es else landed bs es
      end
  end.

(** The flush frame by frame: a frame that is dirty and not pinned is
    written from its own fields, the write counter goes up by one and the
    frame becomes clean; a file that does not open ends the flush. [writes]
    is the write counter. To be compared with [forceFlushPool], which has
    [forcePage] look the frame up again by its page number. *)
Fixpoint flush_frames (name : string) (frames : list BM_PageHandle)
    (w : World) (writes : Z) : RC * World * Z * list BM_PageHandle :=
  match frames with
  | [] => (RC_OK, w, writes, [])
  | f :: rest =>
      if flushable f then
        let '(opened, w1) := fopen w in
        if opened then
          let '(rc, w2, n, rest') :=
            flush_frames name rest
              (fwrite name (int_wrap (pageNum f * PAGE_SIZE)) PAGE_SIZE
                 (data f) w1)
              (writes + 1) in
          (rc, w2, n, set_dirty false f :: rest')
        else (RC_FILE_NOT_FOUND, w1, writes, f :: rest)
      else
        let '(rc, w2, n, rest') := flush_frames name rest w writes in
        (rc, w2, n, f :: rest')
  end.

(** A frame as the operations leave it: the pin count is not negative and a
    frame without content is empty. *)
Definition frame_sound (f : BM_PageHandle) : Prop :=
  0 ≤ fixCounts f ∧ (data f = None → pageNum f = NO_PAGE).

Definition sound_parts (capacity reads writes : Z)
    (frames : list BM_PageHandle) : Prop :=
  0 ≤ reads ∧ 0 ≤ writes
  ∧ length frames = Z.to_nat capacity
  ∧ Forall frame_sound frames.

Definition pool_sound (pool : BM_BufferPool) : Prop :=
  ∀ frames, mgmtData pool = Some frames →
    sound_parts (numPages pool) (numberReadIO pool) (numberWriteIO pool) frames.

(** A frame within the first [n] requests of a pool's life: at most [n]
    pins are held, and an attribute is a clock value of the past. *)
Definition frame_timed (n clock : Z) (f : BM_PageHandle) : Prop :=
  fixCounts f ≤ n ∧ ∀ a, strategyAttribute f = Some a → 0 ≤ a ≤ clock.

(** The clock and the read counter have counted at most [n] events. *)
Definition pool_timed (n : Z) (pool : BM_BufferPool) : Prop :=
  ∀ frames, mgmtData pool = Some frames →
    0 ≤ buffertimer pool ≤ n ∧ numberReadIO pool ≤ n
    ∧ Forall (frame_timed n (buffertimer pool)) frames.

(** The buffer of a frame has the size of a page. *)
Definition frame_sized (f : BM_PageHandle) : Prop :=
  ∀ buf, data f = Some buf → length buf = Z.to_nat PAGE_SIZE.

Definition pool_sized (pool : BM_BufferPool) : Prop :=
  ∀ frames, mgmtData pool = Some frames → Forall frame_sized frames.

(** Frame [f'] is frame [f] with the same page, content and holders. *)
Definition same_frame (f f' : BM_PageHandle) : Prop :=
  pageNum f' = pageNum f ∧ data f' = data f ∧ fixCounts f' = fixCounts f.

(** Every frame of [pool] is still there in [pool'], at its index. *)
Definition frames_kept (pool pool' : BM_BufferPool) : Prop :=
  ∀ j f, frame_at pool j = Some f →
    ∃ f', frame_at pool' j = Some f' ∧ same_frame f f'.

(** The configuration is the same and the counters have not gone down. *)
Definition grows (pool pool' : BM_BufferPool) : Prop :=
  pageFile pool' = pageFile pool ∧ numPages pool' = numPages pool
  ∧ strategy pool' = strategy pool
  ∧ numberReadIO pool ≤ numberReadIO pool'
  ∧ numberWriteIO pool ≤ numberWriteIO pool'.


(** The requests that work on a pool, all but [initBufferPool]. *)
Definition uses_pool (r : request) : bool :=
  match r with
  | ReqInit _ _ _ => false
  | _ => true
  end.

(** ** The claims that the code does not meet, as they are stated *)

(** C1 as stated: among the unpinned frames with an attribute, the victim is
    the frame of smallest attribute and, among equals, of LOWEST index. *)
Definition lowest_index_tie_break (pool : BM_BufferPool) : Prop :=
  ∀ frames i f a,
    mgmtData pool = Some frames → list_find untouched frames = None →
    frames !! i = Some f → fixCounts f = 0 → strategyAttribute f = Some a →
    (∀ j g b, frames !! j = Some g → fixCounts g = 0 →
       strategyAttribute g = Some b → a ≤ b ∧ (b = a → (i ≤ j)%nat)) →
    (strategyForFIFOandLRU pool).1 = Z.of_nat i.

(** C3 as stated: with every frame pinned, the pin of a page that is not
    resident fails and leaves the whole state as it was. *)
Definition full_pin_leaves_state (w : World) (pool : BM_BufferPool) : Prop :=
  ∀ frames page pNum,
    mgmtData pool = Some frames → Forall (λ f, 0 < fixCounts f) frames →
    0 ≤ pNum → not_resident pool pNum →
    pinPage w pool page pNum = (RC_NO_AVAILABLE_FRAME, w, pool, page).

(** C4 as stated: a pin that fails after the choice of victim [i] leaves
    frame [i] empty. *)
Definition failed_load_empties_victim (w : World) (pool : BM_BufferPool)
    (page : BM_PageHandle) (pNum : Z) : Prop :=
  ∀ frames i rc w' pool' page',
    mgmtData pool = Some frames →
    list_find (λ f, pageNum f = pNum) frames = None →
    list_find (λ f, pageNum f = NO_PAGE) frames = None →
    (strategyForFIFOandLRU pool).1 = Z.of_nat i →
    pinPage w pool page pNum = (rc, w', pool', page') → rc ≠ RC_OK →
    ∃ f', frame_at pool' i = Some f' ∧ pageNum f' = NO_PAGE.




(** ** Sample data *)

(** A handle as a caller passes it: only its page number is read. *)
Definition handle_of (n : Z) : BM_PageHandle :=
  {| pageNum := n; data := None; dirty := false;
     fixCounts := 0; strategyAttribute := None |}.

(** An environment in which every call succeeds, with an empty page file. *)
Definition quiet_world : World := mkWorld [] [] [] [].

(** A pool that was never initialized. *)
Definition unborn_pool : BM_BufferPool :=
  {| pageFile := ""; numPages := 0; strategy := RS_FIFO; mgmtData := None;
     numberReadIO := 0; numberWriteIO := 0; buffertimer := 0 |}.

(** The scenario of C5 as stated: three pins fill a pool of three frames. *)
Definition fifo_fill_pinned : list request :=
  [ReqInit "pages.bin" 3 RS_FIFO;
   ReqPin (handle_of 0) 0; ReqPin (handle_of 0) 1; ReqPin (handle_of 0) 2].

(** The same with each page released after its pin. *)
Definition fifo_fill_released : list request :=
  [ReqInit "pages.bin" 3 RS_FIFO;
   ReqPin (handle_of 0) 0; ReqUnpin (handle_of 0);
   ReqPin (handle_of 0) 1; ReqUnpin (handle_of 1);
   ReqPin (handle_of 0) 2; ReqUnpin (handle_of 2)].

(** Two unpinned frames of equal attribute, as the reset of the clock
    leaves them. *)
Definition tie_pool : BM_BufferPool :=
  {| pageFile := "pages.bin"; numPages := 2; strategy := RS_LRU;
     mgmtData :=
       Some [mkPageHandle 0 (Some []) false 0 (Some 0);
             mkPageHandle 2 (Some []) false 0 (Some 0)];
     numberReadIO := 3; numberWriteIO := 0; buffertimer := 1 |}.

(** One frame under LRU, pinned over and over: the clock passes 32000. *)
Definition hot_requests : list request :=
  ReqInit "pages.bin" 1 RS_LRU
    :: replicate (Z.to_nat 32001) (ReqPin (handle_of 0) 0).

(** One frame that holds page 0, released; the next [fopen] fails. *)
Definition failing_world : World := mkWorld [false] [] [] [].

Definition single_pool : BM_BufferPool :=
  {| pageFile := "pages.bin"; numPages := 1; strategy := RS_FIFO;
     mgmtData := Some [mkPageHandle 0 (Some []) false 0 (Some 0)];
     numberReadIO := 1; numberWriteIO := 0; buffertimer := 1 |}.


(** Page 0 is dirty and released, page 1 is dirty and still pinned. *)
Definition two_dirty_requests : list request :=
  [ReqInit "pages.bin" 2 RS_LRU;
   ReqPin (handle_of 0) 0; ReqMarkDirty (handle_of 0); ReqUnpin (handle_of 0);
   ReqPin (handle_of 0) 1; ReqMarkDirty (handle_of 1)].


(** Two frames, both released, page 0 dirty. *)
Definition released_dirty_requests : list request :=
  [ReqInit "pages.bin" 2 RS_LRU;
   ReqPin (handle_of 0) 0; ReqMarkDirty (handle_of 0); ReqUnpin (handle_of 0);
   ReqPin (handle_of 0) 1; ReqUnpin (handle_of 1)].






(** One frame under LRU: page 0 is pinned once. *)
Definition first_pin_requests : list request :=
  [ReqInit "pages.bin" 1 RS_LRU; ReqPin (handle_of 0) 0].

(** The release of page 0 and its next pin. *)
Definition repin : list request :=
  [ReqUnpin (handle_of 0); ReqPin (handle_of 0) 0].

(** One frame under LRU: page 0 is pinned, then released and pinned again
    [n] times, and released. No request calls the victim selector. *)
Definition repin_requests (n : nat) : list request :=
  first_pin_requests ++ concat (replicate n repin) ++ [ReqUnpin (handle_of 0)].

(** The one frame of these runs, its page 0 read from an empty file, and
    the pool around it. *)
Definition hot_frame (size holders attribute : Z) : BM_PageHandle :=
  mkPageHandle 0 (Some (replicate (Z.to_nat size) "000"%byte)) false
    holders (Some attribute).

Definition hot_pool (size holders attribute clock : Z) : BM_BufferPool :=
  {| pageFile := "pages.bin"; numPages := 1; strategy := RS_LRU;
     mgmtData := Some [hot_frame size holders attribute];
     numberReadIO := 1; numberWriteIO := 0; buffertimer := clock |}.

(** C5 as stated: after [fifo_fill_pinned] the pin of page 3 puts page 3
    where page 0 was and brings the read counter to 4. *)
Definition fifo_scenario_as_stated : Prop :=
  let '(w, pool) := run fifo_fill_pinned quiet_world unborn_pool in
  let '(_, _, pool', _) := pinPage w pool (handle_of 0) 3 in
  page_numbers pool' = Some [3; 1; 2] ∧ numberReadIO pool' = 4.

(** * Properties *)

(** ** The victim selector *)

Lemma victim_scan_untouched frames c m v i f :
  list_find untouched frames = Some (i, f) →
  victim_scan frames c m v = c + Z.of_nat i.
Proof.
  revert c m v i. induction frames as [|g rest IH]; intros c m v i Hfind.
  - discriminate.
  - cbn in Hfind. cbn [victim_scan].
    destruct (decide (untouched g)) as [[Hfix Hattr]|Hn].
    + simplify_eq. rewrite Hfix, Hattr. simpl. lia.
    + destruct (list_find untouched rest) as [[i' f']|] eqn:E; simplify_eq/=.
      assert (Hi : ∀ m' v', victim_scan rest (c + 1) m' v' = c + Z.of_nat (S i')).
      { intros. rewrite (IH _ _ _ _ eq_refl). lia. }
      destruct (fixCounts g =? 0) eqn:Efix; simpl; [|apply Hi].
      destruct (strategyAttribute g) as [a|] eqn:Ea.
      * destruct (a <=? m); apply Hi.
      * exfalso. apply Hn. split; [lia|done].
Qed.

(** Without an untouched frame the scan either keeps its candidate, every
    unpinned attribute being above the running minimum, or ends on the last
    frame that carries the least unpinned attribute. *)
Lemma victim_scan_minimum frames c m v :
  list_find untouched frames = None →
  (victim_scan frames c m v = v ∧
   ∀ g b, g ∈ frames → fixCounts g = 0 → strategyAttribute g = Some b → m < b)
  ∨ (∃ i f a, victim_scan frames c m v = c + Z.of_nat i ∧
       frames !! i = Some f ∧ fixCounts f = 0 ∧ strategyAttribute f = Some a ∧
       a ≤ m ∧
       ∀ j g b, frames !! j = Some g → fixCounts g = 0 →
         strategyAttribute g = Some b → a ≤ b ∧ (b = a → (j ≤ i)%nat)).
Proof.
  revert c m v. induction frames as [|g rest IH]; intros c m v Hnone.
  - left. split; [done|]. intros g b Hg. by apply elem_of_nil in Hg.
  - cbn in Hnone. destruct (decide (untouched g)) as [|Hn]; [done|].
    destruct (list_find untouched rest) as [[? ?]|] eqn:E; [done|]. clear Hnone.
    cbn [victim_scan].
    destruct (fixCounts g =? 0) eqn:Efix; simpl.
    + apply Z.eqb_eq in Efix.
      destruct (strategyAttribute g) as [a0|] eqn:Ea; [|exfalso; by apply Hn].
      destruct (a0 <=? m) eqn:Hle.
      * apply Z.leb_le in Hle. right.
        destruct (IH (c + 1) a0 c eq_refl)
          as [[Hv Hall]|(i & f & a & Hv & Hi & Hf & Ha & Hle' & Hmin)].
        -- exists 0%nat, g, a0. rewrite Hv. split_and!; [lia|done..|].
           intros [|j] g' b Hj Hfix' Hattr'; simplify_eq/=; [split; [lia|done]|].
           apply list_elem_of_lookup_2 in Hj.
           specialize (Hall _ _ Hj Hfix' Hattr'). lia.
        -- exists (S i), f, a. rewrite Hv. split_and!; [lia|done..|lia|].
           intros [|j] g' b Hj Hfix' Hattr'; simplify_eq/=; [lia|].
           specialize (Hmin _ _ _ Hj Hfix' Hattr'). lia.
      * apply Z.leb_gt in Hle.
        destruct (IH (c + 1) m v eq_refl)
          as [[Hv Hall]|(i & f & a & Hv & Hi & Hf & Ha & Hle' & Hmin)].
        -- left. split; [done|].
           intros g' b [->|Hin]%elem_of_cons Hfix' Hattr'; simplify_eq; [lia|eauto].
        -- right. exists (S i), f, a. rewrite Hv. split_and!; [lia|done..|].
           intros [|j] g' b Hj Hfix' Hattr'; simplify_eq/=; [lia|].
           specialize (Hmin _ _ _ Hj Hfix' Hattr'). lia.
    + apply Z.eqb_neq in Efix.
      destruct (IH (c + 1) m v eq_refl)
        as [[Hv Hall]|(i & f & a & Hv & Hi & Hf & Ha & Hle' & Hmin)].
      * left. split; [done|].
        intros g' b [->|Hin]%elem_of_cons Hfix' Hattr'; simplify_eq; eauto.
      * right. exists (S i), f, a. rewrite Hv. split_and!; [lia|done..|].
        intros [|j] g' b Hj Hfix' Hattr'; simplify_eq/=.
        specialize (Hmin _ _ _ Hj Hfix' Hattr'). lia.
Qed.

(** C1 (as the code has it): the first frame, in index order, that has pin
    count zero and no replacement attribute is the victim at once. When there
    is no such frame, the victim is the frame of pin count zero with the
    smallest attribute, provided that attribute is not above the clock, and
    among frames of equal smallest attribute the one of HIGHEST index (the
    test against the running minimum is [<=], so a later equal frame
    replaces an earlier one); when every unpinned attribute is above the
    clock there is no victim (-1). *)
Theorem victim_selection (pool : BM_BufferPool) (frames : list BM_PageHandle) :
  mgmtData pool = Some frames →
  (∀ i f, list_find untouched frames = Some (i, f) →
     (strategyForFIFOandLRU pool).1 = Z.of_nat i)
  ∧ (list_find untouched frames = None →
     (∀ i f a,
        frames !! i = Some f → fixCounts f = 0 → strategyAttribute f = Some a →
        a ≤ buffertimer pool →
        (∀ j g b, frames !! j = Some g → fixCounts g = 0 →
           strategyAttribute g = Some b → a ≤ b ∧ (b = a → (j ≤ i)%nat)) →
        (strategyForFIFOandLRU pool).1 = Z.of_nat i)
     ∧ ((∀ g b, g ∈ frames → fixCounts g = 0 → strategyAttribute g = Some b →
           buffertimer pool < b) →
        (strategyForFIFOandLRU pool).1 = -1)).
Proof.
  intros Hframes. unfold strategyForFIFOandLRU. rewrite Hframes. simpl.
  split; [|intros Hnone; split].
  - intros i f Hfind. by rewrite (victim_scan_untouched _ _ _ _ _ _ Hfind).
  - intros i f a Hi Hfix Hattr Hle Hmin.
    destruct (victim_scan_minimum frames 0 (buffertimer pool) (-1) Hnone)
      as [[_ Hall]|(i' & f' & a' & -> & Hi' & Hfix' & Hattr' & _ & Hmin')].
    + apply list_elem_of_lookup_2 in Hi. specialize (Hall _ _ Hi Hfix Hattr). lia.
    + destruct (Hmin _ _ _ Hi' Hfix' Hattr') as [Haa' Hii'].
      destruct (Hmin' _ _ _ Hi Hfix Hattr) as [Ha'a Hi'i].
      assert (a = a') by lia. subst a'.
      specialize (Hii' eq_refl). specialize (Hi'i eq_refl). lia.
  - intros Hall.
    destruct (victim_scan_minimum frames 0 (buffertimer pool) (-1) Hnone)
      as [[-> _]|(i' & f' & a' & _ & Hi' & Hfix' & Hattr' & Hle & _)]; [done|].
    apply list_elem_of_lookup_2 in Hi'. specialize (Hall _ _ Hi' Hfix' Hattr'). lia.
Qed.

(** ** Frame updates and the invariant *)

Lemma frames_inv_insert frames i f g :
  frames_inv frames → frames !! i = Some f →
  (pageNum g = pageNum f ∨ Forall (λ h, pageNum h ≠ pageNum g) frames) →
  (pageNum g = NO_PAGE → fixCounts g = 0) →
  (pageNum g = NO_PAGE → dirty g = true →
     ∀ j fj, frames !! j = Some fj → pageNum fj = NO_PAGE → (i ≤ j)%nat) →
  frames_inv (<[i := g]> frames).
Proof.
  intros [Hu He Hd] Hi Hpage Hfix Hdirty.
  assert (Hfresh : ∀ j fj, frames !! j = Some fj → pageNum fj = pageNum g →
                     pageNum g = pageNum f).
  { intros j fj Hj Hjg. destruct Hpage as [|Hall]; [done|].
    rewrite Forall_lookup in Hall. by destruct (Hall _ _ Hj). }
  split.
  - intros a b fa fb Ha Hb Heq Hne.
    apply list_lookup_insert_Some in Ha, Hb.
    destruct Ha as [(-> & <- & _)|[Hia Ha]], Hb as [(-> & <- & _)|[Hib Hb]];
      [done| | |by eapply Hu].
    + assert (pageNum g = pageNum f) as Hgf by eauto.
      rewrite Hgf in Heq, Hne. by eapply Hu.
    + assert (pageNum g = pageNum f) as Hgf by eauto.
      rewrite Hgf in Heq. rewrite Heq in Hne. symmetry. eapply Hu; eauto.
  - intros h [k Hk]%list_elem_of_lookup Hh.
    apply list_lookup_insert_Some in Hk as [(_ & <- & _)|[_ Hk]]; [eauto|].
    eapply He; eauto using list_elem_of_lookup_2.
  - intros a b fa fb Ha Hb Hea Hda Heb.
    apply list_lookup_insert_Some in Ha, Hb.
    destruct Ha as [(-> & <- & _)|[Hia Ha]], Hb as [(-> & <- & _)|[Hib Hb]];
      [done|by eauto| |by eapply Hd].
    assert (pageNum g = pageNum f) as Hgf by (eapply Hfresh; eauto; congruence).
    eapply Hd; eauto. congruence.
Qed.

(** An update that keeps the page number, raises no pin count of an empty
    frame and sets no dirty flag. *)
Lemma frames_inv_touch frames i f g :
  frames_inv frames → frames !! i = Some f →
  pageNum g = pageNum f →
  (pageNum f = NO_PAGE → fixCounts g = 0) →
  (dirty g = true → dirty f = true) →
  frames_inv (<[i := g]> frames).
Proof.
  intros Hinv Hi Hp Hfix Hdirty.
  eapply frames_inv_insert; eauto.
  - intros Hg. apply Hfix. congruence.
  - intros Hg Hd j fj Hj Hempty.
    eapply (inv_dirty _ Hinv); eauto. congruence.
Qed.

Lemma map_pageNum_insert frames i f g :
  frames !! i = Some f → pageNum g = pageNum f →
  map pageNum (<[i := g]> frames) = map pageNum frames.
Proof.
  intros Hi Hp. rewrite list_fmap_insert, Hp.
  apply list_insert_id. by rewrite list_lookup_fmap, Hi.
Qed.

Lemma reset_attribute_pageNum f : pageNum (reset_attribute f) = pageNum f.
Proof. unfold reset_attribute. by destruct (strategyAttribute f). Qed.

Lemma reset_attribute_fixCounts f : fixCounts (reset_attribute f) = fixCounts f.
Proof. unfold reset_attribute. by destruct (strategyAttribute f). Qed.

Lemma reset_attribute_dirty f : dirty (reset_attribute f) = dirty f.
Proof. unfold reset_attribute. by destruct (strategyAttribute f). Qed.

Lemma reset_attribute_data f : data (reset_attribute f) = data f.
Proof. unfold reset_attribute. by destruct (strategyAttribute f). Qed.

Lemma reset_attribute_value f a :
  strategyAttribute (reset_attribute f) = Some a → a = 0.
Proof.
  unfold reset_attribute. destruct (strategyAttribute f) eqn:E; simpl; congruence.
Qed.

Lemma frames_inv_reset frames :
  frames_inv frames → frames_inv (map reset_attribute frames).
Proof.
  intros [Hu He Hd]. split.
  - intros i j fi fj Hi Hj.
    rewrite list_lookup_fmap in Hi, Hj.
    destruct (frames !! i) as [gi|] eqn:Ei, (frames !! j) as [gj|] eqn:Ej;
      simplify_eq/=.
    rewrite !reset_attribute_pageNum. by eapply Hu.
  - intros f (g & -> & Hg)%list_elem_of_fmap.
    rewrite reset_attribute_pageNum, reset_attribute_fixCounts. by apply He.
  - intros i j fi fj Hi Hj.
    rewrite list_lookup_fmap in Hi, Hj.
    destruct (frames !! i) as [gi|] eqn:Ei, (frames !! j) as [gj|] eqn:Ej;
      simplify_eq/=.
    rewrite !reset_attribute_pageNum, reset_attribute_dirty. by eapply Hd.
Qed.

Lemma normalize_inv pool : pool_inv pool → pool_inv (normalize pool).
Proof.
  intros Hinv. unfold normalize. destruct (32000 <? buffertimer pool); [|done].
  intros frames'. destruct (mgmtData pool) as [frames|] eqn:E; simpl.
  - intros [= <-]. eapply frames_inv_reset, Hinv, E.
  - by rewrite E.
Qed.

Lemma normalize_page_numbers pool :
  page_numbers (normalize pool) = page_numbers pool.
Proof.
  unfold normalize, page_numbers.
  destruct (32000 <? buffertimer pool); [|done].
  destruct (mgmtData pool) as [frames|] eqn:E; simpl; rewrite ?E; [|done].
  f_equal. rewrite map_map. apply map_ext. intros. apply reset_attribute_pageNum.
Qed.

(** ** Each operation keeps the invariant *)

Lemma forcePage_inv w pool page rc w' pool' :
  pool_inv pool → forcePage w pool page = (rc, w', pool') → pool_inv pool'.
Proof.
  intros Hinv. unfold forcePage.
  destruct (mgmtData pool) as [frames|] eqn:E; [|by intros [= <- <- <-]].
  destruct (list_find _ frames) as [[counter f]|] eqn:Efind;
    [|by intros [= <- <- <-]].
  destruct (fopen w) as [[] w1]; intros [= <- <- <-]; [|done].
  apply list_find_Some in Efind as (Hc & _ & _).
  intros frames' [= <-]. simpl.
  eapply (frames_inv_touch _ _ f); [by apply Hinv|done..|simpl|done].
  intros. eapply (inv_empty _ (Hinv _ E)); eauto using list_elem_of_lookup_2.
Qed.

Lemma forcePage_page_numbers w pool page rc w' pool' :
  forcePage w pool page = (rc, w', pool') →
  page_numbers pool' = page_numbers pool.
Proof.
  unfold forcePage.
  destruct (mgmtData pool) as [frames|] eqn:E; [|by intros [= <- <- <-]].
  destruct (list_find _ frames) as [[counter f]|] eqn:Efind;
    [|by intros [= <- <- <-]].
  destruct (fopen w) as [[] w1]; intros [= <- <- <-]; [|done].
  apply list_find_Some in Efind as (Hc & _ & _).
  unfold page_numbers. simpl. rewrite E. simpl. f_equal.
  by eapply map_pageNum_insert.
Qed.

Lemma markDirty_inv pool page rc pool' :
  pool_inv pool → markDirty pool page = (rc, pool') → pool_inv pool'.
Proof.
  intros Hinv. unfold markDirty.
  destruct (mgmtData pool) as [frames|] eqn:E; [|by intros [= <- <-]].
  destruct (list_find _ frames) as [[counter f]|] eqn:Efind;
    [|by intros [= <- <-]].
  intros [= <- <-].
  apply list_find_Some in Efind as (Hc & Hp & Hfirst).
  intros frames' [= <-]. simpl. specialize (Hinv _ E).
  eapply (frames_inv_insert _ _ f); [done|done|by left|simpl..].
  - intros. eapply (inv_empty _ Hinv); eauto using list_elem_of_lookup_2.
  - intros Hempty _ j fj Hj Hjempty.
    destruct (decide (counter ≤ j)%nat) as [|Hlt]; [done|].
    destruct (Hfirst j fj Hj); [lia|congruence].
Qed.

Lemma unpinPage_inv pool page rc pool' :
  pool_inv pool → unpinPage pool page = (rc, pool') → pool_inv pool'.
Proof.
  intros Hinv. unfold unpinPage.
  destruct (mgmtData pool) as [frames|] eqn:E; [|by intros [= <- <-]].
  destruct (list_find _ frames) as [[counter f]|] eqn:Efind;
    [|by intros [= <- <-]].
  destruct (0 <? fixCounts f) eqn:Hfix; intros [= <- <-]; [|done].
  apply Z.ltb_lt in Hfix.
  apply list_find_Some in Efind as (Hc & _ & _).
  intros frames' [= <-]. simpl. specialize (Hinv _ E).
  eapply (frames_inv_touch _ _ f); [done..|simpl|done].
  intros Hempty.
  assert (fixCounts f = 0); [|lia].
  eapply (inv_empty _ Hinv); eauto using list_elem_of_lookup_2.
Qed.

Lemma updateBfrAtrbt_cases w pool h rc w' pool' h' :
  updateBfrAtrbt w pool h = (rc, w', pool', h') →
  (rc = RC_OK ∧
   pool' = set_buffertimer (int_wrap (buffertimer pool + 1)) pool ∧
   h' = set_strategyAttribute (Some (buffertimer pool)) h ∧
   (strategyAttribute h = None → calloc w = (true, w')) ∧
   (strategyAttribute h ≠ None → w' = w))
  ∨ (rc = RC_MEMORY_ALLOCATION_ERROR ∧ pool' = pool ∧ h' = h ∧
     strategyAttribute h = None ∧ calloc w = (false, w')).
Proof.
  unfold updateBfrAtrbt. destruct (strategyAttribute h) as [a|] eqn:Ea.
  - intros [= <- <- <- <-]. left. by split_and!.
  - destruct (calloc w) as [[] w1]; intros [= <- <- <- <-].
    + left. by split_and!.
    + right. by split_and!.
Qed.

Lemma initBufferPool_inv w pool fileName numFrames strat rc w' pool' :
  pool_inv pool →
  initBufferPool w pool fileName numFrames strat = (rc, w', pool') →
  pool_inv pool'.
Proof.
  intros Hinv. unfold initBufferPool.
  destruct (fopen w) as [[] w1]; [|by intros [= <- <- <-]].
  destruct (calloc w1) as [[] w2]; intros [= <- <- <-];
    intros frames [= <-]; simpl.
  split.
  - intros i j fi fj [-> _]%lookup_replicate_1 _. by simpl.
  - intros f [-> _]%elem_of_replicate. by simpl.
  - intros i j fi fj [-> _]%lookup_replicate_1 _. by simpl.
Qed.

Lemma set_frame_clean_inv pool counter f1 :
  pool_inv pool → frame_at pool counter = Some f1 →
  pool_inv (set_frame counter (set_dirty false f1) pool).
Proof.
  intros Hinv. unfold frame_at, set_frame.
  destruct (mgmtData pool) as [frames|] eqn:E; [|done].
  intros Hc frames' [= <-]. simpl.
  eapply (frames_inv_touch _ _ f1); [by apply Hinv|done..|simpl|done].
  intros. eapply (inv_empty _ (Hinv _ E)); eauto using list_elem_of_lookup_2.
Qed.

Lemma forceFlushPool_loop_inv n counter w pool rc w' pool' :
  pool_inv pool →
  forceFlushPool_loop n counter w pool = (rc, w', pool') → pool_inv pool'.
Proof.
  revert counter w pool. induction n as [|n IH]; intros counter w pool Hinv; simpl.
  - by intros [= <- <- <-].
  - destruct (frame_at pool counter) as [f|] eqn:Ef; [|by intros [= <- <- <-]].
    destruct (dirty f && (fixCounts f =? 0)); [|by apply IH].
    destruct (forcePage w pool f) as [[ret w1] pool1] eqn:Eforce.
    apply forcePage_inv in Eforce; [|done].
    destruct (decide (ret = RC_OK)); [|by intros [= <- <- <-]].
    apply IH. destruct (frame_at pool1 counter) eqn:Ef1; [|done].
    by apply set_frame_clean_inv.
Qed.

Lemma forceFlushPool_inv w pool rc w' pool' :
  pool_inv pool → forceFlushPool w pool = (rc, w', pool') → pool_inv pool'.
Proof.
  intros Hinv. unfold forceFlushPool.
  destruct (mgmtData pool); [|by intros [= <- <- <-]].
  by apply forceFlushPool_loop_inv.
Qed.

Lemma shutdownBufferPool_inv w pool rc w' pool' :
  pool_inv pool → shutdownBufferPool w pool = (rc, w', pool') → pool_inv pool'.
Proof.
  intros Hinv. unfold shutdownBufferPool.
  destruct (mgmtData pool); [|by intros [= <- <- <-]].
  destruct (list_find _ _); [by intros [= <- <- <-]|].
  destruct (forceFlushPool w pool) as [[ret w1] pool1] eqn:Eflush.
  apply forceFlushPool_inv in Eflush; [|done].
  destruct (decide (ret = RC_OK)); intros [= <- <- <-]; [|done].
  by intros frames.
Qed.

Lemma not_resident_Forall pool pNum frames :
  not_resident pool pNum → mgmtData pool = Some frames →
  Forall (λ h, pageNum h ≠ pNum) frames.
Proof.
  intros Hnot E. apply Forall_forall. intros h Hh Heq.
  apply (Hnot (map pageNum frames)).
  - unfold page_numbers. by rewrite E.
  - rewrite <- Heq. by apply list_elem_of_fmap_2.
Qed.

Lemma list_find_None_not_resident pool pNum frames :
  mgmtData pool = Some frames →
  list_find (λ f, pageNum f = pNum) frames = None →
  not_resident pool pNum.
Proof.
  intros E Hfind l. unfold page_numbers. rewrite E. intros [= <-].
  intros (h & Heq & Hh)%list_elem_of_fmap.
  apply list_find_None in Hfind. rewrite Forall_forall in Hfind.
  by apply (Hfind h).
Qed.

Lemma load_page_inv w pool frameIndex page pNum rc w' pool' page' :
  pool_inv pool → pNum ≠ NO_PAGE → not_resident pool pNum →
  load_page w pool frameIndex page pNum = (rc, w', pool', page') →
  pool_inv pool'.
Proof.
  intros Hinv Hne Hnot. unfold load_page, frame_at.
  destruct (mgmtData pool) as [frames|] eqn:E; [|by intros [= <- <- <- <-]].
  destruct (frames !! frameIndex) as [f0|] eqn:Ef0; [|by intros [= <- <- <- <-]].
  pose proof (not_resident_Forall _ _ _ Hnot E) as Hfresh.
  pose proof (Hinv _ E) as Hfr.
  assert (Hload : ∀ f w1 pool1 rc1 w2 pool2 f2,
    mgmtData pool1 = Some (<[frameIndex := f]> frames) →
    ∀ buf',
    updateBfrAtrbt w1 pool1
      (set_dirty false (set_fixCounts 1 (set_pageNum pNum (set_data (Some buf') f))))
      = (rc1, w2, pool2, f2) →
    pool_inv (set_frame frameIndex f2 pool2)).
  { intros f w1 pool1 rc1 w2 pool2 f2 E1 buf' Hupd.
    apply updateBfrAtrbt_cases in Hupd
      as [(_ & -> & -> & _)|(_ & -> & -> & Hnone & _)];
      unfold set_frame; simpl; rewrite E1; intros frames' [= <-]; simpl;
      rewrite list_insert_insert_eq;
      by eapply (frames_inv_insert _ _ f0); [done|done|by right|simpl..]. }
  destruct (data f0) as [buf|] eqn:Edata.
  - destruct (fopen w) as [[] w1]; [|by intros [= <- <- <- <-]].
    destruct (updateBfrAtrbt _ _ _) as [[[rc1 w2] pool2] f2] eqn:Hupd.
    intros [= <- <- <- <-].
    eapply (Hload f0); [|exact Hupd]; simpl.
    rewrite E. f_equal. symmetry. by apply list_insert_id.
  - destruct (calloc w) as [[] w0]; [|by intros [= <- <- <- <-]].
    assert (pool_inv (set_frame frameIndex
              (set_data (Some (replicate (Z.to_nat PAGE_SIZE) "000"%byte)) f0) pool))
      as Hinv0.
    { unfold set_frame. rewrite E. intros frames' [= <-]. simpl.
      eapply (frames_inv_touch _ _ f0); [done..|simpl|done].
      intros. eapply (inv_empty _ Hfr); eauto using list_elem_of_lookup_2. }
    destruct (fopen w0) as [[] w1]; [|by intros [= <- <- <- <-]].
    destruct (updateBfrAtrbt _ _ _) as [[[rc1 w2] pool2] f2] eqn:Hupd.
    intros [= <- <- <- <-].
    eapply (Hload (set_data _ f0)); [|exact Hupd];
      unfold set_frame; rewrite ?E; done.
Qed.

Lemma not_resident_list_find pool pNum frames :
  mgmtData pool = Some frames → not_resident pool pNum →
  list_find (λ f, pageNum f = pNum) frames = None.
Proof.
  intros E Hnot. apply list_find_None. by eapply not_resident_Forall.
Qed.

Lemma victim_scan_all_pinned frames c m v :
  Forall (λ f, fixCounts f ≠ 0) frames → victim_scan frames c m v = v.
Proof.
  intros Hall. revert c. induction Hall as [|f rest Hf _ IH]; intros c; simpl.
  - done.
  - apply Z.eqb_neq in Hf. rewrite Hf. simpl. apply IH.
Qed.

Lemma run_reachable rs w pool :
  reachable w pool → reachable (run rs w pool).1 (run rs w pool).2.
Proof.
  revert w pool. induction rs as [|r rs IH]; intros w pool Hreach; simpl.
  - done.
  - destruct (perform r w pool) as [[rc w'] pool'] eqn:Estep.
    apply IH. by eapply reachable_step.
Qed.

(** ** The environment calls *)

Lemma calloc_files w b w' :
  calloc w = (b, w') →
  fopen_results w' = fopen_results w ∧ fwrite_results w' = fwrite_results w
  ∧ disk w' = disk w.
Proof. unfold calloc. destruct (calloc_results w); by intros [= <- <-]. Qed.

Lemma fopen_fwrite_results w b w' :
  fopen w = (b, w') → fwrite_results w' = fwrite_results w.
Proof. unfold fopen. destruct (fopen_results w); by intros [= <- <-]. Qed.

Lemma fwrite_fopen_results name offset size buf w :
  fopen_results (fwrite name offset size buf w) = fopen_results w.
Proof. unfold fwrite. by destruct (fwrite_results w). Qed.

Lemma fwrite_disk name offset size buf w :
  disk (fwrite name offset size buf w) =
    landed (fwrite_results w) [(name, seek offset, block_of size buf)]
      ++ disk w.
Proof. unfold fwrite. destruct (fwrite_results w) as [|[] ?]; reflexivity. Qed.

Lemma fwrite_fwrite_results name offset size buf w :
  fwrite_results (fwrite name offset size buf w) = tail (fwrite_results w).
Proof. unfold fwrite. by destruct (fwrite_results w). Qed.

Lemma landed_cons {A} results (e : A) es :
  landed results (e :: es) = landed results [e] ++ landed (tail results) es.
Proof. destruct results as [|[] ?]; simpl; [by destruct es|done..]. Qed.

Lemma landed_all {A} results (entries : list A) :
  Forall (eq true) results → landed results entries = entries.
Proof.
  intros Hall. revert entries.
  induction Hall as [|b bs <- _ IH]; intros [|e es]; simpl; try done.
  by rewrite IH.
Qed.

Lemma int_wrap_small z : INT_MIN ≤ z ≤ INT_MAX → int_wrap z = z.
Proof.
  unfold INT_MIN, INT_MAX, int_wrap. intros Hz.
  rewrite Z.mod_small by lia. lia.
Qed.

Lemma int_wrap_range z : INT_MIN ≤ int_wrap z ≤ INT_MAX.
Proof.
  unfold INT_MIN, INT_MAX, int_wrap.
  pose proof (Z.mod_pos_bound (z + 2147483648) 4294967296 ltac:(lia)). lia.
Qed.

Lemma seek_offset n :
  0 ≤ n ≤ INT_MAX → seek (int_wrap n) = n.
Proof.
  intros Hn. rewrite int_wrap_small by (unfold INT_MIN; lia).
  unfold seek. destruct (n <? 0) eqn:Hlt; [apply Z.ltb_lt in Hlt; lia|done].
Qed.

Lemma fopen_disk w b w' : fopen w = (b, w') → disk w' = disk w.
Proof. unfold fopen. destruct (fopen_results w); by intros [= <- <-]. Qed.

Lemma fopen_true w w' :
  fopen w = (true, w') →
  (fopen_results w = [] ∧ w' = w) ∨ fopen_results w = true :: fopen_results w'.
Proof.
  unfold fopen. destruct (fopen_results w) as [|b script] eqn:Hs.
  - intros [= <-]. by left.
  - intros [= -> <-]. by right.
Qed.

Lemma fopen_false w w' :
  fopen w = (false, w') → fopen_results w = false :: fopen_results w'.
Proof.
  unfold fopen. destruct (fopen_results w) as [|b script] eqn:Hs.
  - done.
  - by intros [= -> <-].
Qed.

(** ** Pin of a resident page *)


(** ** forcePage *)


(** ** A pin that fails *)

Lemma load_page_failure w pool frameIndex page pNum rc w' pool' page' :
  load_page w pool frameIndex page pNum = (rc, w', pool', page') →
  rc ≠ RC_OK → page_numbers pool' = page_numbers pool.
Proof.
  unfold load_page, frame_at.
  destruct (mgmtData pool) as [frames|] eqn:E; [|by intros [= <- <- <- <-]].
  destruct (frames !! frameIndex) as [f0|] eqn:Ef0; [|by intros [= <- <- <- <-]].
  destruct (data f0) as [buf|] eqn:Edata.
  - destruct (fopen w) as [[] w1]; [|by intros [= <- <- <- <-]].
    destruct (updateBfrAtrbt _ _ _) as [[[rc1 w2] pool2] f2].
    by intros [= <- <- <- <-].
  - destruct (calloc w) as [[] w0]; [|by intros [= <- <- <- <-]].
    destruct (fopen w0) as [[] w1].
    + destruct (updateBfrAtrbt _ _ _) as [[[rc1 w2] pool2] f2].
      by intros [= <- <- <- <-].
    + intros [= <- <- <- <-] _. unfold page_numbers, set_frame.
      rewrite E. simpl. f_equal. by eapply map_pageNum_insert.
Qed.

Lemma pinPage_failure w pool page pNum rc w' pool' page' :
  pinPage w pool page pNum = (rc, w', pool', page') →
  rc ≠ RC_OK → page_numbers pool' = page_numbers pool.
Proof.
  unfold pinPage.
  destruct (mgmtData pool) as [frames|] eqn:E; [|by intros [= <- <- <- <-]].
  destruct (pNum <? 0); [by intros [= <- <- <- <-]|].
  destruct (list_find (λ f, pageNum f = pNum) frames) as [[counter f]|].
  { destruct (recency_based (strategy pool));
      [destruct (updateBfrAtrbt w pool f) as [[[rc1 w1] pool1] f1]|];
      by intros [= <- <- <- <-]. }
  destruct (list_find (λ f, pageNum f = NO_PAGE) frames) as [[i fe]|].
  { apply load_page_failure. }
  unfold strategyForFIFOandLRU. rewrite E. simpl.
  pose proof (normalize_page_numbers pool) as Hnorm.
  destruct (victim_scan frames 0 (buffertimer pool) (-1) =? -1);
    [by intros [= <- <- <- <-]|].
  assert (Hload : ∀ w0, load_page w0 (normalize pool) (Z.to_nat
      (victim_scan frames 0 (buffertimer pool) (-1))) page pNum
      = (rc, w', pool', page') → rc ≠ RC_OK →
      page_numbers pool' = page_numbers pool).
  { intros w0 Hl Hrc. rewrite <- Hnorm. by eapply load_page_failure. }
  destruct (frame_at (normalize pool) _) as [tempHandle|]; [|by apply Hload].
  destruct (dirty tempHandle); [|by apply Hload].
  destruct (forcePage w (normalize pool) tempHandle)
    as [[retVal w1] pool2] eqn:Eforce.
  apply forcePage_page_numbers in Eforce.
  destruct (decide (retVal = RC_OK)).
  - intros Hl Hrc. rewrite <- Hnorm, <- Eforce. by eapply load_page_failure.
  - intros [= <- <- <- <-] _. by rewrite Eforce.
Qed.

(** C4 (as the code has it): when a pin has chosen a victim (the page is not
    resident, no frame is empty, the selector returns index [i]) and then
    fails, be it at the write of the dirty victim or at the load of the new
    page, frame [i] holds the page number it held before, which is not the
    sentinel: nothing clears it. *)
Theorem failed_load_keeps_victim w pool frames page pNum i f rc w' pool' page' :
  mgmtData pool = Some frames →
  list_find (λ f, pageNum f = pNum) frames = None →
  list_find (λ f, pageNum f = NO_PAGE) frames = None →
  (strategyForFIFOandLRU pool).1 = Z.of_nat i →
  frames !! i = Some f →
  pinPage w pool page pNum = (rc, w', pool', page') → rc ≠ RC_OK →
  ∃ f', frame_at pool' i = Some f' ∧
        pageNum f' = pageNum f ∧ pageNum f' ≠ NO_PAGE.
Proof.
  intros E _ Hfull _ Hi Hpin Hrc.
  pose proof (pinPage_failure _ _ _ _ _ _ _ _ Hpin Hrc) as Hnum.
  unfold page_numbers in Hnum. rewrite E in Hnum. unfold frame_at.
  destruct (mgmtData pool') as [frames'|]; [|done].
  injection Hnum as Hnum.
  assert (map pageNum frames' !! i = Some (pageNum f)) as Hi'.
  { by rewrite Hnum, list_lookup_fmap, Hi. }
  rewrite list_lookup_fmap in Hi'.
  destruct (frames' !! i) as [f'|]; [|done].
  injection Hi' as Hi'. exists f'. split_and!; [done..|].
  rewrite Hi'. apply list_find_None in Hfull. rewrite Forall_lookup in Hfull.
  by eapply Hfull.
Qed.

(** ** flushAll *)

Lemma landed_nil {A} (entries : list A) : landed [] entries = entries.
Proof. by destruct entries. Qed.

Lemma flush_frames_spec name frames w writes rc w' n frames' :
  flush_frames name frames w writes = (rc, w', n, frames') →
  ∃ flushed rest,
    let k := length (filter flushable flushed) in
    frames = flushed ++ rest ∧
    frames' = map clean flushed ++ rest ∧
    n = writes + Z.of_nat k ∧
    disk w' =
      rev (landed (fwrite_results w)
             (map (flushed_page name) (filter flushable flushed)))
        ++ disk w ∧
    Forall (eq true) (take k (fopen_results w)) ∧
    ((rc = RC_OK ∧ rest = [])
     ∨ (rc = RC_FILE_NOT_FOUND ∧
        ∃ f rest', rest = f :: rest' ∧ flushable f = true ∧
                   fopen_results w !! k = Some false)).
Proof.
  revert w writes rc w' n frames'.
  induction frames as [|f frames IH]; intros w writes rc w' n frames'; simpl.
  - intros [= <- <- <- <-]. exists [], []. simpl.
    split_and!; [done|done|lia|done|by rewrite take_0|by left].
  - destruct (flushable f) eqn:Hf.
    + destruct (fopen w) as [[] w1] eqn:Hopen.
      * destruct (flush_frames _ _ _ _) as [[[rc2 w2] n2] rest2] eqn:Hrec.
        intros [= <- <- <- <-].
        apply IH in Hrec as (flushed & rest & -> & -> & -> & Hdisk & Hok & Hrc).
        exists (f :: flushed), rest.
        assert (filter flushable (f :: flushed) = f :: filter flushable flushed)
          as Hfilter by (apply filter_cons_True; by rewrite Hf).
        assert (clean f = set_dirty false f) as Hclean
          by (unfold clean; by rewrite Hf).
        simpl. rewrite Hfilter, Hclean. simpl.
        simpl in Hdisk, Hok, Hrc.
        rewrite fwrite_fwrite_results, fwrite_disk,
          (fopen_fwrite_results _ _ _ Hopen), (fopen_disk _ _ _ Hopen) in Hdisk.
        rewrite fwrite_fopen_results in Hok, Hrc.
        split_and!; [done|done|lia| | |].
        -- rewrite Hdisk. unfold flushed_page at 2.
           destruct (fwrite_results w) as [|[] bs]; simpl;
             rewrite ?landed_nil, <- ?app_assoc; done.
        -- destruct (fopen_true _ _ Hopen) as [[-> _]| ->]; [done|].
           by constructor.
        -- destruct Hrc as [|(-> & g & rest' & -> & Hg & Hfail)]; [by left|].
           right. split; [done|]. exists g, rest'. split_and!; [done..|].
           destruct (fopen_true _ _ Hopen) as [[Hs ->]| ->]; [|done].
           by rewrite Hs in Hfail.
      * intros [= <- <- <- <-]. exists [], (f :: frames). simpl.
        split_and!; [done|done|lia|by rewrite (fopen_disk _ _ _ Hopen)
                    |by rewrite take_0|].
        right. split; [done|]. exists f, frames. split_and!; [done..|].
        by rewrite (fopen_false _ _ Hopen).
    + destruct (flush_frames _ _ _ _) as [[[rc2 w2] n2] rest2] eqn:Hrec.
      intros [= <- <- <- <-].
      apply IH in Hrec as (flushed & rest & -> & -> & -> & Hdisk & Hok & Hrc).
      exists (f :: flushed), rest.
      assert (filter flushable (f :: flushed) = filter flushable flushed)
        as Hfilter by (apply filter_cons_False; rewrite Hf; simpl; tauto).
      assert (clean f = f) as Hclean by (unfold clean; by rewrite Hf).
      simpl. rewrite Hfilter, Hclean. done.
Qed.

(** An unpinned dirty frame is the first frame with its page number: the
    search of [forcePage] comes back to it. *)
Lemma flushable_first_match frames i f :
  frames_inv frames → frames !! i = Some f → flushable f = true →
  list_find (λ g, pageNum g = pageNum f) frames = Some (i, f).
Proof.
  intros Hinv Hi [Hd _]%andb_prop. apply list_find_Some.
  split_and!; [done..|]. intros j g Hj Hlt Heq.
  destruct (decide (pageNum f = NO_PAGE)) as [Hempty|Hpage].
  - assert (i ≤ j)%nat; [|lia].
    eapply (inv_dirty _ Hinv); eauto. congruence.
  - assert (j = i); [|lia].
    eapply (inv_unique _ Hinv); eauto. congruence.
Qed.

Lemma pool_eta pool :
  set_mgmtData (mgmtData pool) (set_numberWriteIO (numberWriteIO pool) pool) = pool.
Proof. by destruct pool. Qed.

Lemma forceFlushPool_loop_flush_frames todo done w pool :
  pool_inv pool → mgmtData pool = Some (done ++ todo) →
  forceFlushPool_loop (length todo) (length done) w pool =
    let '(rc, w', n, todo') :=
      flush_frames (pageFile pool) todo w (numberWriteIO pool) in
    (rc, w', set_mgmtData (Some (done ++ todo')) (set_numberWriteIO n pool)).
Proof.
  revert done w pool. induction todo as [|f todo IH]; intros done w pool Hinv E.
  - simpl. by rewrite <- E, pool_eta.
  - assert (Hat : (done ++ f :: todo) !! length done = Some f).
    { by rewrite lookup_app_r, Nat.sub_diag by lia. }
    cbn [length forceFlushPool_loop flush_frames].
    unfold frame_at at 1. rewrite E, Hat. fold (flushable f).
    assert (Hnext : ∀ g w0 pool1,
      pool_inv pool1 → mgmtData pool1 = Some (done ++ g :: todo) →
      forceFlushPool_loop (length todo) (S (length done)) w0 pool1 =
        let '(rc, w', n, todo') :=
          flush_frames (pageFile pool1) todo w0 (numberWriteIO pool1) in
        (rc, w', set_mgmtData (Some (done ++ g :: todo'))
                   (set_numberWriteIO n pool1))).
    { intros g w0 pool1 Hinv1 E1.
      specialize (IH (done ++ [g]) w0 pool1 Hinv1).
      rewrite length_app, Nat.add_1_r, <- app_assoc in IH. simpl in IH.
      rewrite (IH E1).
      destruct (flush_frames _ _ _ _) as [[[rc2 w2] n2] rest2].
      by rewrite <- app_assoc. }
    destruct (flushable f) eqn:Hf.
    + unfold forcePage. rewrite E.
      rewrite (flushable_first_match _ _ _ (Hinv _ E) Hat Hf).
      destruct (fopen w) as [[] w1] eqn:Hopen.
      * destruct (decide (RC_OK = RC_OK)) as [_|]; [|done].
        unfold frame_at, set_frame. simpl.
        assert (Hlen : (length done < length (done ++ f :: todo))%nat).
        { rewrite length_app. simpl. lia. }
        rewrite list_lookup_insert_eq by done.
        rewrite list_insert_insert_eq.
        assert (<[length done := set_dirty false (set_dirty false f)]>
                  (done ++ f :: todo) = done ++ set_dirty false f :: todo) as Hins.
        { by rewrite insert_app_r_alt, Nat.sub_diag by lia. }
        rewrite Hins, (Hnext (set_dirty false f)); [| |done].
        -- simpl. by destruct (flush_frames _ _ _ _) as [[[rc2 w2] n2] rest2].
        -- intros frames' [= <-]. simpl. rewrite <- Hins.
           eapply (frames_inv_touch _ _ f); [by apply Hinv|done..|simpl|done].
           intros. eapply (inv_empty _ (Hinv _ E));
             eauto using list_elem_of_lookup_2.
      * destruct (decide (RC_FILE_NOT_FOUND = RC_OK)); [done|].
        by rewrite <- E, pool_eta.
    + rewrite (Hnext f w pool Hinv E).
      by destruct (flush_frames _ _ _ _) as [[[rc2 w2] n2] rest2].
Qed.

(** ** Sound frames *)

Lemma frame_sound_touch f g :
  frame_sound f → 0 ≤ fixCounts g → pageNum g = pageNum f →
  data g = data f → frame_sound g.
Proof.
  intros (Hfix & Hdata) Hg Hp Hd. unfold frame_sound.
  rewrite Hp, Hd. by split_and!.
Qed.

Lemma sound_parts_insert capacity reads writes frames i g reads' writes' :
  sound_parts capacity reads writes frames →
  reads ≤ reads' → writes ≤ writes' → frame_sound g →
  sound_parts capacity reads' writes' (<[i := g]> frames).
Proof.
  intros (Hr & Hw & Hlen & Hall) Hr' Hw' Hg.
  unfold sound_parts. rewrite length_insert.
  split_and!; [lia..|done|by apply Forall_insert].
Qed.

Lemma reset_attribute_sound f : frame_sound f → frame_sound (reset_attribute f).
Proof.
  intros (Hfix & Hdata). unfold frame_sound.
  by rewrite reset_attribute_fixCounts, reset_attribute_data,
    reset_attribute_pageNum.
Qed.

Lemma normalize_sound pool : pool_sound pool → pool_sound (normalize pool).
Proof.
  intros Hsound. unfold normalize.
  destruct (32000 <? buffertimer pool); [|done].
  intros frames'. destruct (mgmtData pool) as [frames|] eqn:E; simpl.
  - intros [= <-]. destruct (Hsound _ E) as (Hr & Hw & Hlen & Hall).
    unfold sound_parts. rewrite length_map.
    split_and!; [done..|].
    apply Forall_fmap. eapply Forall_impl; [exact Hall|].
    intros f. apply reset_attribute_sound.
  - by rewrite E.
Qed.

Lemma forcePage_sound w pool page rc w' pool' :
  pool_sound pool → forcePage w pool page = (rc, w', pool') → pool_sound pool'.
Proof.
  intros Hsound. unfold forcePage.
  destruct (mgmtData pool) as [frames|] eqn:E; [|by intros [= <- <- <-]].
  destruct (list_find _ frames) as [[counter f]|] eqn:Efind;
    [|by intros [= <- <- <-]].
  destruct (fopen w) as [[] w1]; intros [= <- <- <-]; [|done].
  apply list_find_Some in Efind as (Hc & _ & _).
  intros frames' [= <-]. simpl. pose proof (Hsound _ E) as Hparts.
  eapply sound_parts_insert; [exact Hparts|lia..|].
  destruct Hparts as (_ & _ & _ & Hall). rewrite Forall_lookup in Hall.
  eapply frame_sound_touch; [by eapply Hall|simpl..]; [|done..].
  by destruct (Hall _ _ Hc).
Qed.

Lemma markDirty_sound pool page rc pool' :
  pool_sound pool → markDirty pool page = (rc, pool') → pool_sound pool'.
Proof.
  intros Hsound. unfold markDirty.
  destruct (mgmtData pool) as [frames|] eqn:E; [|by intros [= <- <-]].
  destruct (list_find _ frames) as [[counter f]|] eqn:Efind;
    [|by intros [= <- <-]].
  intros [= <- <-].
  apply list_find_Some in Efind as (Hc & _ & _).
  intros frames' [= <-]. simpl. pose proof (Hsound _ E) as Hparts.
  eapply sound_parts_insert; [exact Hparts|lia..|].
  destruct Hparts as (_ & _ & _ & Hall). rewrite Forall_lookup in Hall.
  eapply frame_sound_touch; [by eapply Hall|simpl..]; [|done..].
  by destruct (Hall _ _ Hc).
Qed.

Lemma unpinPage_sound pool page rc pool' :
  pool_sound pool → unpinPage pool page = (rc, pool') → pool_sound pool'.
Proof.
  intros Hsound. unfold unpinPage.
  destruct (mgmtData pool) as [frames|] eqn:E; [|by intros [= <- <-]].
  destruct (list_find _ frames) as [[counter f]|] eqn:Efind;
    [|by intros [= <- <-]].
  destruct (0 <? fixCounts f) eqn:Hfix; intros [= <- <-]; [|done].
  apply Z.ltb_lt in Hfix.
  apply list_find_Some in Efind as (Hc & _ & _).
  intros frames' [= <-]. simpl. pose proof (Hsound _ E) as Hparts.
  eapply sound_parts_insert; [exact Hparts|lia..|].
  destruct Hparts as (_ & _ & _ & Hall). rewrite Forall_lookup in Hall.
  eapply frame_sound_touch; [by eapply Hall|simpl..]; [lia|done..].
Qed.

Lemma initBufferPool_sound w pool fileName numFrames strat rc w' pool' :
  pool_sound pool →
  initBufferPool w pool fileName numFrames strat = (rc, w', pool') →
  pool_sound pool'.
Proof.
  intros Hsound. unfold initBufferPool.
  destruct (fopen w) as [[] w1]; [|by intros [= <- <- <-]].
  destruct (calloc w1) as [[] w2]; intros [= <- <- <-];
    intros frames [= <-]; simpl.
  unfold sound_parts. rewrite length_replicate.
  split_and!; [lia..|done|].
  apply Forall_replicate. unfold frame_sound. simpl. by split_and!.
Qed.

Lemma set_frame_clean_sound pool counter f1 :
  pool_sound pool → frame_at pool counter = Some f1 →
  pool_sound (set_frame counter (set_dirty false f1) pool).
Proof.
  intros Hsound. unfold frame_at, set_frame.
  destruct (mgmtData pool) as [frames|] eqn:E; [|done].
  intros Hc frames' [= <-]. simpl. pose proof (Hsound _ E) as Hparts.
  eapply sound_parts_insert; [exact Hparts|lia..|].
  destruct Hparts as (_ & _ & _ & Hall). rewrite Forall_lookup in Hall.
  eapply frame_sound_touch; [by eapply Hall|simpl..]; [|done..].
  by destruct (Hall _ _ Hc).
Qed.

Lemma forceFlushPool_loop_sound n counter w pool rc w' pool' :
  pool_sound pool →
  forceFlushPool_loop n counter w pool = (rc, w', pool') → pool_sound pool'.
Proof.
  revert counter w pool. induction n as [|n IH]; intros counter w pool Hs; simpl.
  - by intros [= <- <- <-].
  - destruct (frame_at pool counter) as [f|] eqn:Ef; [|by intros [= <- <- <-]].
    destruct (dirty f && (fixCounts f =? 0)); [|by apply IH].
    destruct (forcePage w pool f) as [[ret w1] pool1] eqn:Eforce.
    apply forcePage_sound in Eforce; [|done].
    destruct (decide (ret = RC_OK)); [|by intros [= <- <- <-]].
    apply IH. destruct (frame_at pool1 counter) eqn:Ef1; [|done].
    by apply set_frame_clean_sound.
Qed.

Lemma forceFlushPool_sound w pool rc w' pool' :
  pool_sound pool → forceFlushPool w pool = (rc, w', pool') → pool_sound pool'.
Proof.
  intros Hsound. unfold forceFlushPool.
  destruct (mgmtData pool); [|by intros [= <- <- <-]].
  by apply forceFlushPool_loop_sound.
Qed.

Lemma shutdownBufferPool_sound w pool rc w' pool' :
  pool_sound pool → shutdownBufferPool w pool = (rc, w', pool') →
  pool_sound pool'.
Proof.
  intros Hsound. unfold shutdownBufferPool.
  destruct (mgmtData pool); [|by intros [= <- <- <-]].
  destruct (list_find _ _); [by intros [= <- <- <-]|].
  destruct (forceFlushPool w pool) as [[ret w1] pool1] eqn:Eflush.
  apply forceFlushPool_sound in Eflush; [|done].
  destruct (decide (ret = RC_OK)); intros [= <- <- <-]; [|done].
  by intros frames.
Qed.

Lemma load_page_sound w pool frameIndex page pNum rc w' pool' page' :
  pool_sound pool →
  load_page w pool frameIndex page pNum = (rc, w', pool', page') →
  pool_sound pool'.
Proof.
  intros Hsound. unfold load_page, frame_at.
  destruct (mgmtData pool) as [frames|] eqn:E; [|by intros [= <- <- <- <-]].
  destruct (frames !! frameIndex) as [f0|] eqn:Ef0; [|by intros [= <- <- <- <-]].
  pose proof (Hsound _ E) as Hparts.
  assert (frame_sound f0) as (Hfix0 & Hdata0).
  { destruct Hparts as (_ & _ & _ & Hall). rewrite Forall_lookup in Hall.
    by eapply Hall. }
  assert (Hload : ∀ f w1 pool1 rc1 w2 pool2 f2 buf',
    mgmtData pool1 = Some (<[frameIndex := f]> frames) →
    numPages pool1 = numPages pool →
    numberReadIO pool1 = numberReadIO pool + 1 →
    numberWriteIO pool1 = numberWriteIO pool →
    updateBfrAtrbt w1 pool1
      (set_dirty false (set_fixCounts 1 (set_pageNum pNum (set_data (Some buf') f))))
      = (rc1, w2, pool2, f2) →
    pool_sound (set_frame frameIndex f2 pool2)).
  { intros f w1 pool1 rc1 w2 pool2 f2 buf' E1 Hn Hr Hw Hupd.
    apply updateBfrAtrbt_cases in Hupd
      as [(_ & -> & -> & _)|(_ & -> & -> & Hnone & _)];
      unfold set_frame; simpl; rewrite E1; intros frames' [= <-]; simpl;
      rewrite list_insert_insert_eq, Hn, Hr, Hw;
      (eapply sound_parts_insert; [exact Hparts|lia..|]);
      unfold frame_sound; simpl; (split_and!; [lia|done]). }
  destruct (data f0) as [buf|] eqn:Edata.
  - destruct (fopen w) as [[] w1]; [|by intros [= <- <- <- <-]].
    destruct (updateBfrAtrbt _ _ _) as [[[rc1 w2] pool2] f2] eqn:Hupd.
    intros [= <- <- <- <-].
    eapply (Hload f0); [| | | |exact Hupd]; simpl; [|done..].
    rewrite E. f_equal. symmetry. by apply list_insert_id.
  - destruct (calloc w) as [[] w0]; [|by intros [= <- <- <- <-]].
    destruct (fopen w0) as [[] w1].
    + destruct (updateBfrAtrbt _ _ _) as [[[rc1 w2] pool2] f2] eqn:Hupd.
      intros [= <- <- <- <-].
      eapply (Hload (set_data _ f0)); [| | | |exact Hupd];
        unfold set_frame; rewrite ?E; done.
    + intros [= <- <- <- <-]. unfold set_frame. rewrite E.
      intros frames' [= <-]. simpl.
      eapply sound_parts_insert; [exact Hparts|lia..|].
      unfold frame_sound. simpl. by split_and!.
Qed.

Lemma pinPage_sound w pool page pNum rc w' pool' page' :
  pool_sound pool →
  pinPage w pool page pNum = (rc, w', pool', page') → pool_sound pool'.
Proof.
  intros Hsound. unfold pinPage.
  destruct (mgmtData pool) as [frames|] eqn:E; [|by intros [= <- <- <- <-]].
  destruct (pNum <? 0); [by intros [= <- <- <- <-]|].
  pose proof (Hsound _ E) as Hparts.
  destruct (list_find (λ f, pageNum f = pNum) frames) as [[counter f]|] eqn:Ehit.
  - apply list_find_Some in Ehit as (Hc & _ & _).
    assert (frame_sound f) as (Hfix & Hdata).
    { destruct Hparts as (_ & _ & _ & Hall). rewrite Forall_lookup in Hall.
      by eapply Hall. }
    destruct (recency_based (strategy pool)).
    + destruct (updateBfrAtrbt w pool f) as [[[rc1 w1] pool1] f1] eqn:Hupd.
      apply updateBfrAtrbt_cases in Hupd
        as [(_ & -> & -> & _)|(_ & -> & -> & Hnone & _)];
        intros [= <- <- <- <-]; intros frames' [= <-]; simpl;
        (eapply sound_parts_insert; [exact Hparts|lia..|]);
        unfold frame_sound; simpl; (split_and!; [lia|done]).
    + intros [= <- <- <- <-]; intros frames' [= <-]; simpl.
      eapply sound_parts_insert; [exact Hparts|lia..|].
      unfold frame_sound; simpl. split_and!; [lia|done..].
  - destruct (list_find (λ f, pageNum f = NO_PAGE) frames) as [[i fe]|].
    + by apply load_page_sound.
    + unfold strategyForFIFOandLRU. rewrite E. simpl.
      pose proof (normalize_sound _ Hsound) as Hsound1.
      destruct (victim_scan frames 0 (buffertimer pool) (-1) =? -1);
        [by intros [= <- <- <- <-]|].
      destruct (frame_at (normalize pool) _) as [tempHandle|];
        [|by apply load_page_sound].
      destruct (dirty tempHandle); [|by apply load_page_sound].
      destruct (forcePage w (normalize pool) tempHandle)
        as [[retVal w1] pool2] eqn:Eforce.
      pose proof (forcePage_sound _ _ _ _ _ _ Hsound1 Eforce) as Hsound2.
      destruct (decide (retVal = RC_OK)); [|by intros [= <- <- <- <-]].
      by apply load_page_sound.
Qed.

Lemma perform_sound r w pool rc w' pool' :
  pool_sound pool → perform r w pool = (rc, w', pool') → pool_sound pool'.
Proof.
  intros Hsound. destruct r; simpl.
  - by apply initBufferPool_sound.
  - by apply shutdownBufferPool_sound.
  - by apply forceFlushPool_sound.
  - destruct (markDirty pool page) as [rc1 pool1] eqn:Em. intros [= <- <- <-].
    by eapply markDirty_sound.
  - destruct (unpinPage pool page) as [rc1 pool1] eqn:Eu. intros [= <- <- <-].
    by eapply unpinPage_sound.
  - by apply forcePage_sound.
  - destruct (pinPage w pool page pNum) as [[[rc1 w1] pool1] page1] eqn:Ep.
    intros [= <- <- <-]. by eapply pinPage_sound.
Qed.

Lemma reachable_sound w pool : reachable w pool → pool_sound pool.
Proof.
  induction 1 as [w pool Hnone|r w pool rc w' pool' _ IH Hstep].
  - intros frames. by rewrite Hnone.
  - by eapply perform_sound.
Qed.

(** ** What a pin does to the other frames *)

Lemma victim_scan_unpinned frames c m v :
  victim_scan frames c m v = v
  ∨ ∃ i f, victim_scan frames c m v = c + Z.of_nat i ∧
           frames !! i = Some f ∧ fixCounts f = 0.
Proof.
  revert c m v. induction frames as [|g rest IH]; intros c m v; simpl.
  - by left.
  - assert (Hshift : ∀ m' v',
      victim_scan rest (c + 1) m' v' = v'
      ∨ ∃ i f, victim_scan rest (c + 1) m' v' = c + Z.of_nat i ∧
               (g :: rest) !! i = Some f ∧ fixCounts f = 0).
    { intros m' v'. destruct (IH (c + 1) m' v') as [|(i & f & -> & Hi & Hf)];
        [by left|].
      right. exists (S i), f. split_and!; [lia|done..]. }
    destruct (fixCounts g =? 0) eqn:Hfix; simpl; [|by apply Hshift].
    apply Z.eqb_eq in Hfix.
    assert (Hhere : ∃ i f, c = c + Z.of_nat i ∧
                      (g :: rest) !! i = Some f ∧ fixCounts f = 0).
    { exists 0%nat, g. split_and!; [lia|done..]. }
    destruct (strategyAttribute g) as [a|]; [|by right].
    destruct (a <=? m); [|by apply Hshift].
    destruct (Hshift a c) as [->|]; by right.
Qed.

Lemma same_frame_refl f : same_frame f f.
Proof. by unfold same_frame. Qed.

Lemma same_frame_trans f g h : same_frame f g → same_frame g h → same_frame f h.
Proof. unfold same_frame. intros (-> & -> & ->) (-> & -> & ->). done. Qed.

Lemma frames_kept_refl pool : frames_kept pool pool.
Proof. intros j f Hj. exists f. split; [done|apply same_frame_refl]. Qed.

Lemma frames_kept_trans pool1 pool2 pool3 :
  frames_kept pool1 pool2 → frames_kept pool2 pool3 → frames_kept pool1 pool3.
Proof.
  intros H12 H23 j f Hj.
  destruct (H12 _ _ Hj) as (g & Hg & Hfg).
  destruct (H23 _ _ Hg) as (h & Hh & Hgh).
  exists h. split; [done|]. by eapply same_frame_trans.
Qed.

Lemma frames_kept_insert pool frames i f g pool' :
  mgmtData pool = Some frames → frames !! i = Some f → same_frame f g →
  mgmtData pool' = Some (<[i := g]> frames) → frames_kept pool pool'.
Proof.
  intros E Hi Hfg E' j h. unfold frame_at. rewrite E, E'. intros Hj.
  destruct (decide (i = j)) as [->|Hne].
  - exists g. rewrite list_lookup_insert_eq by eauto using lookup_lt_Some.
    by simplify_eq.
  - exists h. rewrite list_lookup_insert_ne by done.
    split; [done|apply same_frame_refl].
Qed.

Lemma normalize_kept pool : frames_kept pool (normalize pool).
Proof.
  unfold normalize. destruct (32000 <? buffertimer pool);
    [|apply frames_kept_refl].
  intros j f. unfold frame_at.
  destruct (mgmtData pool) as [frames|] eqn:E; simpl; [|by rewrite E].
  intros Hj. exists (reset_attribute f).
  rewrite list_lookup_fmap, Hj. split; [done|].
  unfold same_frame.
  by rewrite reset_attribute_pageNum, reset_attribute_data,
    reset_attribute_fixCounts.
Qed.


Lemma forcePage_kept w pool page rc w' pool' :
  forcePage w pool page = (rc, w', pool') → frames_kept pool pool'.
Proof.
  unfold forcePage.
  destruct (mgmtData pool) as [frames|] eqn:E;
    [|intros [= <- <- <-]; apply frames_kept_refl].
  destruct (list_find _ frames) as [[counter f]|] eqn:Efind;
    [|intros [= <- <- <-]; apply frames_kept_refl].
  destruct (fopen w) as [[] w1]; intros [= <- <- <-];
    [|apply frames_kept_refl].
  apply list_find_Some in Efind as (Hc & _ & _).
  by eapply (frames_kept_insert _ _ _ f (set_dirty false f)).
Qed.

Lemma forcePage_grows w pool page rc w' pool' :
  forcePage w pool page = (rc, w', pool') →
  grows pool pool' ∧ numberReadIO pool' = numberReadIO pool
  ∧ buffertimer pool' = buffertimer pool.
Proof.
  unfold forcePage, grows.
  destruct (mgmtData pool) as [frames|] eqn:E;
    [|intros [= <- <- <-]; split_and!; (done || lia)].
  destruct (list_find _ frames) as [[counter f]|] eqn:Efind;
    [|intros [= <- <- <-]; split_and!; (done || lia)].
  destruct (fopen w) as [[] w1]; intros [= <- <- <-]; simpl;
    split_and!; (done || lia).
Qed.

(** A load that succeeds: frame [t] receives the page, one read is counted,
    nothing is written, the other frames are as before. *)
Lemma load_page_success w pool t page pNum w' pool' page' :
  load_page w pool t page pNum = (RC_OK, w', pool', page') →
  ∃ frames f0,
    mgmtData pool = Some frames ∧ frames !! t = Some f0 ∧
    mgmtData pool' = Some (<[t := page']> frames) ∧
    pageNum page' = pNum ∧ fixCounts page' = 1 ∧ dirty page' = false ∧
    data page' =
      Some (fread (pageFile pool) (int_wrap (pNum * PAGE_SIZE)) PAGE_SIZE
              (default (replicate (Z.to_nat PAGE_SIZE) "000"%byte) (data f0)) w) ∧
    grows pool pool' ∧
    numberReadIO pool' = numberReadIO pool + 1 ∧
    numberWriteIO pool' = numberWriteIO pool ∧
    fwrite_results w' = fwrite_results w ∧
    disk w' = disk w.
Proof.
  unfold load_page, frame_at.
  destruct (mgmtData pool) as [frames|] eqn:E; [|done].
  destruct (frames !! t) as [f0|] eqn:Ef0; [|done].
  intros Hbody. exists frames, f0. split; [done|]. split; [done|].
  revert Hbody.
  assert (Hload : ∀ f w0 w1 pool1 rc1 w2 pool2 f2 buf,
    fwrite_results w0 = fwrite_results w → disk w0 = disk w →
    fopen w0 = (true, w1) →
    mgmtData pool1 = Some (<[t := f]> frames) →
    pageFile pool1 = pageFile pool → numPages pool1 = numPages pool →
    strategy pool1 = strategy pool →
    numberReadIO pool1 = numberReadIO pool + 1 →
    numberWriteIO pool1 = numberWriteIO pool →
    updateBfrAtrbt w1 pool1
      (set_dirty false (set_fixCounts 1 (set_pageNum pNum
         (set_data
            (Some (fread (pageFile pool) (int_wrap (pNum * PAGE_SIZE))
                     PAGE_SIZE buf w1)) f))))
      = (rc1, w2, pool2, f2) →
    mgmtData (set_frame t f2 pool2) = Some (<[t := f2]> frames) ∧
    pageNum f2 = pNum ∧ fixCounts f2 = 1 ∧ dirty f2 = false ∧
    data f2 =
      Some (fread (pageFile pool) (int_wrap (pNum * PAGE_SIZE)) PAGE_SIZE
              buf w) ∧
    grows pool (set_frame t f2 pool2) ∧
    numberReadIO (set_frame t f2 pool2) = numberReadIO pool + 1 ∧
    numberWriteIO (set_frame t f2 pool2) = numberWriteIO pool ∧
    fwrite_results w2 = fwrite_results w ∧
    disk w2 = disk w).
  { intros f w0 w1 pool1 rc1 w2 pool2 f2 buf Hf0 Hd0 Hopen E1 Hpf Hnp Hst Hr Hw
      Hupd.
    assert (disk w1 = disk w) as Hd1 by (by rewrite (fopen_disk _ _ _ Hopen)).
    assert (fwrite_results w1 = fwrite_results w) as Hf1
      by (by rewrite (fopen_fwrite_results _ _ _ Hopen)).
    assert (∀ b, fread (pageFile pool) (int_wrap (pNum * PAGE_SIZE)) PAGE_SIZE
                   b w1
                 = fread (pageFile pool) (int_wrap (pNum * PAGE_SIZE))
                     PAGE_SIZE b w) as Hread.
    { intros b. unfold fread. by rewrite Hd1. }
    apply updateBfrAtrbt_cases in Hupd
      as [(_ & -> & -> & Hnone & Hsome)|(_ & -> & -> & Hnone & Hfail)];
      unfold set_frame, grows; simpl; rewrite E1; simpl;
      rewrite list_insert_insert_eq, Hread, Hpf, Hnp, Hst, Hr, Hw.
    - destruct (strategyAttribute f) eqn:Ha.
      + rewrite (Hsome ltac:(simpl; congruence)).
        split_and!; try done; lia.
      + destruct (calloc_files _ _ _ (Hnone Ha)) as (_ & -> & ->).
        split_and!; try done; lia.
    - destruct (calloc_files _ _ _ Hfail) as (_ & -> & ->).
      split_and!; try done; lia. }
  destruct (data f0) as [buf|] eqn:Edata; simpl.
  - destruct (fopen w) as [[] w1] eqn:Hopen; [|done].
    destruct (updateBfrAtrbt _ _ _) as [[[rc1 w2] pool2] f2] eqn:Hupd.
    intros [= <- <- <-].
    refine (Hload f0 w w1 _ _ _ _ _ _ _ _ _ _ _ _ _ _ _ Hupd);
      simpl; try done.
    rewrite E. f_equal. symmetry. by apply list_insert_id.
  - destruct (calloc w) as [[] w0] eqn:Halloc; [|done].
    destruct (fopen w0) as [[] w1] eqn:Hopen; [|done].
    destruct (updateBfrAtrbt _ _ _) as [[[rc1 w2] pool2] f2] eqn:Hupd.
    intros [= <- <- <-].
    unfold set_frame in Hupd. rewrite E in Hupd. simpl in Hupd.
    refine (Hload (set_data _ f0) w0 w1 _ _ _ _ _ _ _ _ _ _ _ _ _ _ _ Hupd);
      simpl; try done; by apply (calloc_files w true).
Qed.

Lemma load_page_others w pool t page pNum rc w' pool' page' j :
  load_page w pool t page pNum = (rc, w', pool', page') →
  j ≠ t → frame_at pool' j = frame_at pool j.
Proof.
  intros Hload Hj. revert Hload. unfold load_page, frame_at.
  destruct (mgmtData pool) as [frames|] eqn:E;
    [|intros [= <- <- <- <-]; by rewrite E].
  destruct (frames !! t) as [f0|] eqn:Ef0;
    [|intros [= <- <- <- <-]; by rewrite E].
  assert (Hset : ∀ f1 f2 pool1 rc1 w1 w2 pool2 frames1,
    mgmtData pool1 = Some frames1 → frames1 !! j = frames !! j →
    updateBfrAtrbt w1 pool1 f1 = (rc1, w2, pool2, f2) →
    match mgmtData (set_frame t f2 pool2) with
    | Some frames2 => frames2 !! j
    | None => None
    end = frames !! j).
  { intros f1 f2 pool1 rc1 w1 w2 pool2 frames1 E1 Hsame Hupd.
    apply updateBfrAtrbt_cases in Hupd as [(_ & -> & -> & _)|(_ & -> & -> & _)];
      unfold set_frame; simpl; rewrite E1; simpl;
      by rewrite list_lookup_insert_ne. }
  destruct (data f0) as [buf|] eqn:Edata.
  - destruct (fopen w) as [[] w1]; [|intros [= <- <- <- <-]; by rewrite E].
    destruct (updateBfrAtrbt _ _ _) as [[[rc1 w2] pool2] f2] eqn:Hupd.
    intros [= <- <- <- <-]. by eapply (Hset _ _ _ _ _ _ _ frames), Hupd.
  - destruct (calloc w) as [[] w0]; [|intros [= <- <- <- <-]; by rewrite E].
    destruct (fopen w0) as [[] w1].
    + destruct (updateBfrAtrbt _ _ _) as [[[rc1 w2] pool2] f2] eqn:Hupd.
      intros [= <- <- <- <-].
      eapply (Hset _ _ _ _ _ _ _ (<[t := _]> frames)); [| |exact Hupd].
      * unfold set_frame. by rewrite E.
      * by rewrite list_lookup_insert_ne.
    + intros [= <- <- <- <-]. unfold set_frame. rewrite E. simpl.
      by rewrite list_lookup_insert_ne.
Qed.

(** The ways of a pin of a page that is not resident. *)
Lemma pinPage_miss_cases w pool frames page pNum rc w' pool' page' :
  mgmtData pool = Some frames → 0 ≤ pNum →
  list_find (λ f, pageNum f = pNum) frames = None →
  pinPage w pool page pNum = (rc, w', pool', page') →
  (∃ t e, list_find (λ f, pageNum f = NO_PAGE) frames = Some (t, e) ∧
          load_page w pool t page pNum = (rc, w', pool', page'))
  ∨ (list_find (λ f, pageNum f = NO_PAGE) frames = None ∧
     (strategyForFIFOandLRU pool).1 = -1 ∧
     (rc, w', pool', page') = (RC_NO_AVAILABLE_FRAME, w, normalize pool, page))
  ∨ (list_find (λ f, pageNum f = NO_PAGE) frames = None ∧
     ∃ t f fn,
       (strategyForFIFOandLRU pool).1 = Z.of_nat t ∧
       frames !! t = Some f ∧ fixCounts f = 0 ∧
       frame_at (normalize pool) t = Some fn ∧ same_frame f fn ∧
       dirty fn = dirty f ∧
       ((dirty f = false ∧
         load_page w (normalize pool) t page pNum = (rc, w', pool', page'))
        ∨ (dirty f = true ∧
           ∃ retVal w1 pool2,
             forcePage w (normalize pool) fn = (retVal, w1, pool2) ∧
             ((retVal = RC_OK ∧
               load_page w1 pool2 t page pNum = (rc, w', pool', page'))
              ∨ (retVal ≠ RC_OK ∧
                 (rc, w', pool', page') = (retVal, w1, pool2, page)))))).
Proof.
  intros E Hpos Hmiss. unfold pinPage. rewrite E, Hmiss.
  destruct (pNum <? 0) eqn:Hneg; [apply Z.ltb_lt in Hneg; lia|].
  destruct (list_find (λ f, pageNum f = NO_PAGE) frames) as [[t e]|] eqn:Eempty.
  { intros Hload. left. by exists t, e. }
  intros Hrest. right. revert Hrest.
  unfold strategyForFIFOandLRU. rewrite E. simpl.
  destruct (victim_scan_unpinned frames 0 (buffertimer pool) (-1))
    as [Hv|(t & f & Hv & Ht & Hfix)]; rewrite Hv.
  { intros [= <- <- <- <-]. by left. }
  assert ((0 + Z.of_nat t =? -1) = false) as -> by lia.
  replace (Z.to_nat (0 + Z.of_nat t)) with t by lia.
  destruct (normalize_kept pool t f) as (fn & Hfn & Hsame).
  { unfold frame_at. by rewrite E. }
  assert (dirty fn = dirty f) as Hdirty.
  { revert Hfn. unfold normalize, frame_at.
    destruct (32000 <? buffertimer pool); rewrite ?E; simpl.
    - rewrite list_lookup_fmap, Ht. intros [= <-].
      apply reset_attribute_dirty.
    - rewrite Ht. by intros [= <-]. }
  rewrite Hfn. intros Hrest. right. split; [done|].
  exists t, f, fn. split_and!; [lia|done..|].
  rewrite Hdirty in Hrest. destruct (dirty f).
  - right. split; [done|].
    destruct (forcePage w (normalize pool) fn) as [[retVal w1] pool2] eqn:Ef.
    exists retVal, w1, pool2. split; [done|].
    destruct (decide (retVal = RC_OK)); [by left|right].
    by split.
  - by left.
Qed.

(** The pin of a resident page, for any outcome of the allocation. *)
Lemma pinPage_hit w pool frames page pNum counter f rc w' pool' page' :
  mgmtData pool = Some frames → 0 ≤ pNum →
  list_find (λ f, pageNum f = pNum) frames = Some (counter, f) →
  pinPage w pool page pNum = (rc, w', pool', page') →
  rc = RC_OK ∧ mgmtData pool' = Some (<[counter := page']> frames) ∧
  pageNum page' = pNum ∧ data page' = data f ∧ dirty page' = dirty f ∧
  fixCounts page' = fixCounts f + 1 ∧
  grows pool pool' ∧ numberReadIO pool' = numberReadIO pool ∧
  numberWriteIO pool' = numberWriteIO pool ∧ disk w' = disk w.
Proof.
  intros E Hpos Hfind.
  pose proof Hfind as (Hc & Hp & _)%list_find_Some.
  unfold pinPage. rewrite E, Hfind.
  destruct (pNum <? 0) eqn:Hneg; [apply Z.ltb_lt in Hneg; lia|].
  destruct (recency_based (strategy pool)).
  - destruct (updateBfrAtrbt w pool f) as [[[rc1 w1] pool1] f1] eqn:Hupd.
    apply updateBfrAtrbt_cases in Hupd
      as [(_ & -> & -> & Hnone & Hsome)|(_ & -> & -> & Hnone & Hfail)];
      intros [= <- <- <- <-]; unfold grows; simpl; split_and!; try done.
    + destruct (strategyAttribute f) eqn:Ha.
      * by rewrite Hsome.
      * by apply (calloc_files w true), Hnone.
    + by apply (calloc_files w false).
  - intros [= <- <- <- <-]; unfold grows; simpl; by split_and!.
Qed.

Lemma map_insert_same {A} (proj : BM_PageHandle → A) frames i f g :
  frames !! i = Some f → proj g = proj f →
  map proj (<[i := g]> frames) = map proj frames.
Proof.
  intros Hi Hp. rewrite list_fmap_insert, Hp.
  apply list_insert_id. by rewrite list_lookup_fmap, Hi.
Qed.


Lemma forcePage_failure w pool page rc w' pool' :
  forcePage w pool page = (rc, w', pool') → rc ≠ RC_OK →
  pool' = pool ∧ disk w' = disk w.
Proof.
  unfold forcePage.
  destruct (mgmtData pool) as [frames|] eqn:E; [|by intros [= <- <- <-]].
  destruct (list_find _ frames) as [[counter f]|] eqn:Efind;
    [|by intros [= <- <- <-]].
  destruct (fopen w) as [[] w1] eqn:Hopen; intros [= <- <- <-]; [done|].
  intros _. split; [done|]. by rewrite (fopen_disk _ _ _ Hopen).
Qed.

Lemma forcePage_getFixCounts w pool page rc w' pool' :
  forcePage w pool page = (rc, w', pool') →
  getFixCounts pool' = getFixCounts pool.
Proof.
  unfold forcePage.
  destruct (mgmtData pool) as [frames|] eqn:E; [|by intros [= <- <- <-]].
  destruct (list_find _ frames) as [[counter f]|] eqn:Efind;
    [|by intros [= <- <- <-]].
  destruct (fopen w) as [[] w1]; intros [= <- <- <-]; [|done].
  apply list_find_Some in Efind as (Hc & _ & _).
  unfold getFixCounts. simpl. rewrite E. f_equal.
  by eapply map_insert_same.
Qed.

Lemma normalize_getFixCounts pool :
  getFixCounts (normalize pool) = getFixCounts pool.
Proof.
  unfold normalize, getFixCounts.
  destruct (32000 <? buffertimer pool); [|done].
  destruct (mgmtData pool) as [frames|] eqn:E; simpl; rewrite ?E; [|done].
  f_equal. rewrite map_map. apply map_ext. intros.
  apply reset_attribute_fixCounts.
Qed.

(** A load that fails: no read is counted, nothing is written, no pin count
    and no dirty flag changes. *)
Lemma load_page_failure_keeps w pool t page pNum rc w' pool' page' :
  load_page w pool t page pNum = (rc, w', pool', page') → rc ≠ RC_OK →
  page' = page ∧ numberReadIO pool' = numberReadIO pool ∧
  numberWriteIO pool' = numberWriteIO pool ∧
  getFixCounts pool' = getFixCounts pool ∧
  getDirtyFlags pool' = getDirtyFlags pool ∧ disk w' = disk w.
Proof.
  unfold load_page, frame_at.
  destruct (mgmtData pool) as [frames|] eqn:E; [|by intros [= <- <- <- <-]].
  destruct (frames !! t) as [f0|] eqn:Ef0; [|by intros [= <- <- <- <-]].
  destruct (data f0) as [buf|] eqn:Edata.
  - destruct (fopen w) as [[] w1] eqn:Hopen.
    + destruct (updateBfrAtrbt _ _ _) as [[[rc1 w2] pool2] f2].
      by intros [= <- <- <- <-].
    + intros [= <- <- <- <-] _. split_and!; try done.
      by rewrite (fopen_disk _ _ _ Hopen).
  - destruct (calloc w) as [[] w0] eqn:Halloc.
    + destruct (fopen w0) as [[] w1] eqn:Hopen.
      * destruct (updateBfrAtrbt _ _ _) as [[[rc1 w2] pool2] f2].
        by intros [= <- <- <- <-].
      * intros [= <- <- <- <-] _.
        unfold getFixCounts, getDirtyFlags, set_frame. rewrite E. simpl.
        rewrite !(map_insert_same _ _ _ f0) by done.
        split_and!; try done.
        rewrite (fopen_disk _ _ _ Hopen).
        by apply (calloc_files w true).
    + intros [= <- <- <- <-] _. split_and!; try done.
      by apply (calloc_files w false).
Qed.

(** ** Further properties of the operations *)

(** X1: the selector returns -1 or the index of a frame of the array whose pin
    count is zero: a pinned frame is never the victim, in any state. *)
Theorem victim_never_pinned pool frames :
  mgmtData pool = Some frames →
  (strategyForFIFOandLRU pool).1 = -1
  ∨ ∃ i f, (strategyForFIFOandLRU pool).1 = Z.of_nat i ∧
           frames !! i = Some f ∧ fixCounts f = 0.
Proof.
  intros E. unfold strategyForFIFOandLRU. rewrite E. simpl.
  destruct (victim_scan_unpinned frames 0 (buffertimer pool) (-1))
    as [->|(i & f & -> & Hi & Hf)]; [by left|].
  right. exists i, f. split_and!; [lia|done..].
Qed.

(** X2: the selector leaves a clock of at most 32000: a pool whose clock is at
    most 32000 is returned as it is, otherwise the clock is zero and every
    entry of the attribute array is zero. Page numbers, pin counts, dirty
    flags and the I/O counters are the same in both cases. *)
Theorem selector_normalizes_clock pool :
  buffertimer (strategyForFIFOandLRU pool).2 ≤ 32000
  ∧ (buffertimer pool ≤ 32000 → (strategyForFIFOandLRU pool).2 = pool)
  ∧ (32000 < buffertimer pool →
     buffertimer (strategyForFIFOandLRU pool).2 = 0 ∧
     ∀ l, getAttributionArray (strategyForFIFOandLRU pool).2 = Some l →
          Forall (eq 0) l)
  ∧ getFrameContents (strategyForFIFOandLRU pool).2 = getFrameContents pool
  ∧ getFixCounts (strategyForFIFOandLRU pool).2 = getFixCounts pool
  ∧ getDirtyFlags (strategyForFIFOandLRU pool).2 = getDirtyFlags pool
  ∧ getNumReadIO (strategyForFIFOandLRU pool).2 = getNumReadIO pool
  ∧ getNumWriteIO (strategyForFIFOandLRU pool).2 = getNumWriteIO pool.
Proof.
  unfold strategyForFIFOandLRU. simpl. unfold normalize.
  destruct (32000 <? buffertimer pool) eqn:Hlt.
  - apply Z.ltb_lt in Hlt.
    unfold getAttributionArray, getFrameContents, getFixCounts, getDirtyFlags,
      getNumReadIO, getNumWriteIO.
    destruct (mgmtData pool) as [frames|] eqn:E; simpl; rewrite ?E;
      (split_and!; [lia|lia| |try done..]).
    + intros _. split; [done|]. intros l [= <-].
      apply Forall_fmap, Forall_fmap, Forall_forall. intros f _. simpl.
      destruct (strategyAttribute (reset_attribute f)) as [a|] eqn:Ha; [|done].
      symmetry. by eapply reset_attribute_value.
    + f_equal. rewrite map_map. apply map_ext. intros f.
      by rewrite reset_attribute_data, reset_attribute_pageNum.
    + f_equal. rewrite map_map. apply map_ext. intros f.
      apply reset_attribute_fixCounts.
    + f_equal. rewrite map_map. apply map_ext. intros f.
      apply reset_attribute_dirty.
    + intros _. split; [done|]. by intros l.
  - apply Z.ltb_ge in Hlt. split_and!; try done. lia.
Qed.



(** X5: A pin that fails pins nothing and reads nothing: the caller's handle
    is untouched, the read counter, every pin count and every page number
    are as before. *)
Theorem failed_pin_keeps_pins w pool page pNum rc w' pool' page' :
  pinPage w pool page pNum = (rc, w', pool', page') → rc ≠ RC_OK →
  page' = page ∧ getNumReadIO pool' = getNumReadIO pool ∧
  getFixCounts pool' = getFixCounts pool ∧
  page_numbers pool' = page_numbers pool.
Proof.
  intros Hpin Hrc.
  split_and!; [| | |by eapply pinPage_failure].
  all: revert Hpin; unfold pinPage, getNumReadIO.
  all: destruct (mgmtData pool) as [frames|] eqn:E; [|by intros [= <- <- <- <-]].
  all: destruct (pNum <? 0); [by intros [= <- <- <- <-]|].
  all: destruct (list_find (λ f, pageNum f = pNum) frames) as [[counter f]|];
    [destruct (recency_based (strategy pool));
       [destruct (updateBfrAtrbt w pool f) as [[[rc1 w1] pool1] f1]|];
       by intros [= <- <- <- <-]|].
  all: destruct (list_find (λ f, pageNum f = NO_PAGE) frames) as [[i fe]|];
    [intros Hl; by destruct (load_page_failure_keeps _ _ _ _ _ _ _ _ _ Hl Hrc)
       as (? & ? & ? & ? & ? & ?)|].
  all: unfold strategyForFIFOandLRU; rewrite E; simpl.
  all: pose proof (normalize_getFixCounts pool) as Hfixn.
  all: assert (numberReadIO (normalize pool) = numberReadIO pool) as Hrn
    by (unfold normalize; destruct (32000 <? buffertimer pool);
        destruct (mgmtData pool); by simpl).
  all: destruct (victim_scan frames 0 (buffertimer pool) (-1) =? -1);
    [by intros [= <- <- <- <-]|].
  all: assert (Hload : ∀ w0, load_page w0 (normalize pool) (Z.to_nat
      (victim_scan frames 0 (buffertimer pool) (-1))) page pNum
      = (rc, w', pool', page') →
      page' = page ∧ numberReadIO pool' = numberReadIO pool ∧
      getFixCounts pool' = getFixCounts pool)
    by (intros w0 Hl;
        destruct (load_page_failure_keeps _ _ _ _ _ _ _ _ _ Hl Hrc)
          as (? & ? & ? & ? & ? & ?); split_and!; congruence).
  all: destruct (frame_at (normalize pool) _) as [tempHandle|];
    [|intros Hl; by destruct (Hload _ Hl) as (? & ? & ?)].
  all: destruct (dirty tempHandle);
    [|intros Hl; by destruct (Hload _ Hl) as (? & ? & ?)].
  all: destruct (forcePage w (normalize pool) tempHandle)
    as [[retVal w1] pool2] eqn:Eforce.
  all: pose proof (forcePage_getFixCounts _ _ _ _ _ _ Eforce) as Hfix2.
  all: pose proof (forcePage_grows _ _ _ _ _ _ Eforce) as (_ & Hr2 & _).
  all: destruct (decide (retVal = RC_OK));
    [intros Hl;
     destruct (load_page_failure_keeps _ _ _ _ _ _ _ _ _ Hl Hrc)
       as (? & ? & ? & ? & ? & ?); congruence
    |intros [= <- <- <- <-]; congruence].
Qed.

(** X6: while a frame is empty there is no eviction: the pin of a page that is
    not resident works on the first empty frame alone; every other frame,
    the page file and the write counter are as before, whatever it
    returns. *)
Theorem empty_frame_before_eviction w pool frames page pNum t e
    rc w' pool' page' :
  mgmtData pool = Some frames → 0 ≤ pNum →
  list_find (λ f, pageNum f = pNum) frames = None →
  list_find (λ f, pageNum f = NO_PAGE) frames = Some (t, e) →
  pinPage w pool page pNum = (rc, w', pool', page') →
  (∀ j, j ≠ t → frame_at pool' j = frames !! j) ∧
  disk w' = disk w ∧ getNumWriteIO pool' = getNumWriteIO pool ∧
  (rc = RC_OK → frame_at pool' t = Some page' ∧ pageNum page' = pNum).
Proof.
  intros E Hpos Hmiss Hempty Hpin. unfold getNumWriteIO.
  destruct (pinPage_miss_cases _ _ _ _ _ _ _ _ _ E Hpos Hmiss Hpin)
    as [(t' & e' & Hempty' & Hl)|[(Hnone & _)|(Hnone & _)]];
    [|congruence..].
  rewrite Hempty in Hempty'. injection Hempty' as <- <-.
  assert (∀ j, j ≠ t → frame_at pool' j = frames !! j) as Hothers.
  { intros j Hj. rewrite (load_page_others _ _ _ _ _ _ _ _ _ j Hl) by done.
    unfold frame_at. by rewrite E. }
  destruct (decide (rc = RC_OK)) as [->|Hrc].
  - apply load_page_success in Hl
      as (frames0 & f0 & E0 & Ht & E' & Hp & _ & _ & _ & _ & _ & Hw & _ & Hdisk).
    split_and!; try done. intros _. split; [|done].
    unfold frame_at. rewrite E'.
    apply list_lookup_insert_eq. eauto using lookup_lt_Some.
  - destruct (load_page_failure_keeps _ _ _ _ _ _ _ _ _ Hl Hrc)
      as (_ & _ & Hw & _ & _ & Hdisk).
    by split_and!.
Qed.


(** X8: in a reachable state a frame without content is empty, so that
    [getFrameContents] returns the page number of every frame. *)
Theorem getFrameContents_page_numbers w pool :
  reachable w pool → getFrameContents pool = page_numbers pool.
Proof.
  intros Hreach. pose proof (reachable_sound _ _ Hreach) as Hsound.
  unfold getFrameContents, page_numbers.
  destruct (mgmtData pool) as [frames|] eqn:E; [|done]. simpl. f_equal.
  destruct (Hsound _ E) as (_ & _ & _ & Hall).
  apply Forall_fmap_ext_1. eapply Forall_impl; [exact Hall|].
  intros f (_ & Hdata). simpl.
  destruct (data f); [done|]. symmetry. by apply Hdata.
Qed.

(** ** Counters and configuration *)









(** ** Initialization and shutdown *)

(** X11: [initBufferPool] on a file that opens (and with the frame array
    allocated) gives a pool of [numFrames] frames that are all empty, clean,
    unpinned and without attribute, with both counters at zero; on a file
    that does not open it returns [RC_FILE_NOT_FOUND] and leaves the pool
    as it was. *)
Theorem initBufferPool_fresh w pool fileName numFrames strat :
  ((fopen w).1 = false →
   initBufferPool w pool fileName numFrames strat
     = (RC_FILE_NOT_FOUND, (fopen w).2, pool))
  ∧ ((fopen w).1 = true → (calloc (fopen w).2).1 = true →
     ∃ w' pool',
       initBufferPool w pool fileName numFrames strat = (RC_OK, w', pool') ∧
       getFrameContents pool' = Some (replicate (Z.to_nat numFrames) NO_PAGE) ∧
       getFixCounts pool' = Some (replicate (Z.to_nat numFrames) 0) ∧
       getDirtyFlags pool' = Some (replicate (Z.to_nat numFrames) false) ∧
       getAttributionArray pool' = Some (replicate (Z.to_nat numFrames) 0) ∧
       getNumReadIO pool' = 0 ∧ getNumWriteIO pool' = 0 ∧
       strategy pool' = strat ∧ pageFile pool' = fileName ∧
       disk w' = disk w).
Proof.
  unfold initBufferPool. destruct (fopen w) as [[] w1] eqn:Hopen; simpl.
  - split; [done|]. intros _.
    destruct (calloc w1) as [[] w2] eqn:Halloc; simpl; [|done]. intros _.
    eexists _, _. split; [reflexivity|].
    unfold getFrameContents, getFixCounts, getDirtyFlags, getAttributionArray.
    simpl. rewrite !fmap_replicate. simpl. split_and!; try done.
    destruct (calloc_files _ _ _ Halloc) as (_ & _ & ->).
    by rewrite (fopen_disk _ _ _ Hopen).
  - by split.
Qed.

(** X12: shutdown safety: with a frame still pinned [shutdownBufferPool] returns
    [RC_SHUTDOWN_POOL_FAILED] before any flush, and pool and environment
    are as before. *)
Theorem shutdown_blocked_while_pinned w pool frames :
  mgmtData pool = Some frames →
  (∃ f, f ∈ frames ∧ fixCounts f ≠ 0) →
  shutdownBufferPool w pool = (RC_SHUTDOWN_POOL_FAILED, w, pool).
Proof.
  intros E (f & Hf & Hfix). unfold shutdownBufferPool. rewrite E.
  by destruct (list_find_elem_of (λ f, fixCounts f ≠ 0) frames f Hf Hfix)
    as [[i g] ->].
Qed.

(** X13: after a shutdown that returned [RC_OK] the pool has no frames: no frame
    was pinned when it was called, and every later request but
    [initBufferPool] returns [RC_POOL_NOT_INIT] and changes nothing; the
    array getters return [NULL]. *)
Theorem shutdown_ends_pool w pool w' pool' :
  shutdownBufferPool w pool = (RC_OK, w', pool') →
  (∀ frames, mgmtData pool = Some frames →
     Forall (λ f, fixCounts f = 0) frames) ∧
  (∀ r w0, uses_pool r = true →
     perform r w0 pool' = (RC_POOL_NOT_INIT, w0, pool')) ∧
  getFrameContents pool' = None ∧ getFixCounts pool' = None ∧
  getDirtyFlags pool' = None ∧ getAttributionArray pool' = None.
Proof.
  unfold shutdownBufferPool.
  destruct (mgmtData pool) as [frames|] eqn:E; [|done].
  destruct (list_find _ frames) as [[i g]|] eqn:Efind; [done|].
  destruct (forceFlushPool w pool) as [[ret w1] pool1].
  destruct (decide (ret = RC_OK)); [|by intros [= -> _ _]].
  intros [= <- <-]. split_and!; try done.
  - intros ? [= <-]. apply list_find_None in Efind.
    eapply Forall_impl; [exact Efind|]. simpl. intros f Hf.
    destruct (decide (fixCounts f = 0)); [done|by destruct Hf].
  - intros r w0 Hr. destruct r; try done.
Qed.

(** ** Return codes of a pin, and pinned pages under every request *)

Lemma load_page_codes w pool t page pNum rc w' pool' page' f0 :
  frame_at pool t = Some f0 →
  load_page w pool t page pNum = (rc, w', pool', page') →
  rc = RC_OK ∨ rc = RC_FILE_NOT_FOUND ∨ rc = RC_MEMORY_ALLOCATION_ERROR.
Proof.
  intros Ht. unfold load_page. rewrite Ht.
  destruct (data f0) as [buf|].
  - destruct (fopen w) as [[] w1]; [|intros [= <- _ _ _]; auto].
    destruct (updateBfrAtrbt _ _ _) as [[[rc1 w2] pool2] f2].
    intros [= <- _ _ _]. auto.
  - destruct (calloc w) as [[] w0]; [|intros [= <- _ _ _]; auto].
    destruct (fopen w0) as [[] w1]; [|intros [= <- _ _ _]; auto].
    destruct (updateBfrAtrbt _ _ _) as [[[rc1 w2] pool2] f2].
    intros [= <- _ _ _]. auto.
Qed.

Lemma forcePage_codes w pool page rc w' pool' frames f :
  mgmtData pool = Some frames → f ∈ frames → pageNum f = pageNum page →
  forcePage w pool page = (rc, w', pool') →
  rc = RC_OK ∨ rc = RC_FILE_NOT_FOUND.
Proof.
  intros E Hf Hp. unfold forcePage. rewrite E.
  destruct (list_find_elem_of (λ g, pageNum g = pageNum page) frames f Hf Hp)
    as [[i g] ->].
  destruct (fopen w) as [[] w1]; intros [= <- _ _]; auto.
Qed.

(** X18: [pinPage] returns [RC_NO_AVAILABLE_FRAME] exactly when the pool has
    frames, the page number is not negative, the page is not resident, no
    frame is empty and the selector finds no victim; and it never returns
    [RC_PAGE_NOT_FOUND], [RC_PAGE_NOT_PINNED] or
    [RC_SHUTDOWN_POOL_FAILED]. *)
Theorem no_available_frame_iff w pool page pNum rc w' pool' page' :
  pinPage w pool page pNum = (rc, w', pool', page') →
  (rc = RC_NO_AVAILABLE_FRAME ↔
   ∃ frames, mgmtData pool = Some frames ∧ 0 ≤ pNum ∧
     list_find (λ f, pageNum f = pNum) frames = None ∧
     list_find (λ f, pageNum f = NO_PAGE) frames = None ∧
     (strategyForFIFOandLRU pool).1 = -1)
  ∧ rc ≠ RC_PAGE_NOT_FOUND ∧ rc ≠ RC_PAGE_NOT_PINNED
  ∧ rc ≠ RC_SHUTDOWN_POOL_FAILED.
Proof.
  intros Hpin.
  destruct (mgmtData pool) as [frames|] eqn:E.
  2:{ revert Hpin. unfold pinPage. rewrite E. intros [= <- _ _ _].
      split_and!; try done. split; [done|]. by intros (? & ? & _). }
  destruct (decide (pNum < 0)) as [Hneg|Hpos].
  { revert Hpin. unfold pinPage. rewrite E.
    destruct (pNum <? 0) eqn:Hltb; [|apply Z.ltb_ge in Hltb; lia].
    intros [= <- _ _ _]. split_and!; try done.
    split; [done|]. intros (? & _ & ? & _). lia. }
  assert (0 ≤ pNum) as Hpos' by lia.
  destruct (list_find (λ f, pageNum f = pNum) frames) as [[counter g]|] eqn:Ehit.
  { destruct (pinPage_hit _ _ _ _ _ _ _ _ _ _ _ E Hpos' Ehit Hpin) as (-> & _).
    split_and!; try done. split; [done|].
    intros (? & [= <-] & _ & ? & _). congruence. }
  assert (Hcodes : ∀ w0 pool0 t f0,
    frame_at pool0 t = Some f0 →
    load_page w0 pool0 t page pNum = (rc, w', pool', page') →
    rc ≠ RC_NO_AVAILABLE_FRAME ∧ rc ≠ RC_PAGE_NOT_FOUND
    ∧ rc ≠ RC_PAGE_NOT_PINNED ∧ rc ≠ RC_SHUTDOWN_POOL_FAILED).
  { intros w0 pool0 t f0 Ht Hl.
    destruct (load_page_codes _ _ _ _ _ _ _ _ _ _ Ht Hl) as [-> | [-> | ->]];
      by split_and!. }
  destruct (pinPage_miss_cases _ _ _ _ _ _ _ _ _ E Hpos' Ehit Hpin)
    as [(t & e & Hempty & Hl)
       |[(Hfull & Hnone & Hres)
        |(Hfull & t & g & gn & Hvictim & Ht & Hg & Hgn & _ & _ & Hrest)]].
  - pose proof Hempty as (Hte & _ & _)%list_find_Some.
    destruct (Hcodes w pool t e) as (Hna & ? & ? & ?);
      [unfold frame_at; by rewrite E|done|].
    split_and!; try done. split; [done|].
    intros (? & [= <-] & _ & _ & ? & _). congruence.
  - injection Hres as -> _ _ _. split_and!; try done.
    split; [|done]. intros _. by exists frames.
  - assert (rc ≠ RC_NO_AVAILABLE_FRAME ∧ rc ≠ RC_PAGE_NOT_FOUND
            ∧ rc ≠ RC_PAGE_NOT_PINNED ∧ rc ≠ RC_SHUTDOWN_POOL_FAILED)
      as (Hna & ? & ? & ?).
    { destruct Hrest as [[_ Hl]|(_ & retVal & w1 & pool2 & Hforce & Hrest)].
      - by eapply Hcodes.
      - destruct Hrest as [[_ Hl]|[Hne Hres]].
        + destruct (forcePage_kept _ _ _ _ _ _ Hforce _ _ Hgn) as (f2 & Hf2 & _).
          by eapply Hcodes.
        + injection Hres as -> _ _ _.
          assert (∃ framesn, mgmtData (normalize pool) = Some framesn
                              ∧ gn ∈ framesn) as (framesn & En & Hin).
          { revert Hgn. unfold frame_at.
            destruct (mgmtData (normalize pool)) as [framesn|]; [|done].
            intros Hgn. exists framesn. split; [done|].
            by eapply list_elem_of_lookup_2. }
          destruct (forcePage_codes _ _ _ _ _ _ _ _ En Hin eq_refl Hforce)
            as [-> | ->]; by split_and!. }
    split_and!; try done. split; [done|].
    intros (? & _ & _ & _ & _ & Hminus). lia.
Qed.

Lemma forceFlushPool_loop_kept n counter w pool rc w' pool' :
  forceFlushPool_loop n counter w pool = (rc, w', pool') →
  frames_kept pool pool'.
Proof.
  revert counter w pool. induction n as [|n IH]; intros counter w pool; simpl.
  - intros [= <- <- <-]. apply frames_kept_refl.
  - destruct (frame_at pool counter) as [f|];
      [|intros [= <- <- <-]; apply frames_kept_refl].
    destruct (dirty f && (fixCounts f =? 0)); [|by apply IH].
    destruct (forcePage w pool f) as [[ret w1] pool1] eqn:Eforce.
    apply forcePage_kept in Eforce.
    destruct (decide (ret = RC_OK)); [|by intros [= <- <- <-]].
    intros Hrest. apply IH in Hrest.
    eapply frames_kept_trans; [exact Eforce|].
    eapply frames_kept_trans; [|exact Hrest].
    destruct (frame_at pool1 counter) as [f1|] eqn:Ef1;
      [|apply frames_kept_refl].
    revert Ef1. unfold frame_at, set_frame.
    destruct (mgmtData pool1) as [frames1|] eqn:E1; [|done]. intros Hc.
    by eapply (frames_kept_insert _ _ _ f1 (set_dirty false f1)).
Qed.

(** X19: a page that is pinned stays where it is under every request but
    [initBufferPool]: whatever shutdown, flushAll, markDirty, unpin,
    forcePage or pin returns, a frame that had a pin count other than zero
    and held a page holds the same page with the same content afterwards. *)
Theorem pinned_page_stays_resident r w pool frames rc w' pool' j f :
  uses_pool r = true → mgmtData pool = Some frames →
  perform r w pool = (rc, w', pool') →
  frames !! j = Some f → fixCounts f ≠ 0 → pageNum f ≠ NO_PAGE →
  ∃ f', frame_at pool' j = Some f' ∧
        pageNum f' = pageNum f ∧ data f' = data f.
Proof.
  intros Hr E Hstep Hj Hfix Hpage.
  assert (frame_at pool j = Some f) as Hat by (unfold frame_at; by rewrite E).
  assert (Hkept : ∀ pool1, frames_kept pool pool1 →
            ∃ f', frame_at pool1 j = Some f' ∧
                  pageNum f' = pageNum f ∧ data f' = data f).
  { intros pool1 Hk. destruct (Hk _ _ Hat) as (f' & Hf' & Hp & Hd & _).
    by exists f'. }
  destruct r; simpl in Hstep; [done|..].
  - assert (shutdownBufferPool w pool = (RC_SHUTDOWN_POOL_FAILED, w, pool))
      as Hblocked.
    { unfold shutdownBufferPool. rewrite E.
      by destruct (list_find_elem_of (λ f, fixCounts f ≠ 0) frames f
                     ltac:(by eapply list_elem_of_lookup_2) Hfix)
        as [[i g] ->]. }
    rewrite Hblocked in Hstep. injection Hstep as _ _ <-.
    apply Hkept, frames_kept_refl.
  - revert Hstep. unfold forceFlushPool. rewrite E. intros Hloop.
    by eapply Hkept, forceFlushPool_loop_kept.
  - revert Hstep. unfold markDirty. rewrite E.
    destruct (list_find _ frames) as [[i g]|] eqn:Efind;
      intros [= _ _ <-]; [|apply Hkept, frames_kept_refl].
    apply list_find_Some in Efind as (Hi & _ & _).
    eapply Hkept, (frames_kept_insert _ _ _ g (set_dirty true g)); done.
  - revert Hstep. unfold unpinPage. rewrite E.
    destruct (list_find _ frames) as [[i g]|] eqn:Efind;
      [|intros [= _ _ <-]; apply Hkept, frames_kept_refl].
    destruct (0 <? fixCounts g); intros [= _ _ <-];
      [|apply Hkept, frames_kept_refl].
    apply list_find_Some in Efind as (Hi & _ & _).
    unfold frame_at. simpl.
    destruct (decide (i = j)) as [->|Hne].
    + rewrite list_lookup_insert_eq by eauto using lookup_lt_Some.
      simplify_eq. by eexists.
    + rewrite list_lookup_insert_ne by done. by exists f.
  - by eapply Hkept, forcePage_kept.
  - destruct (pinPage w pool page pNum) as [[[rc1 w1] pool1] page1] eqn:Hpin.
    injection Hstep as _ _ ->.
    destruct (decide (pNum < 0)) as [Hneg|Hpos].
    { revert Hpin. unfold pinPage. rewrite E.
      destruct (pNum <? 0) eqn:Hltb; [|apply Z.ltb_ge in Hltb; lia].
      intros [= _ _ <- _]. apply Hkept, frames_kept_refl. }
    assert (0 ≤ pNum) as Hpos' by lia.
    destruct (list_find (λ f, pageNum f = pNum) frames) as [[counter g]|]
      eqn:Ehit.
    + destruct (pinPage_hit _ _ _ _ _ _ _ _ _ _ _ E Hpos' Ehit Hpin)
        as (_ & E' & Hp' & Hd' & _).
      apply list_find_Some in Ehit as (Hc & Hg & _).
      unfold frame_at. rewrite E'.
      destruct (decide (counter = j)) as [->|Hne].
      * rewrite list_lookup_insert_eq by eauto using lookup_lt_Some.
        simplify_eq. exists page1. split_and!; [done|congruence|done].
      * rewrite list_lookup_insert_ne by done. by exists f.
    + assert (Hload : ∀ w0 pool0 t,
        frames_kept pool pool0 → t ≠ j →
        load_page w0 pool0 t page pNum = (rc1, w1, pool', page1) →
        ∃ f', frame_at pool' j = Some f' ∧
              pageNum f' = pageNum f ∧ data f' = data f).
      { intros w0 pool0 t Hk Ht Hl.
        rewrite (load_page_others _ _ _ _ _ _ _ _ _ j Hl) by done.
        by apply Hkept. }
      destruct (pinPage_miss_cases _ _ _ _ _ _ _ _ _ E Hpos' Ehit Hpin)
        as [(t & e & Hempty & Hl)
           |[(_ & _ & Hres)
            |(_ & t & g & gn & _ & Ht & Hg & Hgn & _ & _ & Hrest)]].
      * apply list_find_Some in Hempty as (Ht & He & _).
        eapply (Hload w pool t); [apply frames_kept_refl| |done].
        intros ->. congruence.
      * injection Hres as _ _ -> _. apply Hkept, normalize_kept.
      * assert (t ≠ j) as Htj by (intros ->; congruence).
        destruct Hrest as [[_ Hl]|(_ & retVal & w2 & pool2 & Hforce & Hrest)].
        -- eapply (Hload w (normalize pool) t); [apply normalize_kept|done..].
        -- assert (frames_kept pool pool2) as Hk2.
           { eapply frames_kept_trans; [apply normalize_kept|].
             by eapply forcePage_kept. }
           destruct Hrest as [[_ Hl]|[_ Hres]].
           ++ by eapply (Hload w2 pool2 t).
           ++ injection Hres as _ _ -> _. by apply Hkept.
Qed.

(** ** The first 2^31 requests *)

(** Each request raises the clock, the read counter and a pin count by one
    at most, so that within [INT_MAX] requests of the pool's life none of
    them has passed [INT_MAX], the increment of the clock is the successor
    and every attribute is a clock value of the past. *)

Lemma frame_timed_mono n n' clock clock' f :
  frame_timed n clock f → n ≤ n' → clock ≤ clock' → frame_timed n' clock' f.
Proof.
  intros [Hfix Hattr] Hn Hc. split; [lia|].
  intros a Ha. specialize (Hattr _ Ha). lia.
Qed.

Lemma frames_timed_insert n clock frames i f g :
  Forall (frame_timed n clock) frames → frames !! i = Some f →
  strategyAttribute g = strategyAttribute f → fixCounts g ≤ fixCounts f →
  Forall (frame_timed n clock) (<[i := g]> frames).
Proof.
  intros Hall Hi Ha Hfix. apply Forall_insert; [done|].
  rewrite Forall_lookup in Hall. destruct (Hall _ _ Hi) as [Hf Hattr].
  split; [lia|]. by rewrite Ha.
Qed.

Lemma normalize_timed n pool : pool_timed n pool → pool_timed n (normalize pool).
Proof.
  intros Ht. unfold normalize.
  destruct (32000 <? buffertimer pool); [|done].
  intros frames'. destruct (mgmtData pool) as [frames|] eqn:E; simpl.
  - intros [= <-]. destruct (Ht _ E) as (Hc & Hr & Hall).
    split_and!; [lia..|].
    apply Forall_fmap. eapply Forall_impl; [exact Hall|].
    intros f [Hfix Hattr]. simpl. split.
    + by rewrite reset_attribute_fixCounts.
    + intros a Ha. apply reset_attribute_value in Ha. lia.
  - by rewrite E.
Qed.

Lemma forcePage_timed n w pool page rc w' pool' :
  pool_timed n pool → forcePage w pool page = (rc, w', pool') →
  pool_timed n pool'.
Proof.
  intros Ht. unfold forcePage.
  destruct (mgmtData pool) as [frames|] eqn:E; [|by intros [= <- <- <-]].
  destruct (list_find _ frames) as [[counter f]|] eqn:Efind;
    [|by intros [= <- <- <-]].
  destruct (fopen w) as [[] w1]; intros [= <- <- <-]; [|done].
  apply list_find_Some in Efind as (Hc & _ & _).
  intros frames' [= <-]. simpl. destruct (Ht _ E) as (Hclock & Hr & Hall).
  split_and!; [lia..|]. by eapply (frames_timed_insert _ _ _ _ f).
Qed.

Lemma markDirty_timed n pool page rc pool' :
  pool_timed n pool → markDirty pool page = (rc, pool') → pool_timed n pool'.
Proof.
  intros Ht. unfold markDirty.
  destruct (mgmtData pool) as [frames|] eqn:E; [|by intros [= <- <-]].
  destruct (list_find _ frames) as [[counter f]|] eqn:Efind;
    [|by intros [= <- <-]].
  intros [= <- <-].
  apply list_find_Some in Efind as (Hc & _ & _).
  intros frames' [= <-]. simpl. destruct (Ht _ E) as (Hclock & Hr & Hall).
  split_and!; [lia..|]. by eapply (frames_timed_insert _ _ _ _ f).
Qed.

Lemma unpinPage_timed n pool page rc pool' :
  pool_timed n pool → unpinPage pool page = (rc, pool') → pool_timed n pool'.
Proof.
  intros Ht. unfold unpinPage.
  destruct (mgmtData pool) as [frames|] eqn:E; [|by intros [= <- <-]].
  destruct (list_find _ frames) as [[counter f]|] eqn:Efind;
    [|by intros [= <- <-]].
  destruct (0 <? fixCounts f); intros [= <- <-]; [|done].
  apply list_find_Some in Efind as (Hc & _ & _).
  intros frames' [= <-]. simpl. destruct (Ht _ E) as (Hclock & Hr & Hall).
  split_and!; [lia..|].
  eapply (frames_timed_insert _ _ _ _ f); [done..|simpl; lia].
Qed.

Lemma initBufferPool_timed n m w pool fileName numFrames strat rc w' pool' :
  pool_timed n pool → n ≤ m → 0 ≤ m →
  initBufferPool w pool fileName numFrames strat = (rc, w', pool') →
  pool_timed m pool'.
Proof.
  intros Ht Hn Hm. unfold initBufferPool.
  destruct (fopen w) as [[] w1].
  - destruct (calloc w1) as [[] w2]; intros [= <- <- <-];
      intros frames [= <-]; simpl.
    split_and!; [lia..|].
    apply Forall_replicate. split; simpl; [lia|done].
  - intros [= <- <- <-]. intros frames E.
    destruct (Ht _ E) as (Hclock & Hr & Hall).
    split_and!; [lia..|].
    eapply Forall_impl; [exact Hall|].
    intros f Hf. eapply frame_timed_mono; [done|lia..].
Qed.

Lemma set_frame_clean_timed n pool counter f1 :
  pool_timed n pool → frame_at pool counter = Some f1 →
  pool_timed n (set_frame counter (set_dirty false f1) pool).
Proof.
  intros Ht. unfold frame_at, set_frame.
  destruct (mgmtData pool) as [frames|] eqn:E; [|done].
  intros Hc frames' [= <-]. simpl. destruct (Ht _ E) as (Hclock & Hr & Hall).
  split_and!; [lia..|]. by eapply (frames_timed_insert _ _ _ _ f1).
Qed.

Lemma forceFlushPool_loop_timed k n counter w pool rc w' pool' :
  pool_timed n pool →
  forceFlushPool_loop k counter w pool = (rc, w', pool') → pool_timed n pool'.
Proof.
  revert counter w pool. induction k as [|k IH]; intros counter w pool Ht; simpl.
  - by intros [= <- <- <-].
  - destruct (frame_at pool counter) as [f|] eqn:Ef; [|by intros [= <- <- <-]].
    destruct (dirty f && (fixCounts f =? 0)); [|by apply IH].
    destruct (forcePage w pool f) as [[ret w1] pool1] eqn:Eforce.
    apply (forcePage_timed n) in Eforce; [|done].
    destruct (decide (ret = RC_OK)); [|by intros [= <- <- <-]].
    apply IH. destruct (frame_at pool1 counter) eqn:Ef1; [|done].
    by apply set_frame_clean_timed.
Qed.

Lemma shutdownBufferPool_timed n w pool rc w' pool' :
  pool_timed n pool → shutdownBufferPool w pool = (rc, w', pool') →
  pool_timed n pool'.
Proof.
  intros Ht. unfold shutdownBufferPool, forceFlushPool.
  destruct (mgmtData pool) as [frames|]; [|by intros [= <- <- <-]].
  destruct (list_find _ _); [by intros [= <- <- <-]|].
  destruct (forceFlushPool_loop _ _ _ _) as [[ret w1] pool1] eqn:Eflush.
  apply (forceFlushPool_loop_timed _ n) in Eflush; [|done].
  destruct (decide (ret = RC_OK)); intros [= <- <- <-]; [|done].
  by intros frames0.
Qed.

(** The stamp of a frame while the clock is below [INT_MAX]. *)
Lemma updateBfrAtrbt_timed w pool h rc w' pool' h' :
  0 ≤ buffertimer pool < INT_MAX →
  updateBfrAtrbt w pool h = (rc, w', pool', h') →
  (pool' = set_buffertimer (buffertimer pool + 1) pool ∧
   h' = set_strategyAttribute (Some (buffertimer pool)) h)
  ∨ (pool' = pool ∧ h' = h).
Proof.
  intros Hclock Hupd.
  apply updateBfrAtrbt_cases in Hupd
    as [(_ & -> & -> & _)|(_ & -> & -> & _)]; [left|by right].
  by rewrite int_wrap_small by (unfold INT_MIN; lia).
Qed.

Lemma load_page_timed n w pool frameIndex page pNum rc w' pool' page' :
  pool_timed n pool → 0 ≤ n < INT_MAX →
  load_page w pool frameIndex page pNum = (rc, w', pool', page') →
  pool_timed (n + 1) pool'.
Proof.
  intros Ht Hn. unfold load_page, frame_at.
  assert (pool_timed (n + 1) pool) as Ht1.
  { intros frames E. destruct (Ht _ E) as (Hclock & Hr & Hall).
    split_and!; [lia..|].
    eapply Forall_impl; [exact Hall|].
    intros f Hf. eapply frame_timed_mono; [done|lia..]. }
  destruct (mgmtData pool) as [frames|] eqn:E; [|by intros [= <- <- <- <-]].
  destruct (frames !! frameIndex) as [f0|] eqn:Ef0; [|by intros [= <- <- <- <-]].
  destruct (Ht _ E) as (Hclock & Hr & Hall).
  assert (frame_timed n (buffertimer pool) f0) as [Hfix0 Hattr0].
  { rewrite Forall_lookup in Hall. by eapply Hall. }
  assert (Hload : ∀ f w1 pool1 rc1 w2 pool2 f2 buf',
    mgmtData pool1 = Some (<[frameIndex := f]> frames) →
    buffertimer pool1 = buffertimer pool →
    numberReadIO pool1 = numberReadIO pool + 1 →
    strategyAttribute f = strategyAttribute f0 →
    updateBfrAtrbt w1 pool1
      (set_dirty false (set_fixCounts 1 (set_pageNum pNum (set_data (Some buf') f))))
      = (rc1, w2, pool2, f2) →
    pool_timed (n + 1) (set_frame frameIndex f2 pool2)).
  { intros f w1 pool1 rc1 w2 pool2 f2 buf' E1 Hc1 Hr1 Ha Hupd.
    apply updateBfrAtrbt_timed in Hupd as [[-> ->]|[-> ->]]; [| |lia];
      unfold set_frame; simpl; rewrite E1; intros frames' [= <-]; simpl;
      rewrite list_insert_insert_eq, ?Hc1, Hr1;
      (split_and!; [lia..|]); apply Forall_insert.
    - eapply Forall_impl; [exact Hall|].
      intros g Hg. eapply frame_timed_mono; [done|lia..].
    - split; simpl; [lia|]. intros a [= <-]. lia.
    - eapply Forall_impl; [exact Hall|].
      intros g Hg. eapply frame_timed_mono; [done|lia..].
    - split; simpl; [lia|]. rewrite Ha. intros a Ha'.
      specialize (Hattr0 _ Ha'). lia. }
  destruct (data f0) as [buf|] eqn:Edata.
  - destruct (fopen w) as [[] w1]; [|by intros [= <- <- <- <-]].
    destruct (updateBfrAtrbt _ _ _) as [[[rc1 w2] pool2] f2] eqn:Hupd.
    intros [= <- <- <- <-].
    eapply (Hload f0); [| | | |exact Hupd]; simpl; [|done..].
    rewrite E. f_equal. symmetry. by apply list_insert_id.
  - destruct (calloc w) as [[] w0]; [|by intros [= <- <- <- <-]].
    destruct (fopen w0) as [[] w1].
    + destruct (updateBfrAtrbt _ _ _) as [[[rc1 w2] pool2] f2] eqn:Hupd.
      intros [= <- <- <- <-].
      eapply (Hload (set_data _ f0)); [| | | |exact Hupd];
        unfold set_frame; rewrite ?E; done.
    + intros [= <- <- <- <-]. unfold set_frame. rewrite E.
      intros frames' [= <-]. simpl.
      split_and!; [lia..|].
      eapply Forall_impl;
        [by eapply (frames_timed_insert _ _ _ _ f0 (set_data _ f0))|].
      intros g Hg. eapply frame_timed_mono; [done|lia..].
Qed.

Lemma pinPage_timed n w pool page pNum rc w' pool' page' :
  pool_timed n pool → 0 ≤ n < INT_MAX →
  pinPage w pool page pNum = (rc, w', pool', page') →
  pool_timed (n + 1) pool'.
Proof.
  intros Ht Hn.
  assert (Hmono : ∀ pool0, pool_timed n pool0 → pool_timed (n + 1) pool0).
  { intros pool0 Ht0 frames E. destruct (Ht0 _ E) as (Hclock & Hr & Hall).
    split_and!; [lia..|].
    eapply Forall_impl; [exact Hall|].
    intros f Hf. eapply frame_timed_mono; [done|lia..]. }
  unfold pinPage.
  destruct (mgmtData pool) as [frames|] eqn:E;
    [|intros [= <- <- <- <-]; by apply Hmono].
  destruct (pNum <? 0); [intros [= <- <- <- <-]; by apply Hmono|].
  destruct (Ht _ E) as (Hclock & Hr & Hall).
  destruct (list_find (λ f, pageNum f = pNum) frames) as [[counter f]|] eqn:Ehit.
  - apply list_find_Some in Ehit as (Hc & _ & _).
    assert (frame_timed n (buffertimer pool) f) as [Hfix Hattr].
    { rewrite Forall_lookup in Hall. by eapply Hall. }
    assert (Hothers : ∀ clock', buffertimer pool ≤ clock' →
              Forall (frame_timed (n + 1) clock') frames).
    { intros clock' Hle. eapply Forall_impl; [exact Hall|].
      intros g Hg. eapply frame_timed_mono; [done|lia..]. }
    destruct (recency_based (strategy pool)).
    + destruct (updateBfrAtrbt w pool f) as [[[rc1 w1] pool1] f1] eqn:Hupd.
      apply updateBfrAtrbt_timed in Hupd as [[-> ->]|[-> ->]]; [| |lia];
        intros [= <- <- <- <-]; intros frames' [= <-]; simpl;
        (split_and!; [lia..|]); (apply Forall_insert; [apply Hothers; lia|]);
        (split; simpl; [lia|]).
      * intros a [= <-]. lia.
      * intros a Ha. specialize (Hattr _ Ha). lia.
    + intros [= <- <- <- <-]; intros frames' [= <-]; simpl.
      split_and!; [lia..|]. apply Forall_insert; [apply Hothers; lia|].
      split; simpl; [lia|]. intros a Ha. specialize (Hattr _ Ha). lia.
  - destruct (list_find (λ f, pageNum f = NO_PAGE) frames) as [[i fe]|].
    + by apply load_page_timed.
    + unfold strategyForFIFOandLRU. rewrite E. simpl.
      pose proof (normalize_timed _ _ Ht) as Ht1.
      destruct (victim_scan frames 0 (buffertimer pool) (-1) =? -1);
        [intros [= <- <- <- <-]; by apply Hmono|].
      destruct (frame_at (normalize pool) _) as [tempHandle|];
        [|by apply load_page_timed].
      destruct (dirty tempHandle); [|by apply load_page_timed].
      destruct (forcePage w (normalize pool) tempHandle)
        as [[retVal w1] pool2] eqn:Eforce.
      pose proof (forcePage_timed _ _ _ _ _ _ _ Ht1 Eforce) as Ht2.
      destruct (decide (retVal = RC_OK));
        [|intros [= <- <- <- <-]; by apply Hmono].
      by apply load_page_timed.
Qed.

Lemma perform_timed n r w pool rc w' pool' :
  pool_timed n pool → 0 ≤ n < INT_MAX →
  perform r w pool = (rc, w', pool') → pool_timed (n + 1) pool'.
Proof.
  intros Ht Hn.
  assert (Hmono : ∀ pool0, pool_timed n pool0 → pool_timed (n + 1) pool0).
  { intros pool0 Ht0 frames E. destruct (Ht0 _ E) as (Hclock & Hr & Hall).
    split_and!; [lia..|].
    eapply Forall_impl; [exact Hall|].
    intros f Hf. eapply frame_timed_mono; [done|lia..]. }
  destruct r; simpl.
  - apply (initBufferPool_timed n); [done|lia..].
  - intros Hs. by eapply Hmono, shutdownBufferPool_timed.
  - unfold forceFlushPool.
    destruct (mgmtData pool); [|intros [= <- <- <-]; by apply Hmono].
    intros Hl. by eapply Hmono, forceFlushPool_loop_timed.
  - destruct (markDirty pool page) as [rc1 pool1] eqn:Em. intros [= <- <- <-].
    by eapply Hmono, markDirty_timed.
  - destruct (unpinPage pool page) as [rc1 pool1] eqn:Eu. intros [= <- <- <-].
    by eapply Hmono, unpinPage_timed.
  - intros Hf. by eapply Hmono, forcePage_timed.
  - destruct (pinPage w pool page pNum) as [[[rc1 w1] pool1] page1] eqn:Ep.
    intros [= <- <- <-]. by eapply pinPage_timed.
Qed.

Lemma run_timed_from rs n w pool :
  pool_timed n pool → 0 ≤ n → n + Z.of_nat (length rs) ≤ INT_MAX →
  pool_timed (n + Z.of_nat (length rs)) (run rs w pool).2.
Proof.
  revert n w pool. induction rs as [|r rs IH]; intros n w pool Ht Hn Hlen; simpl.
  - by rewrite Z.add_0_r.
  - destruct (perform r w pool) as [[rc w1] pool1] eqn:Estep.
    simpl in Hlen.
    replace (n + Z.of_nat (S (length rs)))
      with ((n + 1) + Z.of_nat (length rs)) by lia.
    apply IH; [|lia..]. eapply perform_timed; [done|lia|done].
Qed.

Lemma run_timed rs w pool :
  mgmtData pool = None → Z.of_nat (length rs) ≤ INT_MAX →
  pool_timed (Z.of_nat (length rs)) (run rs w pool).2.
Proof.
  intros Hnone Hlen.
  apply (run_timed_from rs 0); [|done|lia].
  intros frames. by rewrite Hnone.
Qed.

(** X9: in a run of at most [INT_MAX] requests on a pool that starts without
    frames, the array of pin counts has [numPages] entries and every pin
    count, the read counter and the clock lie between zero and the number
    of requests: none of these [int] has passed [INT_MAX]. *)
Theorem pin_counts_never_negative rs w pool l :
  mgmtData pool = None → Z.of_nat (length rs) ≤ INT_MAX →
  getFixCounts (run rs w pool).2 = Some l →
  length l = Z.to_nat (numPages (run rs w pool).2) ∧
  Forall (λ k, 0 ≤ k ≤ Z.of_nat (length rs)) l ∧
  0 ≤ getNumReadIO (run rs w pool).2 ≤ Z.of_nat (length rs) ∧
  0 ≤ buffertimer (run rs w pool).2 ≤ Z.of_nat (length rs).
Proof.
  intros Hnone Hlen.
  pose proof (run_timed rs w pool Hnone Hlen) as Ht.
  pose proof (reachable_sound _ _
                (run_reachable rs w pool (reachable_start w pool Hnone)))
    as Hsound.
  unfold getFixCounts, getNumReadIO.
  destruct (mgmtData (run rs w pool).2) as [frames|] eqn:E; [|done].
  intros [= <-].
  destruct (Hsound _ E) as (Hr & _ & Hcap & Hall).
  destruct (Ht _ E) as (Hclock & Hr' & Hall').
  rewrite length_map. split_and!; [done| |lia..].
  apply Forall_fmap, Forall_forall. intros f Hf. simpl.
  rewrite Forall_forall in Hall, Hall'.
  destruct (Hall _ Hf) as [Hfix _]. destruct (Hall' _ Hf) as [Hfix' _]. lia.
Qed.

(** X14: in a run of at most [INT_MAX] requests on a pool that starts
    without frames, every entry of the attribute array lies between zero
    and the clock. *)
Theorem attribute_array_bounds rs w pool l :
  mgmtData pool = None → Z.of_nat (length rs) ≤ INT_MAX →
  getAttributionArray (run rs w pool).2 = Some l →
  Forall (λ a, 0 ≤ a ≤ buffertimer (run rs w pool).2) l.
Proof.
  intros Hnone Hlen.
  pose proof (run_timed rs w pool Hnone Hlen) as Ht.
  unfold getAttributionArray.
  destruct (mgmtData (run rs w pool).2) as [frames|] eqn:E; [|done].
  intros [= <-].
  destruct (Ht _ E) as (Hclock & _ & Hall).
  apply Forall_fmap, Forall_forall. intros f Hf. simpl.
  rewrite Forall_forall in Hall. destruct (Hall _ Hf) as [_ Hattr].
  destruct (strategyAttribute f) as [a|] eqn:Ha; [by apply Hattr|lia].
Qed.

(** X21: in a run of at most [INT_MAX] requests on a pool that starts
    without frames, each attribute that is set is at most the clock; hence
    the selector, whose running minimum starts at the clock, returns the
    index of a frame of pin count zero whenever there is such a frame. *)
Theorem selector_finds_victim rs w pool frames :
  mgmtData pool = None → Z.of_nat (length rs) ≤ INT_MAX →
  mgmtData (run rs w pool).2 = Some frames →
  clock_dominates (buffertimer (run rs w pool).2) frames
  ∧ ((∃ f, f ∈ frames ∧ fixCounts f = 0) →
     ∃ i f, (strategyForFIFOandLRU (run rs w pool).2).1 = Z.of_nat i ∧
            frames !! i = Some f ∧ fixCounts f = 0).
Proof.
  intros Hnone Hlen E.
  destruct (run_timed rs w pool Hnone Hlen _ E) as (_ & _ & Hall).
  assert (clock_dominates (buffertimer (run rs w pool).2) frames) as Hclock.
  { intros f a Hf Ha. rewrite Forall_forall in Hall.
    destruct (Hall _ Hf) as [_ Hattr]. specialize (Hattr _ Ha). lia. }
  split; [done|]. intros (f & Hf & Hfix).
  unfold strategyForFIFOandLRU. rewrite E. simpl.
  destruct (list_find untouched frames) as [[i g]|] eqn:Efind.
  - rewrite (victim_scan_untouched _ _ _ _ _ _ Efind).
    apply list_find_Some in Efind as (Hi & [Hg _] & _).
    exists i, g. split_and!; [lia|done..].
  - destruct (victim_scan_minimum frames 0
                (buffertimer (run rs w pool).2) (-1) Efind)
      as [[_ Hmin]|(i & g & a & -> & Hi & Hg & _)].
    + exfalso. destruct (strategyAttribute f) as [b|] eqn:Hattr.
      * specialize (Hmin _ _ Hf Hfix Hattr). specialize (Hclock _ _ Hf Hattr).
        lia.
      * apply list_find_None in Efind. rewrite Forall_forall in Efind.
        by apply (Efind f).
    + exists i, g. split_and!; [lia|done..].
Qed.

(** ** Page buffers *)

(** A buffer comes from [calloc (PAGE_SIZE, 1)] and is changed by [fread]
    alone, which keeps its size: the block that [fwrite] takes from a frame
    is the whole content of the frame. *)

Lemma fread_length name offset size buf w :
  length buf = Z.to_nat size →
  length (fread name offset size buf w) = Z.to_nat size.
Proof.
  intros Hlen. unfold fread. cbv zeta.
  rewrite length_app, length_drop, length_take. lia.
Qed.

Lemma frames_sized_touch frames i f g :
  Forall frame_sized frames → frames !! i = Some f → data g = data f →
  Forall frame_sized (<[i := g]> frames).
Proof.
  intros Hall Hi Hd. apply Forall_insert; [done|].
  rewrite Forall_lookup in Hall. unfold frame_sized. rewrite Hd.
  by apply (Hall _ _ Hi).
Qed.

Lemma normalize_sized pool : pool_sized pool → pool_sized (normalize pool).
Proof.
  intros Hs. unfold normalize.
  destruct (32000 <? buffertimer pool); [|done].
  intros frames'. destruct (mgmtData pool) as [frames|] eqn:E; simpl.
  - intros [= <-]. apply Forall_fmap. eapply Forall_impl; [exact (Hs _ E)|].
    intros f Hf. simpl. unfold frame_sized. by rewrite reset_attribute_data.
  - by rewrite E.
Qed.

Lemma forcePage_sized w pool page rc w' pool' :
  pool_sized pool → forcePage w pool page = (rc, w', pool') → pool_sized pool'.
Proof.
  intros Hs. unfold forcePage.
  destruct (mgmtData pool) as [frames|] eqn:E; [|by intros [= <- <- <-]].
  destruct (list_find _ frames) as [[counter f]|] eqn:Efind;
    [|by intros [= <- <- <-]].
  destruct (fopen w) as [[] w1]; intros [= <- <- <-]; [|done].
  apply list_find_Some in Efind as (Hc & _ & _).
  intros frames' [= <-]. eapply (frames_sized_touch _ _ f); [by apply Hs|done..].
Qed.

Lemma markDirty_sized pool page rc pool' :
  pool_sized pool → markDirty pool page = (rc, pool') → pool_sized pool'.
Proof.
  intros Hs. unfold markDirty.
  destruct (mgmtData pool) as [frames|] eqn:E; [|by intros [= <- <-]].
  destruct (list_find _ frames) as [[counter f]|] eqn:Efind;
    [|by intros [= <- <-]].
  intros [= <- <-].
  apply list_find_Some in Efind as (Hc & _ & _).
  intros frames' [= <-]. eapply (frames_sized_touch _ _ f); [by apply Hs|done..].
Qed.

Lemma unpinPage_sized pool page rc pool' :
  pool_sized pool → unpinPage pool page = (rc, pool') → pool_sized pool'.
Proof.
  intros Hs. unfold unpinPage.
  destruct (mgmtData pool) as [frames|] eqn:E; [|by intros [= <- <-]].
  destruct (list_find _ frames) as [[counter f]|] eqn:Efind;
    [|by intros [= <- <-]].
  destruct (0 <? fixCounts f); intros [= <- <-]; [|done].
  apply list_find_Some in Efind as (Hc & _ & _).
  intros frames' [= <-]. eapply (frames_sized_touch _ _ f); [by apply Hs|done..].
Qed.

Lemma initBufferPool_sized w pool fileName numFrames strat rc w' pool' :
  pool_sized pool →
  initBufferPool w pool fileName numFrames strat = (rc, w', pool') →
  pool_sized pool'.
Proof.
  intros Hs. unfold initBufferPool.
  destruct (fopen w) as [[] w1]; [|by intros [= <- <- <-]].
  destruct (calloc w1) as [[] w2]; intros [= <- <- <-];
    intros frames [= <-].
  apply Forall_replicate. by intros buf.
Qed.

Lemma set_frame_clean_sized pool counter f1 :
  pool_sized pool → frame_at pool counter = Some f1 →
  pool_sized (set_frame counter (set_dirty false f1) pool).
Proof.
  intros Hs. unfold frame_at, set_frame.
  destruct (mgmtData pool) as [frames|] eqn:E; [|done].
  intros Hc frames' [= <-]. eapply (frames_sized_touch _ _ f1); [by apply Hs|done..].
Qed.

Lemma forceFlushPool_loop_sized n counter w pool rc w' pool' :
  pool_sized pool →
  forceFlushPool_loop n counter w pool = (rc, w', pool') → pool_sized pool'.
Proof.
  revert counter w pool. induction n as [|n IH]; intros counter w pool Hs; simpl.
  - by intros [= <- <- <-].
  - destruct (frame_at pool counter) as [f|] eqn:Ef; [|by intros [= <- <- <-]].
    destruct (dirty f && (fixCounts f =? 0)); [|by apply IH].
    destruct (forcePage w pool f) as [[ret w1] pool1] eqn:Eforce.
    apply forcePage_sized in Eforce; [|done].
    destruct (decide (ret = RC_OK)); [|by intros [= <- <- <-]].
    apply IH. destruct (frame_at pool1 counter) eqn:Ef1; [|done].
    by apply set_frame_clean_sized.
Qed.

Lemma shutdownBufferPool_sized w pool rc w' pool' :
  pool_sized pool → shutdownBufferPool w pool = (rc, w', pool') →
  pool_sized pool'.
Proof.
  intros Hs. unfold shutdownBufferPool, forceFlushPool.
  destruct (mgmtData pool) as [frames|]; [|by intros [= <- <- <-]].
  destruct (list_find _ _); [by intros [= <- <- <-]|].
  destruct (forceFlushPool_loop _ _ _ _) as [[ret w1] pool1] eqn:Eflush.
  apply forceFlushPool_loop_sized in Eflush; [|done].
  destruct (decide (ret = RC_OK)); intros [= <- <- <-]; [|done].
  by intros frames0.
Qed.

Lemma load_page_sized w pool frameIndex page pNum rc w' pool' page' :
  pool_sized pool →
  load_page w pool frameIndex page pNum = (rc, w', pool', page') →
  pool_sized pool'.
Proof.
  intros Hs. unfold load_page, frame_at.
  destruct (mgmtData pool) as [frames|] eqn:E; [|by intros [= <- <- <- <-]].
  destruct (frames !! frameIndex) as [f0|] eqn:Ef0; [|by intros [= <- <- <- <-]].
  pose proof (Hs _ E) as Hall.
  assert (Hload : ∀ f w1 pool1 rc1 w2 pool2 f2 buf',
    mgmtData pool1 = Some (<[frameIndex := f]> frames) →
    length buf' = Z.to_nat PAGE_SIZE →
    updateBfrAtrbt w1 pool1
      (set_dirty false (set_fixCounts 1 (set_pageNum pNum (set_data (Some buf') f))))
      = (rc1, w2, pool2, f2) →
    pool_sized (set_frame frameIndex f2 pool2)).
  { intros f w1 pool1 rc1 w2 pool2 f2 buf' E1 Hlen Hupd.
    apply updateBfrAtrbt_cases in Hupd
      as [(_ & -> & -> & _)|(_ & -> & -> & _)];
      unfold set_frame; simpl; rewrite E1; intros frames' [= <-];
      rewrite list_insert_insert_eq;
      (apply Forall_insert; [done|]); by intros buf [= <-]. }
  destruct (data f0) as [buf|] eqn:Edata.
  - destruct (fopen w) as [[] w1]; [|by intros [= <- <- <- <-]].
    destruct (updateBfrAtrbt _ _ _) as [[[rc1 w2] pool2] f2] eqn:Hupd.
    intros [= <- <- <- <-].
    eapply (Hload f0); [| |exact Hupd]; simpl.
    + rewrite E. f_equal. symmetry. by apply list_insert_id.
    + apply fread_length. rewrite Forall_lookup in Hall.
      by apply (Hall _ _ Ef0).
  - destruct (calloc w) as [[] w0]; [|by intros [= <- <- <- <-]].
    destruct (fopen w0) as [[] w1].
    + destruct (updateBfrAtrbt _ _ _) as [[[rc1 w2] pool2] f2] eqn:Hupd.
      intros [= <- <- <- <-].
      eapply (Hload (set_data _ f0)); [| |exact Hupd].
      * unfold set_frame. by rewrite E.
      * apply fread_length, length_replicate.
    + intros [= <- <- <- <-]. unfold set_frame. rewrite E.
      intros frames' [= <-]. apply Forall_insert; [done|].
      intros buf [= <-]. apply length_replicate.
Qed.

Lemma pinPage_sized w pool page pNum rc w' pool' page' :
  pool_sized pool →
  pinPage w pool page pNum = (rc, w', pool', page') → pool_sized pool'.
Proof.
  intros Hs. unfold pinPage.
  destruct (mgmtData pool) as [frames|] eqn:E; [|by intros [= <- <- <- <-]].
  destruct (pNum <? 0); [by intros [= <- <- <- <-]|].
  destruct (list_find (λ f, pageNum f = pNum) frames) as [[counter f]|] eqn:Ehit.
  - apply list_find_Some in Ehit as (Hc & _ & _).
    destruct (recency_based (strategy pool)).
    + destruct (updateBfrAtrbt w pool f) as [[[rc1 w1] pool1] f1] eqn:Hupd.
      apply updateBfrAtrbt_cases in Hupd
        as [(_ & -> & -> & _)|(_ & -> & -> & _)];
        intros [= <- <- <- <-]; intros frames' [= <-];
        (eapply (frames_sized_touch _ _ f); [by apply Hs|done..]).
    + intros [= <- <- <- <-]; intros frames' [= <-].
      eapply (frames_sized_touch _ _ f); [by apply Hs|done..].
  - destruct (list_find (λ f, pageNum f = NO_PAGE) frames) as [[i fe]|].
    + by apply load_page_sized.
    + unfold strategyForFIFOandLRU. rewrite E. simpl.
      pose proof (normalize_sized _ Hs) as Hs1.
      destruct (victim_scan frames 0 (buffertimer pool) (-1) =? -1);
        [by intros [= <- <- <- <-]|].
      destruct (frame_at (normalize pool) _) as [tempHandle|];
        [|by apply load_page_sized].
      destruct (dirty tempHandle); [|by apply load_page_sized].
      destruct (forcePage w (normalize pool) tempHandle)
        as [[retVal w1] pool2] eqn:Eforce.
      pose proof (forcePage_sized _ _ _ _ _ _ Hs1 Eforce) as Hs2.
      destruct (decide (retVal = RC_OK)); [|by intros [= <- <- <- <-]].
      by apply load_page_sized.
Qed.

Lemma perform_sized r w pool rc w' pool' :
  pool_sized pool → perform r w pool = (rc, w', pool') → pool_sized pool'.
Proof.
  intros Hs. destruct r; simpl.
  - by apply initBufferPool_sized.
  - by apply shutdownBufferPool_sized.
  - unfold forceFlushPool. destruct (mgmtData pool); [|by intros [= <- <- <-]].
    by apply forceFlushPool_loop_sized.
  - destruct (markDirty pool page) as [rc1 pool1] eqn:Em. intros [= <- <- <-].
    by eapply markDirty_sized.
  - destruct (unpinPage pool page) as [rc1 pool1] eqn:Eu. intros [= <- <- <-].
    by eapply unpinPage_sized.
  - by apply forcePage_sized.
  - destruct (pinPage w pool page pNum) as [[[rc1 w1] pool1] page1] eqn:Ep.
    intros [= <- <- <-]. by eapply pinPage_sized.
Qed.

Lemma reachable_sized w pool : reachable w pool → pool_sized pool.
Proof.
  induction 1 as [w pool Hnone|r w pool rc w' pool' _ IH Hstep].
  - intros frames. by rewrite Hnone.
  - by eapply perform_sized.
Qed.

(** ** Reachable states *)

Section NegativeSentinel.

(** [NO_PAGE] is no page number that [pinPage] accepts. *)
Hypothesis NO_PAGE_negative : NO_PAGE < 0.

Lemma pinPage_inv w pool page pNum rc w' pool' page' :
  pool_inv pool →
  pinPage w pool page pNum = (rc, w', pool', page') → pool_inv pool'.
Proof.
  intros Hinv. unfold pinPage.
  destruct (mgmtData pool) as [frames|] eqn:E; [|by intros [= <- <- <- <-]].
  destruct (pNum <? 0) eqn:Hneg; [by intros [= <- <- <- <-]|].
  apply Z.ltb_ge in Hneg.
  pose proof (Hinv _ E) as Hfr.
  destruct (list_find (λ f, pageNum f = pNum) frames) as [[counter f]|] eqn:Ehit.
  - apply list_find_Some in Ehit as (Hc & Hp & _).
    assert (Hbump : ∀ g,
      pageNum g = pageNum f → dirty g = dirty f →
      frames_inv (<[counter := g]> frames)).
    { intros g Hg Hd.
      eapply (frames_inv_insert _ _ f); [done|done|by left|..].
      - intros Hempty. lia.
      - intros Hempty. lia. }
    destruct (recency_based (strategy pool)).
    + destruct (updateBfrAtrbt w pool f) as [[[rc1 w1] pool1] f1] eqn:Hupd.
      apply updateBfrAtrbt_cases in Hupd
        as [(_ & -> & -> & _)|(_ & -> & -> & Hnone & _)];
        intros [= <- <- <- <-]; intros frames' [= <-]; simpl;
        by apply Hbump.
    + intros [= <- <- <- <-]; intros frames' [= <-]; simpl.
      by apply Hbump.
  - pose proof (list_find_None_not_resident _ _ _ E Ehit) as Hnot.
    assert (pNum ≠ NO_PAGE) as Hne by lia.
    destruct (list_find (λ f, pageNum f = NO_PAGE) frames) as [[i fe]|] eqn:Eempty.
    + by apply load_page_inv.
    + unfold strategyForFIFOandLRU. rewrite E. simpl.
      pose proof (normalize_inv _ Hinv) as Hinv1.
      assert (not_resident (normalize pool) pNum) as Hnot1.
      { intros l. rewrite normalize_page_numbers. apply Hnot. }
      destruct (victim_scan frames 0 (buffertimer pool) (-1) =? -1);
        [by intros [= <- <- <- <-]|].
      destruct (frame_at (normalize pool) _) as [tempHandle|];
        [|by apply load_page_inv].
      destruct (dirty tempHandle); [|by apply load_page_inv].
      destruct (forcePage w (normalize pool) tempHandle)
        as [[retVal w1] pool2] eqn:Eforce.
      pose proof (forcePage_inv _ _ _ _ _ _ Hinv1 Eforce) as Hinv2.
      destruct (decide (retVal = RC_OK)); [|by intros [= <- <- <- <-]].
      apply load_page_inv; [done..|].
      intros l. rewrite (forcePage_page_numbers _ _ _ _ _ _ Eforce). apply Hnot1.
Qed.

Lemma perform_inv r w pool rc w' pool' :
  pool_inv pool → perform r w pool = (rc, w', pool') → pool_inv pool'.
Proof.
  intros Hinv. destruct r; simpl.
  - by apply initBufferPool_inv.
  - by apply shutdownBufferPool_inv.
  - by apply forceFlushPool_inv.
  - destruct (markDirty pool page) as [rc1 pool1] eqn:Em. intros [= <- <- <-].
    by eapply markDirty_inv.
  - destruct (unpinPage pool page) as [rc1 pool1] eqn:Eu. intros [= <- <- <-].
    by eapply unpinPage_inv.
  - by apply forcePage_inv.
  - destruct (pinPage w pool page pNum) as [[[rc1 w1] pool1] page1] eqn:Ep.
    intros [= <- <- <-]. by eapply pinPage_inv.
Qed.

Lemma reachable_inv w pool : reachable w pool → pool_inv pool.
Proof.
  induction 1 as [w pool Hnone|r w pool rc w' pool' _ IH Hstep].
  - intros frames. by rewrite Hnone.
  - by eapply perform_inv.
Qed.

(** C2: in every state reached from a pool without frames by initialize,
    pin, unpin, markDirty, flushAll, forceFlushOne and shutdown requests, no
    two frames hold the same page number, unless it is the sentinel
    [NO_PAGE]. *)
Theorem residency_uniqueness w pool frames :
  reachable w pool → mgmtData pool = Some frames → residency_unique frames.
Proof.
  intros Hreach E. exact (inv_unique _ (reachable_inv _ _ Hreach _ E)).
Qed.

(** C3 (as the code has it): when every frame is pinned, the pin of a page
    that is not resident fails with [RC_NO_AVAILABLE_FRAME]; environment,
    page numbers, contents, pin counts, dirty flags and both I/O counters
    are as before, and so are clock and attributes while the clock is at most
    32000. Above 32000 the selector, although it finds no victim, has reset
    the clock and every attribute that is set to zero. *)
Theorem pin_without_victim w pool frames page pNum :
  reachable w pool → mgmtData pool = Some frames →
  Forall (λ f, 0 < fixCounts f) frames → 0 ≤ pNum → not_resident pool pNum →
  pinPage w pool page pNum = (RC_NO_AVAILABLE_FRAME, w, normalize pool, page)
  ∧ (buffertimer pool ≤ 32000 → normalize pool = pool)
  ∧ (32000 < buffertimer pool →
     normalize pool =
       set_buffertimer 0 (set_mgmtData (Some (map reset_attribute frames)) pool))
  ∧ Forall (λ f, pageNum (reset_attribute f) = pageNum f ∧
                 data (reset_attribute f) = data f ∧
                 dirty (reset_attribute f) = dirty f ∧
                 fixCounts (reset_attribute f) = fixCounts f) frames.
Proof.
  intros Hreach E Hpinned Hpos Hnot.
  pose proof (inv_empty _ (reachable_inv _ _ Hreach _ E)) as Hempty.
  split_and!.
  - unfold pinPage. rewrite E.
    destruct (pNum <? 0) eqn:Hneg; [apply Z.ltb_lt in Hneg; lia|].
    rewrite (not_resident_list_find _ _ _ E Hnot).
    assert (list_find (λ f, pageNum f = NO_PAGE) frames = None) as ->.
    { apply list_find_None, Forall_forall. intros f Hf Hp.
      rewrite Forall_forall in Hpinned.
      specialize (Hpinned _ Hf). specialize (Hempty _ Hf Hp). lia. }
    unfold strategyForFIFOandLRU. rewrite E. simpl.
    rewrite victim_scan_all_pinned; [done|].
    eapply Forall_impl; [exact Hpinned|]. simpl. intros; lia.
  - intros Hle. unfold normalize.
    by destruct (32000 <? buffertimer pool) eqn:Hlt; [apply Z.ltb_lt in Hlt; lia|].
  - intros Hlt. unfold normalize. rewrite E.
    by destruct (32000 <? buffertimer pool) eqn:Hle; [|apply Z.ltb_ge in Hle; lia].
  - apply Forall_forall. intros f _.
    by rewrite reset_attribute_pageNum, reset_attribute_data,
      reset_attribute_dirty, reset_attribute_fixCounts.
Qed.

Lemma flushed_page_in_range name f :
  offset_in_range (pageNum f) →
  flushed_page name f =
    (name, pageNum f * PAGE_SIZE, block_of PAGE_SIZE (data f)).
Proof. intros [_ Hrange]. unfold flushed_page. by rewrite seek_offset. Qed.

(** The block of a frame that holds a page is its content, and it goes to
    the offset of the page when that is in range. *)
Lemma flushed_page_content w pool frames f :
  reachable w pool → mgmtData pool = Some frames → f ∈ frames →
  offset_in_range (pageNum f) →
  ∃ buf, data f = Some buf ∧ length buf = Z.to_nat PAGE_SIZE ∧
    flushed_page (pageFile pool) f =
      (pageFile pool, pageNum f * PAGE_SIZE, Some buf).
Proof.
  intros Hreach E Hin Hrange.
  pose proof (reachable_sound _ _ Hreach _ E) as (_ & _ & _ & Hsound).
  pose proof (reachable_sized _ _ Hreach _ E) as Hsized.
  rewrite Forall_forall in Hsound, Hsized.
  destruct (Hsound _ Hin) as (_ & Hdata).
  destruct (data f) as [buf|] eqn:Ebuf.
  - pose proof (Hsized _ Hin _ Ebuf) as Hlen.
    exists buf. split_and!; [done..|].
    rewrite flushed_page_in_range by done. rewrite Ebuf. simpl.
    by rewrite take_ge by lia.
  - specialize (Hdata eq_refl). destruct Hrange as [Hpos _]. lia.
Qed.



(** C9: in a reachable state with an empty frame, a handle whose page number
    is the sentinel finds the first empty frame, [i]: [markDirty] returns
    [RC_OK], the dirty flag of frame [i] is set afterwards and nothing else
    has changed; [unpinPage] returns [RC_PAGE_NOT_PINNED] and changes
    nothing; [forcePage] does not return [RC_PAGE_NOT_FOUND]: when the file
    opens it returns [RC_OK] and has cleared the dirty flag of frame
    [i]. *)
Theorem sentinel_matches_empty_frame w pool frames page :
  reachable w pool → mgmtData pool = Some frames →
  pageNum page = NO_PAGE →
  (∃ g, g ∈ frames ∧ pageNum g = NO_PAGE) →
  ∃ i f pool' f',
    list_find (λ f, pageNum f = NO_PAGE) frames = Some (i, f) ∧
    markDirty pool page = (RC_OK, pool') ∧
    frame_at pool' i = Some f' ∧ dirty f' = true ∧
    pageNum f' = NO_PAGE ∧ data f' = data f ∧ fixCounts f' = 0 ∧
    strategyAttribute f' = strategyAttribute f ∧
    getDirtyFlags pool' = Some (<[i := true]> (map dirty frames)) ∧
    (∀ j, j ≠ i → frame_at pool' j = frames !! j) ∧
    unpinPage pool page = (RC_PAGE_NOT_PINNED, pool) ∧
    (forcePage w pool page).1.1 ≠ RC_PAGE_NOT_FOUND ∧
    ((fopen w).1 = true →
       (forcePage w pool page).1.1 = RC_OK ∧
       (dirty <$> frame_at (forcePage w pool page).2 i) = Some false).
Proof.
  intros Hreach E Hpage (g & Hg & Hempty).
  pose proof (inv_empty _ (reachable_inv _ _ Hreach _ E)) as Hunpinned.
  destruct (list_find_elem_of (λ f, pageNum f = NO_PAGE) frames g Hg Hempty)
    as [[i f] Hfind].
  pose proof Hfind as (Hi & Hf & _)%list_find_Some.
  assert (Hlen : (i < length frames)%nat) by eauto using lookup_lt_Some.
  assert (fixCounts f = 0) as Hfix.
  { apply Hunpinned; [by eapply list_elem_of_lookup_2|done]. }
  exists i, f. eexists _, _. split; [done|].
  unfold markDirty, unpinPage, forcePage, getDirtyFlags, frame_at.
  rewrite E, Hpage, Hfind. simpl.
  split_and!.
  - reflexivity.
  - by apply list_lookup_insert_eq.
  - reflexivity.
  - done.
  - done.
  - done.
  - done.
  - simpl. f_equal. apply (list_fmap_insert dirty).
  - intros j Hj. by apply list_lookup_insert_ne.
  - by rewrite Hfix.
  - by destruct (fopen w) as [[] w1].
  - destruct (fopen w) as [[] w1]; [|done]. intros _. simpl.
    split; [done|]. by rewrite list_lookup_insert_eq.
Qed.

(** ** Further properties of reachable states *)

Lemma flushable_clean f : flushable (clean f) = false.
Proof.
  unfold clean. destruct (flushable f) eqn:Hf; [|done].
  by unfold flushable.
Qed.

Lemma flush_frames_nothing name frames w writes :
  Forall (λ f, flushable f = false) frames →
  flush_frames name frames w writes = (RC_OK, w, writes, frames).
Proof.
  induction 1 as [|f frames Hf _ IH]; simpl; [done|].
  by rewrite Hf, IH.
Qed.

(** X15: A flush that succeeded leaves nothing to flush: in a reachable state,
    after [forceFlushPool] returned [RC_OK] no frame of pin count zero is
    dirty, and a second [forceFlushPool] returns [RC_OK] without opening
    the file, writing a page or changing the pool. *)
Theorem flush_twice w pool w1 pool1 :
  reachable w pool → forceFlushPool w pool = (RC_OK, w1, pool1) →
  forceFlushPool w1 pool1 = (RC_OK, w1, pool1) ∧
  ∀ frames1 f, mgmtData pool1 = Some frames1 → f ∈ frames1 →
               fixCounts f = 0 → dirty f = false.
Proof.
  intros Hreach Hflush.
  pose proof (reachable_inv _ _ Hreach) as Hinv.
  pose proof (forceFlushPool_inv _ _ _ _ _ Hinv Hflush) as Hinv1.
  revert Hflush. unfold forceFlushPool at 1.
  destruct (mgmtData pool) as [frames|] eqn:E; [|done].
  pose proof (forceFlushPool_loop_flush_frames frames [] w pool Hinv E) as Hloop.
  cbn [length] in Hloop. rewrite Hloop. clear Hloop.
  destruct (flush_frames _ _ _ _) as [[[rc w'] n] frames'] eqn:Hspec.
  intros [= -> -> <-].
  apply flush_frames_spec in Hspec
    as (flushed & rest & Hsplit & -> & -> & _ & _ & Hrc).
  destruct Hrc as [[_ ->]|[Hrc _]]; [|done].
  rewrite app_nil_r. simpl.
  assert (Forall (λ f, flushable f = false) (map clean flushed)) as Hclean.
  { apply Forall_fmap, Forall_forall. intros f _. apply flushable_clean. }
  split.
  - unfold forceFlushPool. simpl.
    pose proof (forceFlushPool_loop_flush_frames (map clean flushed) [] w1
      (set_mgmtData (Some (map clean flushed))
         (set_numberWriteIO
            (numberWriteIO pool
             + Z.of_nat (length (filter flushable flushed))) pool))) as Hloop.
    cbn [length] in Hloop. rewrite Hloop; [|by rewrite app_nil_r in Hinv1|done].
    by rewrite (flush_frames_nothing _ _ _ _ Hclean).
  - intros frames1 f [= <-] Hf Hfix.
    rewrite Forall_forall in Hclean. specialize (Hclean _ Hf).
    unfold flushable in Hclean. rewrite Hfix in Hclean.
    by destruct (dirty f).
Qed.



(** X20: what is marked dirty is written by the next flush: in a reachable
    state, after [markDirty] of a resident page whose frame has pin count
    zero and whose offset is in the range of [int], a [forceFlushPool] that
    returns [RC_OK], with no write that fails, has added the content of that
    frame at the offset of its page to the page file and left the frame
    clean. *)
Theorem marked_page_is_flushed w pool frames page i f w' pool' :
  reachable w pool → mgmtData pool = Some frames →
  list_find (λ g, pageNum g = pageNum page) frames = Some (i, f) →
  fixCounts f = 0 → offset_in_range (pageNum page) →
  Forall (eq true) (fwrite_results w) →
  forceFlushPool w (markDirty pool page).2 = (RC_OK, w', pool') →
  (markDirty pool page).1 = RC_OK ∧
  (∃ buf written,
     data f = Some buf ∧ length buf = Z.to_nat PAGE_SIZE ∧
     disk w' = written ++ disk w ∧
     (pageFile pool, pageNum page * PAGE_SIZE, Some buf) ∈ written) ∧
  (dirty <$> frame_at pool' i) = Some false.
Proof.
  intros Hreach E Hfind Hfix Hrange Hwrites.
  assert (markDirty pool page
          = (RC_OK, set_mgmtData (Some (<[i := set_dirty true f]> frames)) pool))
    as Hmark by (unfold markDirty; by rewrite E, Hfind).
  rewrite Hmark. simpl.
  set (pool1 := set_mgmtData (Some (<[i := set_dirty true f]> frames)) pool).
  assert (reachable w pool1) as Hreach1.
  { eapply (reachable_step (ReqMarkDirty page)); [exact Hreach|].
    simpl. by rewrite Hmark. }
  pose proof (reachable_inv _ _ Hreach1) as Hinv1.
  apply list_find_Some in Hfind as (Hi & Hp & _).
  assert (Hlen : (i < length frames)%nat) by eauto using lookup_lt_Some.
  rewrite <- Hp in Hrange.
  destruct (flushed_page_content w pool frames f Hreach E
              ltac:(by eapply list_elem_of_lookup_2) Hrange)
    as (buf & Hbuf & Hsize & Hentry).
  unfold forceFlushPool. simpl.
  pose proof (forceFlushPool_loop_flush_frames
                (<[i := set_dirty true f]> frames) [] w pool1 Hinv1 eq_refl)
    as Hloop.
  cbn [length] in Hloop. rewrite Hloop. clear Hloop.
  destruct (flush_frames _ _ _ _) as [[[rc w2] n] frames'] eqn:Hspec.
  intros [= -> -> <-].
  apply flush_frames_spec in Hspec
    as (flushed & rest & Hsplit & -> & -> & Hdisk & _ & Hrc).
  destruct Hrc as [[_ ->]|[Hrc _]]; [|done].
  rewrite app_nil_r in Hsplit. subst flushed.
  rewrite landed_all in Hdisk by done.
  assert (flushable (set_dirty true f) = true) as Hflushable.
  { unfold flushable. simpl. by rewrite Hfix. }
  split_and!; [done| |].
  - exists buf. eexists. split; [done|]. split; [done|]. split; [exact Hdisk|].
    apply list_elem_of_In, in_rev. rewrite rev_involutive.
    apply list_elem_of_In.
    rewrite <- Hp, <- Hentry.
    change (flushed_page (pageFile pool) f)
      with (flushed_page (pageFile pool1) (set_dirty true f)).
    apply (list_elem_of_fmap_2 (flushed_page (pageFile pool1))),
      list_elem_of_filter.
    split; [by rewrite Hflushable|].
    eapply list_elem_of_lookup_2. by apply list_lookup_insert_eq.
  - unfold frame_at. simpl. rewrite app_nil_r, list_lookup_fmap.
    rewrite list_lookup_insert_eq by done. simpl.
    unfold clean. by rewrite Hflushable.
Qed.

End NegativeSentinel.

End BufferManager.

(** * Scenarios *)

Lemma run_cons PAGE_SIZE NO_PAGE r rs w pool :
  run PAGE_SIZE NO_PAGE (r :: rs) w pool =
  let '(_, w', pool') := perform PAGE_SIZE NO_PAGE r w pool in
  run PAGE_SIZE NO_PAGE rs w' pool'.
Proof. reflexivity. Qed.

(** A read of a file that was never written leaves the buffer as it is. *)
Lemma fread_quiet name offset size buf :
  fread name offset size buf quiet_world = buf.
Proof. unfold fread. simpl. by rewrite drop_nil, take_nil. Qed.

#[local] Arguments fread : simpl never.
#[local] Arguments int_wrap : simpl never.

(** One request on explicit frames: the comparisons with the sentinel are
    settled by cases, the reads by [fread_quiet], the rest by computation. *)
Ltac settle := cbn; change (Z.to_nat 0) with 0%nat; cbn.

Ltac symbolic_step :=
  repeat (settle; case_decide; try lia); settle;
  unfold load_page; settle;
  rewrite ?fread_quiet;
  vm_compute; try reflexivity.

(** C5 (as the code has it): capacity 3, FIFO, fresh pool. Pin page 0, 1, 2,
    each released after its pin: the pool is full, three reads, no write, no
    eviction. The pin of page 3 then selects frame 0, which holds page 0, the
    oldest load; afterwards that frame holds page 3 and the read counter
    is 4. *)
Theorem fifo_scenario (PAGE_SIZE NO_PAGE : Z) :
  NO_PAGE < 0 →
  let '(w, pool) :=
    run PAGE_SIZE NO_PAGE fifo_fill_released quiet_world unborn_pool in
  page_numbers pool = Some [0; 1; 2]
  ∧ numberReadIO pool = 3 ∧ numberWriteIO pool = 0
  ∧ (strategyForFIFOandLRU pool).1 = 0
  ∧ let '(rc, _, pool', page') :=
      pinPage PAGE_SIZE NO_PAGE w pool (handle_of 0) 3 in
    rc = RC_OK ∧ page_numbers pool' = Some [3; 1; 2]
    ∧ numberReadIO pool' = 4 ∧ numberWriteIO pool' = 0
    ∧ pageNum page' = 3.
Proof.
  intros Hneg.
  pose (buf := replicate (Z.to_nat PAGE_SIZE) Byte.x00).
  pose (e := empty_frame NO_PAGE).
  pose (fr n t k := mkPageHandle n (Some buf) false k (Some t)).
  pose (pl frames r t :=
          mkBufferPool "pages.bin" 3 RS_FIFO (Some frames) r 0 t).
  unfold fifo_fill_released.
  assert (perform PAGE_SIZE NO_PAGE (ReqInit "pages.bin" 3 RS_FIFO)
            quiet_world unborn_pool
          = (RC_OK, quiet_world, pl [e; e; e] 0 0)) as Hstep by reflexivity.
  rewrite run_cons, Hstep; cbv beta iota; clear Hstep.
  assert (perform PAGE_SIZE NO_PAGE (ReqPin (handle_of 0) 0) quiet_world
            (pl [e; e; e] 0 0)
          = (RC_OK, quiet_world, pl [fr 0 0 1; e; e] 1 1)) as Hstep
    by (subst pl fr e buf; symbolic_step).
  rewrite run_cons, Hstep; cbv beta iota; clear Hstep.
  assert (perform PAGE_SIZE NO_PAGE (ReqUnpin (handle_of 0)) quiet_world
            (pl [fr 0 0 1; e; e] 1 1)
          = (RC_OK, quiet_world, pl [fr 0 0 0; e; e] 1 1)) as Hstep
    by (subst pl fr e buf; symbolic_step).
  rewrite run_cons, Hstep; cbv beta iota; clear Hstep.
  assert (perform PAGE_SIZE NO_PAGE (ReqPin (handle_of 0) 1) quiet_world
            (pl [fr 0 0 0; e; e] 1 1)
          = (RC_OK, quiet_world, pl [fr 0 0 0; fr 1 1 1; e] 2 2)) as Hstep
    by (subst pl fr e buf; symbolic_step).
  rewrite run_cons, Hstep; cbv beta iota; clear Hstep.
  assert (perform PAGE_SIZE NO_PAGE (ReqUnpin (handle_of 1)) quiet_world
            (pl [fr 0 0 0; fr 1 1 1; e] 2 2)
          = (RC_OK, quiet_world, pl [fr 0 0 0; fr 1 1 0; e] 2 2)) as Hstep
    by (subst pl fr e buf; symbolic_step).
  rewrite run_cons, Hstep; cbv beta iota; clear Hstep.
  assert (perform PAGE_SIZE NO_PAGE (ReqPin (handle_of 0) 2) quiet_world
            (pl [fr 0 0 0; fr 1 1 0; e] 2 2)
          = (RC_OK, quiet_world, pl [fr 0 0 0; fr 1 1 0; fr 2 2 1] 3 3))
    as Hstep by (subst pl fr e buf; symbolic_step).
  rewrite run_cons, Hstep; cbv beta iota; clear Hstep.
  assert (perform PAGE_SIZE NO_PAGE (ReqUnpin (handle_of 2)) quiet_world
            (pl [fr 0 0 0; fr 1 1 0; fr 2 2 1] 3 3)
          = (RC_OK, quiet_world, pl [fr 0 0 0; fr 1 1 0; fr 2 2 0] 3 3))
    as Hstep by (subst pl fr e buf; symbolic_step).
  rewrite run_cons, Hstep; cbv beta iota; clear Hstep.
  cbn [run].
  assert (pinPage PAGE_SIZE NO_PAGE quiet_world
            (pl [fr 0 0 0; fr 1 1 0; fr 2 2 0] 3 3) (handle_of 0) 3
          = (RC_OK, quiet_world, pl [fr 3 3 1; fr 1 1 0; fr 2 2 0] 4 4,
             fr 3 3 1)) as ->
    by (subst pl fr e buf; symbolic_step).
  split_and!; reflexivity.
Qed.

(** ** The clock past [INT_MAX] *)

Lemma run_app PAGE_SIZE NO_PAGE rs1 rs2 w pool :
  run PAGE_SIZE NO_PAGE (rs1 ++ rs2) w pool =
  run PAGE_SIZE NO_PAGE rs2
    (run PAGE_SIZE NO_PAGE rs1 w pool).1 (run PAGE_SIZE NO_PAGE rs1 w pool).2.
Proof.
  revert w pool. induction rs1 as [|r rs1 IH]; intros w pool; simpl; [done|].
  destruct (perform PAGE_SIZE NO_PAGE r w pool) as [[rc w1] pool1]. apply IH.
Qed.

(** A release and the next pin of the page of the one frame: the pin is a
    hit under LRU, the attribute becomes the clock and the clock moves on
    by one, as an [int]. *)
Lemma repin_once PAGE_SIZE NO_PAGE attribute clock :
  run PAGE_SIZE NO_PAGE repin quiet_world (hot_pool PAGE_SIZE 1 attribute clock)
  = (quiet_world, hot_pool PAGE_SIZE 1 clock (int_wrap (clock + 1))).
Proof. reflexivity. Qed.

Lemma repin_many n : ∀ PAGE_SIZE NO_PAGE attribute clock,
  0 ≤ clock → clock + Z.of_nat n ≤ INT_MAX →
  run PAGE_SIZE NO_PAGE (concat (replicate (S n) repin)) quiet_world
    (hot_pool PAGE_SIZE 1 attribute clock)
  = (quiet_world,
     hot_pool PAGE_SIZE 1 (clock + Z.of_nat n)
       (int_wrap (clock + Z.of_nat n + 1))).
Proof.
  induction n as [|n IH]; intros PAGE_SIZE NO_PAGE attribute clock Hpos Hmax.
  - cbn [replicate concat]. rewrite app_nil_r, repin_once.
    by rewrite Z.add_0_r.
  - rewrite replicate_S. cbn [concat]. rewrite run_app, repin_once.
    cbn [fst snd].
    rewrite int_wrap_small by (unfold INT_MIN; lia).
    rewrite IH by lia.
    by replace (clock + 1 + Z.of_nat n) with (clock + Z.of_nat (S n)) by lia.
Qed.

(** C10: the code does not keep the clock above the attributes. One frame
    under LRU, its page pinned once, then released and pinned again
    [INT_MAX] times, and released: no request calls the selector, which
    alone resets the clock, and the last pin takes the clock from [INT_MAX]
    to [INT_MIN]. In the state reached the attribute of the frame,
    [INT_MAX], is above the clock; the frame has pin count zero and yet the
    selector finds no victim, and the pin of page 1 fails with
    [RC_NO_AVAILABLE_FRAME]. *)
Theorem clock_overflow :
  let state :=
    run 4096 (-1) (repin_requests (Z.to_nat INT_MAX)) quiet_world unborn_pool in
  reachable 4096 (-1) state.1 state.2 ∧
  state.2 = hot_pool 4096 0 INT_MAX INT_MIN ∧
  ¬ clock_dominates (buffertimer state.2) (default [] (mgmtData state.2)) ∧
  (∃ f, f ∈ default [] (mgmtData state.2) ∧ fixCounts f = 0) ∧
  (strategyForFIFOandLRU state.2).1 = -1 ∧
  (pinPage 4096 (-1) state.1 state.2 (handle_of 0) 1).1.1.1
    = RC_NO_AVAILABLE_FRAME.
Proof.
  intros state.
  assert (reachable 4096 (-1) state.1 state.2) as Hreach
    by (apply run_reachable, reachable_start; reflexivity).
  assert (state = (quiet_world, hot_pool 4096 0 INT_MAX INT_MIN)) as Hrun.
  { subst state. unfold repin_requests.
    assert (run 4096 (-1) first_pin_requests quiet_world unborn_pool
            = (quiet_world, hot_pool 4096 1 0 1)) as Hfirst
      by (vm_compute; reflexivity).
    rewrite !run_app, Hfirst. cbn [fst snd].
    replace (Z.to_nat INT_MAX) with (S (Z.to_nat (INT_MAX - 1)))
      by (unfold INT_MAX; lia).
    rewrite repin_many by (unfold INT_MAX; lia).
    cbn [fst snd].
    replace (1 + Z.of_nat (Z.to_nat (INT_MAX - 1))) with INT_MAX
      by (unfold INT_MAX; lia).
    reflexivity. }
  clearbody state. subst state. cbn [fst snd].
  split_and!.
  - exact Hreach.
  - reflexivity.
  - intros Hclock.
    specialize (Hclock (hot_frame 4096 0 INT_MAX) INT_MAX
                  ltac:(apply list_elem_of_here) eq_refl).
    vm_compute in Hclock. by apply Hclock.
  - exists (hot_frame 4096 0 INT_MAX). split; [apply list_elem_of_here|done].
  - vm_compute. reflexivity.
  - vm_compute. reflexivity.
Qed.

(** * The claims on concrete pools

    The constants are those of the usual headers: pages of 4096 bytes and
    the sentinel -1. *)

(** C1 fails as stated: with two unpinned frames of attribute 0 the selector
    returns the later one, index 1. *)
Lemma lowest_index_tie_break_counterexample :
  ¬ lowest_index_tie_break tie_pool.
Proof.
  intros Hclaim.
  specialize (Hclaim _ 0%nat _ 0 eq_refl eq_refl eq_refl eq_refl eq_refl).
  assert ((strategyForFIFOandLRU tie_pool).1 = 1) as Hcode by reflexivity.
  rewrite Hcode in Hclaim. discriminate Hclaim.
  intros [|[|j]] g b Hj Hfix Hattr; simplify_eq/=; split; (lia || done).
Qed.

Lemma victim_selection_witness :
  (strategyForFIFOandLRU tie_pool).1 = Z.of_nat 1.
Proof.
  refine (proj1 (proj2 (victim_selection tie_pool _ eq_refl) eq_refl)
            1%nat _ 0 eq_refl eq_refl eq_refl _ _).
  - vm_compute. discriminate.
  - intros [|[|j]] g b Hj Hfix Hattr; simplify_eq/=; split; (lia || done).
Defined.

Lemma residency_uniqueness_witness :
  let state := run 4096 (-1) fifo_fill_released quiet_world unborn_pool in
  reachable 4096 (-1) state.1 state.2
  ∧ residency_unique (-1) (default [] (mgmtData state.2)).
Proof.
  assert (reachable 4096 (-1)
            (run 4096 (-1) fifo_fill_released quiet_world unborn_pool).1
            (run 4096 (-1) fifo_fill_released quiet_world unborn_pool).2)
    as Hreach by (apply run_reachable, reachable_start; reflexivity).
  split; [exact Hreach|].
  apply (residency_uniqueness 4096 (-1) eq_refl _ _ _ Hreach).
  vm_compute. reflexivity.
Defined.

(** C3 fails as stated: one frame under LRU, pinned 32001 times; the pin of
    page 1 fails for want of a victim and yet resets clock and attribute. *)
Lemma full_pin_leaves_state_counterexample :
  let state := run 4096 (-1) hot_requests quiet_world unborn_pool in
  reachable 4096 (-1) state.1 state.2
  ∧ ¬ full_pin_leaves_state 4096 (-1) state.1 state.2.
Proof.
  split.
  - apply run_reachable, reachable_start. reflexivity.
  - intros Hclaim.
    specialize (Hclaim
      (default [] (mgmtData (run 4096 (-1) hot_requests quiet_world unborn_pool).2))
      (handle_of 0) 1).
    assert (buffertimer
              (pinPage 4096 (-1)
                 (run 4096 (-1) hot_requests quiet_world unborn_pool).1
                 (run 4096 (-1) hot_requests quiet_world unborn_pool).2
                 (handle_of 0) 1).1.2 = 0) as Hcode
      by (vm_compute; reflexivity).
    rewrite Hclaim in Hcode.
    + vm_compute in Hcode. discriminate Hcode.
    + vm_compute. reflexivity.
    + vm_compute. repeat constructor.
    + lia.
    + intros l Hl. vm_compute in Hl. injection Hl as <-.
      intros Hin. apply list_elem_of_singleton in Hin. discriminate Hin.
Qed.

Lemma pin_without_victim_witness :
  let state := run 4096 (-1) fifo_fill_pinned quiet_world unborn_pool in
  pinPage 4096 (-1) state.1 state.2 (handle_of 0) 3
    = (RC_NO_AVAILABLE_FRAME, state.1, normalize state.2, handle_of 0)
  ∧ normalize state.2 = state.2.
Proof.
  destruct (pin_without_victim 4096 (-1) eq_refl
              (run 4096 (-1) fifo_fill_pinned quiet_world unborn_pool).1
              (run 4096 (-1) fifo_fill_pinned quiet_world unborn_pool).2
              (default [] (mgmtData
                 (run 4096 (-1) fifo_fill_pinned quiet_world unborn_pool).2))
              (handle_of 0) 3) as (Hpin & Hsame & _).
  - apply run_reachable, reachable_start. reflexivity.
  - vm_compute. reflexivity.
  - vm_compute. repeat constructor.
  - lia.
  - intros l Hl. vm_compute in Hl. injection Hl as <-.
    intros Hin. vm_compute in Hin.
    repeat (apply elem_of_cons in Hin as [Hin|Hin]; [discriminate Hin|]).
    by apply elem_of_nil in Hin.
  - split; [exact Hpin|]. apply Hsame. vm_compute. discriminate.
Defined.

(** C4 fails as stated: the one frame holds page 0, the file does not open
    for the load of page 1, and the frame still holds page 0. *)
Lemma failed_load_empties_victim_counterexample :
  ¬ failed_load_empties_victim 4096 (-1) failing_world single_pool
      (handle_of 0) 1.
Proof.
  intros Hclaim.
  destruct (Hclaim _ 0%nat RC_FILE_NOT_FOUND (mkWorld [] [] [] []) single_pool
              (handle_of 0) eq_refl eq_refl eq_refl eq_refl eq_refl)
    as (f' & Hf' & Hempty); [discriminate|].
  vm_compute in Hf'. injection Hf' as <-. discriminate Hempty.
Qed.

Lemma failed_load_keeps_victim_witness :
  ∃ f', frame_at single_pool 0 = Some f' ∧
        pageNum f' = 0 ∧ pageNum f' ≠ -1.
Proof.
  refine (failed_load_keeps_victim 4096 (-1) failing_world single_pool _
            (handle_of 0) 1 0%nat (mkPageHandle 0 (Some []) false 0 (Some 0))
            RC_FILE_NOT_FOUND (mkWorld [] [] [] []) single_pool (handle_of 0)
            eq_refl eq_refl eq_refl eq_refl eq_refl eq_refl _).
  discriminate.
Defined.

(** C5 fails as stated: without a release the three frames are pinned, the
    pin of page 3 returns [RC_NO_AVAILABLE_FRAME], page 0 stays and the read
    counter stays at 3. *)
Lemma fifo_scenario_as_stated_counterexample :
  ¬ fifo_scenario_as_stated 4096 (-1)
  ∧ (let '(w, pool) := run 4096 (-1) fifo_fill_pinned quiet_world unborn_pool in
     let '(rc, _, pool', _) := pinPage 4096 (-1) w pool (handle_of 0) 3 in
     rc = RC_NO_AVAILABLE_FRAME ∧ page_numbers pool' = Some [0; 1; 2]
     ∧ numberReadIO pool' = 3).
Proof.
  split.
  - unfold fifo_scenario_as_stated. vm_compute. intros [Hpages _].
    discriminate Hpages.
  - vm_compute. by split_and!.
Qed.

Lemma fifo_scenario_witness :
  let '(w, pool) := run 4096 (-1) fifo_fill_released quiet_world unborn_pool in
  page_numbers pool = Some [0; 1; 2]
  ∧ numberReadIO pool = 3 ∧ numberWriteIO pool = 0
  ∧ (strategyForFIFOandLRU pool).1 = 0
  ∧ let '(rc, _, pool', page') := pinPage 4096 (-1) w pool (handle_of 0) 3 in
    rc = RC_OK ∧ page_numbers pool' = Some [3; 1; 2]
    ∧ numberReadIO pool' = 4 ∧ numberWriteIO pool' = 0
    ∧ pageNum page' = 3.
Proof. exact (fifo_scenario 4096 (-1) eq_refl). Defined.







Lemma sentinel_matches_empty_frame_witness :
  let state := run 4096 (-1) [ReqInit "pages.bin" 2 RS_FIFO;
                              ReqPin (handle_of 0) 0] quiet_world unborn_pool in
  ∃ i f pool' f',
    list_find (λ f, pageNum f = -1) (default [] (mgmtData state.2))
      = Some (i, f) ∧
    markDirty state.2 (handle_of (-1)) = (RC_OK, pool') ∧
    frame_at pool' i = Some f' ∧ dirty f' = true ∧
    pageNum f' = -1 ∧ data f' = data f ∧ fixCounts f' = 0 ∧
    strategyAttribute f' = strategyAttribute f ∧
    getDirtyFlags pool'
      = Some (<[i := true]> (map dirty (default [] (mgmtData state.2)))) ∧
    (∀ j, j ≠ i → frame_at pool' j = default [] (mgmtData state.2) !! j) ∧
    unpinPage state.2 (handle_of (-1)) = (RC_PAGE_NOT_PINNED, state.2) ∧
    (forcePage 4096 state.1 state.2 (handle_of (-1))).1.1 ≠ RC_PAGE_NOT_FOUND ∧
    ((fopen state.1).1 = true →
       (forcePage 4096 state.1 state.2 (handle_of (-1))).1.1 = RC_OK ∧
       (dirty <$> frame_at (forcePage 4096 state.1 state.2 (handle_of (-1))).2 i)
         = Some false).
Proof.
  apply (sentinel_matches_empty_frame 4096 (-1) eq_refl
           (run 4096 (-1) [ReqInit "pages.bin" 2 RS_FIFO;
                           ReqPin (handle_of 0) 0] quiet_world unborn_pool).1
           (run 4096 (-1) [ReqInit "pages.bin" 2 RS_FIFO;
                           ReqPin (handle_of 0) 0] quiet_world unborn_pool).2).
  - apply run_reachable, reachable_start. reflexivity.
  - vm_compute. reflexivity.
  - reflexivity.
  - exists (empty_frame (-1)). split; [|reflexivity].
    vm_compute. apply list_elem_of_further, list_elem_of_here.
Defined.

(** * The further properties on concrete pools *)

Lemma victim_never_pinned_witness :
  (strategyForFIFOandLRU tie_pool).1 = -1
  ∨ ∃ i f, (strategyForFIFOandLRU tie_pool).1 = Z.of_nat i ∧
           default [] (mgmtData tie_pool) !! i = Some f ∧ fixCounts f = 0.
Proof. exact (victim_never_pinned tie_pool _ eq_refl). Defined.

Lemma selector_normalizes_clock_witness :
  let state := run 4096 (-1) hot_requests quiet_world unborn_pool in
  buffertimer (strategyForFIFOandLRU state.2).2 = 0 ∧
  ∀ l, getAttributionArray (strategyForFIFOandLRU state.2).2 = Some l →
       Forall (eq 0) l.
Proof.
  intros state.
  apply (proj1 (proj2 (proj2 (selector_normalizes_clock (-1) state.2)))).
  vm_compute. reflexivity.
Defined.



Lemma failed_pin_keeps_pins_witness :
  let result := pinPage 4096 (-1) failing_world single_pool (handle_of 0) 1 in
  result.2 = handle_of 0 ∧
  getNumReadIO result.1.2 = getNumReadIO single_pool ∧
  getFixCounts result.1.2 = getFixCounts single_pool ∧
  page_numbers result.1.2 = page_numbers single_pool.
Proof.
  intros result.
  refine (failed_pin_keeps_pins 4096 (-1) failing_world single_pool
            (handle_of 0) 1 RC_FILE_NOT_FOUND result.1.1.2 result.1.2
            result.2 _ _);
    vm_compute; (reflexivity || discriminate).
Defined.

Lemma empty_frame_before_eviction_witness :
  let state := run 4096 (-1) [ReqInit "pages.bin" 2 RS_FIFO;
                              ReqPin (handle_of 0) 0] quiet_world unborn_pool in
  let result := pinPage 4096 (-1) state.1 state.2 (handle_of 0) 7 in
  (∀ j, j ≠ 1%nat →
        frame_at result.1.2 j = default [] (mgmtData state.2) !! j) ∧
  disk result.1.1.2 = disk state.1 ∧
  getNumWriteIO result.1.2 = getNumWriteIO state.2 ∧
  (result.1.1.1 = RC_OK →
   frame_at result.1.2 1 = Some result.2 ∧ pageNum result.2 = 7).
Proof.
  intros state result.
  refine (empty_frame_before_eviction 4096 (-1) state.1 state.2
            (default [] (mgmtData state.2)) (handle_of 0) 7 1%nat
            (empty_frame (-1)) result.1.1.1 result.1.1.2 result.1.2 result.2
            _ _ _ _ _);
    vm_compute; (reflexivity || discriminate).
Defined.


Lemma getFrameContents_page_numbers_witness :
  let state := run 4096 (-1) fifo_fill_released quiet_world unborn_pool in
  getFrameContents (-1) state.2 = page_numbers state.2.
Proof.
  intros state.
  apply (getFrameContents_page_numbers 4096 (-1) state.1).
  apply run_reachable, reachable_start. reflexivity.
Defined.

Lemma pin_counts_never_negative_witness :
  let pool := (run 4096 (-1) fifo_fill_pinned quiet_world unborn_pool).2 in
  length [1; 1; 1] = Z.to_nat (numPages pool) ∧
  Forall (λ k, 0 ≤ k ≤ Z.of_nat (length fifo_fill_pinned)) [1; 1; 1] ∧
  0 ≤ getNumReadIO pool ≤ Z.of_nat (length fifo_fill_pinned) ∧
  0 ≤ buffertimer pool ≤ Z.of_nat (length fifo_fill_pinned).
Proof.
  intros pool.
  apply (pin_counts_never_negative 4096 (-1) fifo_fill_pinned quiet_world
           unborn_pool).
  - reflexivity.
  - vm_compute. discriminate.
  - vm_compute. reflexivity.
Defined.


Lemma initBufferPool_fresh_witness :
  ∃ w' pool',
    initBufferPool (-1) quiet_world unborn_pool "pages.bin" 3 RS_LRU
      = (RC_OK, w', pool') ∧
    getFrameContents (-1) pool' = Some (replicate (Z.to_nat 3) (-1)) ∧
    getFixCounts pool' = Some (replicate (Z.to_nat 3) 0) ∧
    getDirtyFlags pool' = Some (replicate (Z.to_nat 3) false) ∧
    getAttributionArray pool' = Some (replicate (Z.to_nat 3) 0) ∧
    getNumReadIO pool' = 0 ∧ getNumWriteIO pool' = 0 ∧
    strategy pool' = RS_LRU ∧ pageFile pool' = "pages.bin" ∧
    disk w' = disk quiet_world.
Proof.
  apply (proj2 (initBufferPool_fresh (-1) quiet_world unborn_pool
                  "pages.bin" 3 RS_LRU)); reflexivity.
Defined.

Lemma shutdown_blocked_while_pinned_witness :
  let state := run 4096 (-1) fifo_fill_pinned quiet_world unborn_pool in
  shutdownBufferPool 4096 state.1 state.2
    = (RC_SHUTDOWN_POOL_FAILED, state.1, state.2).
Proof.
  intros state.
  apply (shutdown_blocked_while_pinned 4096 state.1 state.2
           (default [] (mgmtData state.2))).
  - vm_compute. reflexivity.
  - exists (default (handle_of 0) (frame_at state.2 0)). split.
    + vm_compute. apply list_elem_of_here.
    + vm_compute. discriminate.
Defined.

Lemma shutdown_ends_pool_witness :
  let state := run 4096 (-1) released_dirty_requests quiet_world unborn_pool in
  let result := shutdownBufferPool 4096 state.1 state.2 in
  (∀ frames, mgmtData state.2 = Some frames →
     Forall (λ f, fixCounts f = 0) frames) ∧
  (∀ r w0, uses_pool r = true →
     perform 4096 (-1) r w0 result.2 = (RC_POOL_NOT_INIT, w0, result.2)) ∧
  getFrameContents (-1) result.2 = None ∧ getFixCounts result.2 = None ∧
  getDirtyFlags result.2 = None ∧ getAttributionArray result.2 = None.
Proof.
  intros state result.
  apply (shutdown_ends_pool 4096 (-1) state.1 state.2 result.1.2).
  vm_compute. reflexivity.
Defined.

Lemma attribute_array_bounds_witness :
  let pool := (run 4096 (-1) fifo_fill_released quiet_world unborn_pool).2 in
  Forall (λ a, 0 ≤ a ≤ buffertimer pool) [0; 1; 2].
Proof.
  intros pool.
  apply (attribute_array_bounds 4096 (-1) fifo_fill_released quiet_world
           unborn_pool).
  - reflexivity.
  - vm_compute. discriminate.
  - vm_compute. reflexivity.
Defined.

Lemma selector_finds_victim_witness :
  let pool := (run 4096 (-1) fifo_fill_released quiet_world unborn_pool).2 in
  clock_dominates (buffertimer pool) (default [] (mgmtData pool))
  ∧ ((∃ f, f ∈ default [] (mgmtData pool) ∧ fixCounts f = 0) →
     ∃ i f, (strategyForFIFOandLRU pool).1 = Z.of_nat i ∧
            default [] (mgmtData pool) !! i = Some f ∧ fixCounts f = 0).
Proof.
  intros pool.
  apply (selector_finds_victim 4096 (-1) fifo_fill_released quiet_world
           unborn_pool).
  - reflexivity.
  - vm_compute. discriminate.
  - vm_compute. reflexivity.
Defined.

Lemma flush_twice_witness :
  let state := run 4096 (-1) released_dirty_requests quiet_world unborn_pool in
  let flushed := forceFlushPool 4096 state.1 state.2 in
  forceFlushPool 4096 flushed.1.2 flushed.2 = (RC_OK, flushed.1.2, flushed.2) ∧
  ∀ frames1 f, mgmtData flushed.2 = Some frames1 → f ∈ frames1 →
               fixCounts f = 0 → dirty f = false.
Proof.
  intros state flushed.
  apply (flush_twice 4096 (-1) eq_refl state.1 state.2).
  - apply run_reachable, reachable_start. reflexivity.
  - vm_compute. reflexivity.
Defined.



Lemma no_available_frame_iff_witness :
  let state := run 4096 (-1) fifo_fill_pinned quiet_world unborn_pool in
  let result := pinPage 4096 (-1) state.1 state.2 (handle_of 0) 3 in
  (result.1.1.1 = RC_NO_AVAILABLE_FRAME ↔
   ∃ frames, mgmtData state.2 = Some frames ∧ 0 ≤ 3 ∧
     list_find (λ f, pageNum f = 3) frames = None ∧
     list_find (λ f, pageNum f = -1) frames = None ∧
     (strategyForFIFOandLRU state.2).1 = -1)
  ∧ result.1.1.1 ≠ RC_PAGE_NOT_FOUND ∧ result.1.1.1 ≠ RC_PAGE_NOT_PINNED
  ∧ result.1.1.1 ≠ RC_SHUTDOWN_POOL_FAILED.
Proof.
  intros state result.
  refine (no_available_frame_iff 4096 (-1) state.1 state.2 (handle_of 0) 3
            result.1.1.1 result.1.1.2 result.1.2 result.2 _).
  vm_compute. reflexivity.
Defined.

Lemma pinned_page_stays_resident_witness :
  let state := run 4096 (-1) two_dirty_requests quiet_world unborn_pool in
  let f := default (handle_of 0) (frame_at state.2 1) in
  let result := perform 4096 (-1) (ReqPin (handle_of 0) 2) state.1 state.2 in
  ∃ f', frame_at result.2 1 = Some f' ∧
        pageNum f' = pageNum f ∧ data f' = data f.
Proof.
  intros state f result.
  refine (pinned_page_stays_resident 4096 (-1) (ReqPin (handle_of 0) 2)
            state.1 state.2 (default [] (mgmtData state.2))
            result.1.1 result.1.2 result.2 1%nat f _ _ _ _ _ _).
  - reflexivity.
  - vm_compute. reflexivity.
  - vm_compute. reflexivity.
  - vm_compute. reflexivity.
  - vm_compute. discriminate.
  - vm_compute. discriminate.
Defined.

Lemma marked_page_is_flushed_witness :
  let state := run 4096 (-1) released_dirty_requests quiet_world unborn_pool in
  let f := default (handle_of 0) (frame_at state.2 1) in
  let marked := markDirty state.2 (handle_of 1) in
  let result := forceFlushPool 4096 state.1 marked.2 in
  marked.1 = RC_OK ∧
  (∃ buf written,
     data f = Some buf ∧ length buf = Z.to_nat 4096 ∧
     disk result.1.2 = written ++ disk state.1 ∧
     (pageFile state.2, 1 * 4096, Some buf) ∈ written) ∧
  (dirty <$> frame_at result.2 1) = Some false.
Proof.
  intros state f marked result.
  refine (marked_page_is_flushed 4096 (-1) eq_refl state.1 state.2
            (default [] (mgmtData state.2)) (handle_of 1) 1%nat f
            result.1.2 result.2 _ _ _ _ _ _ _).
  - apply run_reachable, reachable_start. reflexivity.
  - vm_compute. reflexivity.
  - vm_compute. reflexivity.
  - vm_compute. reflexivity.
  - vm_compute. repeat split; discriminate.
  - vm_compute. constructor.
  - vm_compute. reflexivity.
Defined.
